(** * Fireblocks consolidation scripts: price resolution and eligibility

  A shallow embedding of the analysis scripts of the repository and the
  properties of their price-resolution and classification logic.

  JavaScript numbers are IEEE-754 binary64 values; they are modelled by
  Rocq's primitive [float], which is the same format with the same
  rounding, so arithmetic and comparisons evaluate here to the very
  doubles the scripts compute.  Plain JavaScript objects used as
  dictionaries are [gmap string _], [Set]s of strings are [gset string],
  and arrays are lists.  A missing property ([undefined]) or a JSON
  [null] is [None].  The JSON tables (price cache, overrides, minimum
  amounts) are taken to hold JSON numbers, as the scripts write them.

  A string is kept as the bytes of its UTF-8 encoding, so every
  character outside ASCII is a sequence of two to four bytes from 128
  up.  A [gmap] holds the properties an object has of its own; the
  members every plain object inherits from [Object.prototype] are
  named by [Js.inherited], and [has_prop] and [Js.prop_num] read an
  object the way [obj[k]] does, inherited members included. *)

From Stdlib Require Import Floats ZArith Uint63 List String Ascii Lia Bool.
From stdpp Require Import base strings gmap list.

Set Warnings "-inexact-float".
Local Open Scope Z_scope.

(** ** JavaScript primitives shared by the scripts *)

Module Js.

(** [Number.isFinite(n)] on a number. *)
Definition Number_isFinite (n : float) : bool := PrimFloat.is_finite n.

(** [ToNumber] of a value that is a number or [undefined]:
    [undefined] becomes [NaN]. *)
Definition to_number (x : option float) : float :=
  match x with
  | Some n => n
  | None => PrimFloat.nan
  end.

(** [num(x)] of the scripts,
    [const n=Number(String(x??"").trim()); return Number.isFinite(n)?n:0],
    on a value that is a number, [undefined] or [null].  A finite number
    survives the round trip through its decimal string ([-0] prints as
    ["0"] and comes back as [0]); [NaN] and the infinities fail the
    finiteness test; the empty string converts to [0]. *)
Definition num (x : option float) : float :=
  match x with
  | None => 0%float
  | Some n =>
      if Number_isFinite n then (if PrimFloat.is_zero n then 0%float else n)
      else 0%float
  end.

(** The integer [z] as a double ([|z| < 2^53] wherever it is used). *)
Definition of_Z (z : Z) : float :=
  if z <? 0 then PrimFloat.opp (of_uint63 (Uint63.of_Z (- z)))
  else of_uint63 (Uint63.of_Z z).

Definition signed_mantissa (s : bool) (m : positive) : Z :=
  if s then Z.neg m else Z.pos m.

(** [Math.floor].  A double [m * 2^e] with [e >= 0], a zero, an infinity
    or [NaN] is its own floor; otherwise the mantissa is shifted right,
    which rounds towards minus infinity. *)
Definition Math_floor (x : float) : float :=
  match Prim2SF x with
  | S754_finite s m e =>
      if e <? 0 then of_Z (Z.shiftl (signed_mantissa s m) e) else x
  | _ => x
  end.

(** [Math.ceil], as minus the floor of the opposite.  (JavaScript
    returns [-0] on (-1,0) where this returns [0]; no script can tell
    the two apart.) *)
Definition Math_ceil (x : float) : float :=
  match Prim2SF x with
  | S754_finite s m e =>
      if e <? 0 then of_Z (- Z.shiftl (signed_mantissa (negb s) m) e) else x
  | _ => x
  end.

(** The array index a number denotes, when it is a non-negative
    integer; any other number names a property no array has. *)
Definition array_index (i : float) : option Z :=
  match Prim2SF i with
  | S754_zero _ => Some 0
  | S754_finite false m e =>
      if 0 <=? e then Some (Z.shiftl (Z.pos m) e)
      else if Z.land (Z.pos m) (Z.ones (- e)) =? 0
           then Some (Z.shiftl (Z.pos m) e)
           else None
  | _ => None
  end.

(** [a[i]]: [undefined] out of range. *)
Definition get (a : list float) (i : float) : option float :=
  match array_index i with
  | Some z => if z <? Z.of_nat (List.length a) then a !! Z.to_nat z else None
  | None => None
  end.

(** [a.length] as a number. *)
Definition length (a : list float) : float := of_Z (Z.of_nat (List.length a)).

(** [x === y] on numbers. *)
Definition strict_eq (x y : float) : bool := PrimFloat.eqb x y.

(** [Array.prototype.sort((x,y)=>x-y)]: a stable sort by the sign of
    the difference, here by insertion. *)
Fixpoint insert_num (x : float) (l : list float) : list float :=
  match l with
  | [] => [x]
  | y :: l' =>
      if PrimFloat.ltb (x - y)%float 0%float then x :: y :: l'
      else y :: insert_num x l'
  end.

Definition sort_num (l : list float) : list float :=
  fold_right insert_num [] l.

(** Upper-casing of an ASCII character. *)
Definition upper_ascii (c : ascii) : ascii :=
  let n := nat_of_ascii c in
  if ((97 <=? n) && (n <=? 122))%nat then ascii_of_nat (n - 32) else c.

(** The string of the bytes [l]. *)
Definition bytes (l : list nat) : string :=
  fold_right (λ n s, String (ascii_of_nat n) s) EmptyString l.

(** The characters of two bytes whose upper case holds an ASCII letter:
    dotless i (U+0131) and long s (U+017F) become [I] and [S], sharp s
    (U+00DF) becomes [SS], and U+0149 and U+01F0 become a letter next to
    a mark. *)
Definition upper_two (c1 c2 : ascii) : option string :=
  match nat_of_ascii c1, nat_of_ascii c2 with
  | 196, 177 => Some (bytes [73])
  | 197, 191 => Some (bytes [83])
  | 195, 159 => Some (bytes [83; 83])
  | 197, 137 => Some (bytes [202; 188; 78])
  | 199, 176 => Some (bytes [74; 204; 140])
  | _, _ => None
  end%nat.

(** Those of three bytes: U+1E96 to U+1E9A, a letter with a mark, and
    the ligatures U+FB00 to U+FB06. *)
Definition upper_three (c1 c2 c3 : ascii) : option string :=
  match nat_of_ascii c1, nat_of_ascii c2, nat_of_ascii c3 with
  | 225, 186, 150 => Some (bytes [72; 204; 177])
  | 225, 186, 151 => Some (bytes [84; 204; 136])
  | 225, 186, 152 => Some (bytes [87; 204; 138])
  | 225, 186, 153 => Some (bytes [89; 204; 138])
  | 225, 186, 154 => Some (bytes [65; 202; 190])
  | 239, 172, 128 => Some (bytes [70; 70])
  | 239, 172, 129 => Some (bytes [70; 73])
  | 239, 172, 130 => Some (bytes [70; 76])
  | 239, 172, 131 => Some (bytes [70; 70; 73])
  | 239, 172, 132 => Some (bytes [70; 70; 76])
  | 239, 172, 133 => Some (bytes [83; 84])
  | 239, 172, 134 => Some (bytes [83; 84])
  | _, _, _ => None
  end%nat.

(** [s.toUpperCase()], as far as ASCII goes: the ASCII letters, and the
    characters above, which are all those whose upper case holds an ASCII
    character.  Any other character is left as it is: its upper case is
    again outside ASCII, and the scripts only search the result for ASCII
    words. *)
Fixpoint toUpperCase (s : string) : string :=
  match s with
  | EmptyString => EmptyString
  | String c1 s1 =>
      match s1 with
      | EmptyString => String (upper_ascii c1) EmptyString
      | String c2 s2 =>
          match upper_two c1 c2 with
          | Some u => u +:+ toUpperCase s2
          | None =>
              match s2 with
              | EmptyString => String (upper_ascii c1) (toUpperCase s1)
              | String c3 s3 =>
                  match upper_three c1 c2 c3 with
                  | Some u => u +:+ toUpperCase s3
                  | None => String (upper_ascii c1) (toUpperCase s1)
                  end
              end
          end
      end
  end.

(** [s.startsWith(p)]. *)
Fixpoint startsWith (s p : string) : bool :=
  match p, s with
  | EmptyString, _ => true
  | String _ _, EmptyString => false
  | String a p', String b s' =>
      if Ascii.eqb a b then startsWith s' p' else false
  end.

(** [s.includes(p)]. *)
Fixpoint includes (s p : string) : bool :=
  startsWith s p ||
  match s with
  | EmptyString => false
  | String _ s' => includes s' p
  end.

(** The members of [Object.prototype].  For a key among them [obj[k]]
    is not [undefined] on any plain object: it is the property the
    object has of its own, if any, and otherwise a function (for
    [__proto__], the prototype object). *)
Definition inherited (k : string) : bool :=
  existsb (String.eqb k)
    [ "constructor"; "__proto__"; "hasOwnProperty"; "isPrototypeOf";
      "propertyIsEnumerable"; "toLocaleString"; "toString"; "valueOf";
      "__defineGetter__"; "__defineSetter__"; "__lookupGetter__";
      "__lookupSetter__" ].

(** [obj[k]] read as a number, for an object whose own properties are
    numbers: an inherited member is a function or an object, which
    converts to [NaN] wherever a number is expected. *)
Definition prop_num (obj : gmap string float) (k : string) : option float :=
  match obj !! k with
  | Some v => Some v
  | None => if inherited k then Some PrimFloat.nan else None
  end.

End Js.

(** ** Break-even report: [percentile] over an already sorted array *)

Module Breakeven.

(** [percentile(sorted, p)].  The result is [None] where JavaScript
    returns [undefined] (an index outside the array when both bounds
    coincide); inside the blend an [undefined] operand is [NaN]. *)
Definition percentile (sorted : list float) (p : float) : option float :=
  if (List.length sorted =? 0)%nat then Some 0%float
  else
    let idx := ((Js.length sorted - 1) * p)%float in
    let lo := Js.Math_floor idx in
    let hi := Js.Math_ceil idx in
    if Js.strict_eq lo hi then Js.get sorted lo
    else
      let w := (idx - lo)%float in
      Some (Js.to_number (Js.get sorted lo) * (1 - w)
            + Js.to_number (Js.get sorted hi) * w)%float.

End Breakeven.

(** ** The transfer plan, shared by the scripts

    A row of [plan/plan.csv] after the parsing boundary: the amount went
    through [num], the two flags were compared with the literal ["true"]. *)

Record PlanRow := mkPlanRow {
  sourceVaultId : string;
  assetId : string;
  amount : float;
  destinationVaultId : string;
  requiresGas : bool;
  gasAssetId : string;
  gasReady : bool
}.

(** The row identifier of the journals, [`${source}|${asset}|${dest}`]. *)
Definition rowId (source asset dest : string) : string :=
  source +:+ "|" +:+ asset +:+ "|" +:+ dest.

(** The identifier of a plan row. *)
Definition rowIdOf (p : PlanRow) : string :=
  rowId (sourceVaultId p) (assetId p) (destinationVaultId p).

(** Whether the object has a property of its own under [k]: this is
    [obj[k] != null] for every key but the names of [Js.inherited]. *)
Definition has {V} (m : gmap string V) (k : string) : bool :=
  match m !! k with
  | Some _ => true
  | None => false
  end.

(** [obj[k] != null] on a plain object: an own property or an inherited
    member. *)
Definition has_prop {V} (m : gmap string V) (k : string) : bool :=
  has m k || Js.inherited k.

(** [s.add(x)] on a [Set], kept as the list of its elements in
    insertion order. *)
Definition set_add (x : string) (s : list string) : list string :=
  if bool_decide (x ∈ s) then s else s ++ [x].

(** [[...new Set(l)]]: first occurrences, in order. *)
Definition uniq (l : list string) : list string :=
  foldl (λ s x, set_add x s) [] l.

(** The chunks [l.slice(i, i+k)] for [i = 0, k, 2k, ...], filled from
    the left ([cur] is the chunk being filled, reversed, and [room] the
    places left in it). *)
Fixpoint chunks_from {A} (k room : nat) (cur : list A) (l : list A)
  : list (list A) :=
  match l with
  | [] => match cur with [] => [] | _ => [rev cur] end
  | x :: l' =>
      match room with
      | O => rev cur :: chunks_from k (k - 1) [x] l'
      | S room' => chunks_from k room' (x :: cur) l'
      end
  end.

Definition chunks {A} (k : nat) (l : list A) : list (list A) :=
  chunks_from k k [] l.

(** A non-empty string is truthy. *)
Definition truthy (x : option string) : option string :=
  match x with
  | Some EmptyString => None
  | other => other
  end.

(** ** [fireblocks_analysis_v2.js] *)

Module AnalysisV2.

Definition isStable (assetId : string) : bool :=
  let a := Js.toUpperCase assetId in
  Js.includes a "USDC" || Js.includes a "USDT"
  || Js.includes a "BUSD" || Js.includes a "TUSD".

(** Environment variables and the optional tables under [execute/]. *)
Record Env := mkEnv {
  OFFLINE : bool;
  MIN_USD_PER_TX : float;
  STABLECOIN_MIN_USD : float;
  minByAsset : gmap string float;   (* min_by_asset.json, .minByAsset *)
  map : gmap string string          (* asset_to_coingecko.json *)
}.

(** One plan row that is still to do, with its identifier. *)
Record Candidate := mkCandidate {
  rid : string;
  c_row : PlanRow
}.

(** One turn of the loop over the plan lines: the asset is always
    recorded, the row only when its identifier is in no ledger. *)
Definition collect_step (completed : gset string)
    (st : list Candidate * list string) (r : PlanRow)
  : list Candidate * list string :=
  let '(candidates, assets) := st in
  let rid := rowIdOf r in
  let assets := set_add (assetId r) assets in
  if bool_decide (rid ∈ completed) then (candidates, assets)
  else (candidates ++ [mkCandidate rid r], assets).

Definition collect (completed : gset string) (plan : list PlanRow)
  : list Candidate * list string :=
  foldl (collect_step completed) ([], []) plan.

(** What [sources] holds, and what [sources[a]] gives: [object_member]
    stands for the function, or prototype object, under an inherited
    name. *)
Inductive PriceSource := stable | cached | coingecko | unknown | object_member.

(** The two objects [getPrices] fills. *)
Record Prices := mkPrices {
  prices : gmap string float;
  sources : gmap string PriceSource
}.

Definition set_price (a : string) (p : float) (src : PriceSource)
    (st : Prices) : Prices :=
  {| prices := <[a := p]> (prices st); sources := <[a := src]> (sources st) |}.

Definition stable_pass (assets : list string) (st : Prices) : Prices :=
  foldl (λ st a, if isStable a then set_price a 1%float stable st else st)
        st assets.

Definition cached_pass (cache : gmap string float) (assets : list string)
    (st : Prices) : Prices :=
  foldl (λ st a,
           if has_prop (prices st) a then st
           else if PrimFloat.ltb 0 (Js.num (cache !! a))
                then set_price a (Js.num (cache !! a)) cached st
                else st)
        st assets.

Definition mark_unknown (assets : list string) (st : Prices) : Prices :=
  foldl (λ st a,
           if has_prop (prices st) a then st
           else {| prices := prices st;
                   sources := <[a := unknown]> (sources st) |})
        st assets.

(** The assets still without a price that the mapping knows. *)
Definition pairs_of (map : gmap string string) (assets : list string)
    (st : Prices) : list (string * string) :=
  foldl (λ pairs a,
           if has_prop (prices st) a then pairs
           else match truthy (map !! a) with
                | Some cg => pairs ++ [(a, cg)]
                | None => pairs
                end)
        [] assets.

(** The body of the loop over the chunks.  [fetchJson] answers [None]
    when the request throws; the answer maps an identifier of the price
    service to its [usd] field. *)
Definition fetch_chunk (fetchJson : list string → option (gmap string float))
    (pairs : list (string * string)) (st : Prices) (chunk : list string)
  : Prices :=
  match fetchJson chunk with
  | None => st
  | Some json =>
      foldl (λ st '(asset, cgid),
               if has_prop (prices st) asset then st
               else if PrimFloat.ltb 0 (Js.num (json !! cgid))
                    then set_price asset (Js.num (json !! cgid)) coingecko st
                    else st)
            st pairs
  end.

(** [getPrices(assets)].  The second component is the content of
    [execute/last_prices_usd.json] when the function returns ([None]: no
    such file). *)
Definition getPrices (env : Env)
    (cacheFile : option (gmap string float))
    (fetchJson : list string → option (gmap string float))
    (assets : list string)
  : Prices * option (gmap string float) :=
  let st := stable_pass assets (mkPrices ∅ ∅) in
  let st := cached_pass (default ∅ cacheFile) assets st in
  if OFFLINE env then (mark_unknown assets st, cacheFile)
  else
    let pairs := pairs_of (map env) assets st in
    let ids := uniq (pairs.*2) in
    let st := foldl (fetch_chunk fetchJson pairs) st (chunks 150 ids) in
    let st := mark_unknown assets st in
    let merged := prices st ∪ default ∅ cacheFile in
    (st, Some merged).

Inductive MinBasis :=
  | min_by_asset | stable_usd_floor | usd_floor | no_price_no_floor.

(** [minAmountFor(assetId)]; the basis is kept without the amount the
    script prints after it.  Under an inherited name [minByAsset[assetId]]
    is not [null]; the minimum is then a function, which the comparison
    with the amount reads as [NaN]. *)
Definition minAmountFor (env : Env) (prices : gmap string float)
    (assetId : string) : option float * MinBasis :=
  match Js.prop_num (minByAsset env) assetId with
  | Some m => (Some m, min_by_asset)
  | None =>
      if isStable assetId then (Some (STABLECOIN_MIN_USD env), stable_usd_floor)
      else
        let p := prices !! assetId in
        if PrimFloat.ltb 0 (Js.num p)
        then (Some (MIN_USD_PER_TX env / Js.to_number p)%float, usd_floor)
        else (None, no_price_no_floor)
  end.

Inductive Reason := READY_TO_EXECUTE | NEEDS_GAS | BELOW_MIN | UNKNOWN_PRICE.

Global Instance Reason_eq_dec : EqDecision Reason.
Proof. solve_decision. Defined.

Record ClassifiedRow := mkClassifiedRow {
  cand : Candidate;
  priceUSD : option float;
  priceSource : PriceSource;
  estUSD : option float;
  minAmt : option float;
  minBasis : MinBasis;
  reason : Reason
}.

Definition priceKnown (prices : gmap string float) (r : PlanRow) : bool :=
  PrimFloat.ltb 0 (Js.num (prices !! assetId r)) || isStable (assetId r).

(** [minAmt!=null && r.amount < minAmt]. *)
Definition below (amount : float) (minAmt : option float) : bool :=
  match minAmt with
  | Some m => PrimFloat.ltb amount m
  | None => false
  end.

(** The body of the loop over the candidates. *)
Definition classify (env : Env) (P : Prices) (c : Candidate) : ClassifiedRow :=
  let r := c_row c in
  let p := prices P !! assetId r in
  let known := priceKnown (prices P) r in
  let unit := if isStable (assetId r) then 1%float else Js.to_number p in
  let estUSD := if known then Some (amount r * unit)%float else None in
  let '(minAmt, basis) := minAmountFor env (prices P) (assetId r) in
  let reason :=
    if requiresGas r && negb (gasReady r) then NEEDS_GAS
    else if below (amount r) minAmt then BELOW_MIN
    else READY_TO_EXECUTE in
  let reason :=
    if negb known
    then (if decide (reason = READY_TO_EXECUTE) then UNKNOWN_PRICE else reason)
    else reason in
  {| cand := c;
     priceUSD := if known then Some unit else None;
     priceSource := match sources P !! assetId r with
                    | Some src => src
                    | None => if Js.inherited (assetId r) then object_member
                              else unknown
                    end;
     estUSD := estUSD;
     minAmt := minAmt;
     minBasis := basis;
     reason := reason |}.

(** What a run leaves: the classified remaining rows and the price
    cache file. *)
Record Output := mkOutput {
  remaining : list ClassifiedRow;
  cacheFileAfter : option (gmap string float)
}.

Definition main (env : Env) (completed : gset string) (plan : list PlanRow)
    (cacheFile : option (gmap string float))
    (fetchJson : list string → option (gmap string float)) : Output :=
  let '(candidates, assets) := collect completed plan in
  let '(P, file) := getPrices env cacheFile fetchJson assets in
  {| remaining := List.map (classify env P) candidates;
     cacheFileAfter := file |}.

(** The rows counted under each reason ([rowsByReason]). *)
Definition rowsByReason (out : Output) (k : Reason) : nat :=
  List.length (List.filter (λ x, bool_decide (reason x = k)) (remaining out)).

End AnalysisV2.

(** ** [fireblocks_analysis.js], the first analysis script *)

Module Analysis.

Definition isStable (assetId : string) : bool :=
  let a := Js.toUpperCase assetId in
  Js.includes a "USDC" || Js.includes a "USDT"
  || String.eqb a "TUSD" || Js.includes a "TUSD"
  || Js.includes a "BUSD".

Record Env := mkEnv {
  MIN_USD_PER_TX : float;
  STABLECOIN_MIN_USD : float;
  minByAsset : gmap string float
}.

Record Candidate := mkCandidate {
  rid : string;
  c_row : PlanRow
}.

(** Here every plan line becomes a candidate; the ledgers are consulted
    in the evaluation loop. *)
Definition candidates (plan : list PlanRow) : list Candidate :=
  List.map (λ r, mkCandidate (rowIdOf r) r) plan.

Inductive Reason := READY_TO_EXECUTE | NEEDS_GAS | BELOW_MIN.

Record Row := mkRow {
  cand : Candidate;
  priceUSD : option float;
  estUSD : option float;
  reason : Reason;
  priceKnown : bool
}.

Record State := mkState {
  completedCount : nat;
  remainingCount : nat;
  remaining : list Row
}.

(** [price != null && price > 0]. *)
Definition positive (price : option float) : bool :=
  match price with
  | Some p => PrimFloat.ltb 0 p
  | None => false
  end.

Definition minAmtFor (env : Env) (price : option float) (assetId : string)
  : option float :=
  match minByAsset env !! assetId with
  | Some m => Some m
  | None =>
      if isStable assetId then Some (STABLECOIN_MIN_USD env)
      else if positive price
           then Some (MIN_USD_PER_TX env / Js.to_number price)%float
           else None
  end.

Definition below (amount : float) (minAmt : option float) : bool :=
  match minAmt with
  | Some m => PrimFloat.ltb amount m
  | None => false
  end.

(** The body of the loop "Evaluate each candidate". *)
Definition evaluate_step (env : Env) (completedSet : gset string)
    (prices : gmap string float) (st : State) (c : Candidate) : State :=
  if bool_decide (rid c ∈ completedSet)
  then {| completedCount := S (completedCount st);
          remainingCount := remainingCount st;
          remaining := remaining st |}
  else
    let r := c_row c in
    let price := prices !! assetId r in
    let usd := match price with
               | None => 0%float
               | Some p => (amount r * p)%float
               end in
    let minAmt := minAmtFor env price (assetId r) in
    let reason :=
      if requiresGas r && negb (gasReady r) then NEEDS_GAS
      else if below (amount r) minAmt then BELOW_MIN
      else READY_TO_EXECUTE in
    let known := positive price in
    {| completedCount := completedCount st;
       remainingCount := S (remainingCount st);
       remaining := remaining st ++
         [ {| cand := c;
              priceUSD := if known then price else None;
              estUSD := if known then Some usd else None;
              reason := reason;
              priceKnown := known |} ] |}.

Definition evaluate (env : Env) (completedSet : gset string)
    (prices : gmap string float) (plan : list PlanRow) : State :=
  foldl (evaluate_step env completedSet prices) (mkState 0 0 []) (candidates plan).

End Analysis.

(** ** [tools/fb_receivership_report.js] *)

Module ReceivershipReport.

(** Sources that are never counted as "to transfer". *)
Definition SKIP_VAULTS : gset string := {[ "94828"; "94797" ]}.

(** [/^USDC/.test(a) || /^USDT/.test(a) || a === "TUSD" || /^BUSD/.test(a)]. *)
Definition isStable (assetId : string) : bool :=
  Js.startsWith assetId "USDC" || Js.startsWith assetId "USDT"
  || String.eqb assetId "TUSD" || Js.startsWith assetId "BUSD".

(** [loadGasFeePolicy()]. *)
Record GasPolicy := mkGasPolicy {
  feeNative : gmap string float;
  MIN_USD_PER_TX : float;
  STABLECOIN_MIN_USD : float
}.

(** A remaining plan row, [{ ...r, rowId: rid }]. *)
Record Remaining := mkRemaining {
  rowId_of : string;
  r_row : PlanRow
}.

(** "Remaining plan rows = plan rows not in completed ledger". *)
Definition remaining_step (completed : gset string)
    (remaining : list Remaining) (r : PlanRow) : list Remaining :=
  let rid := rowIdOf r in
  if bool_decide (rid ∈ completed) then remaining
  else remaining ++ [mkRemaining rid r].

Definition remaining (completed : gset string) (plan : list PlanRow)
  : list Remaining :=
  foldl (remaining_step completed) [] plan.

(** [typeof p === "number" && Number.isFinite(p)]. *)
Definition finite_number (x : option float) : option float :=
  match x with
  | Some p => if Js.Number_isFinite p then Some p else None
  | None => None
  end.

Definition priceOf (prices : gmap string float) (assetId : string)
  : option float :=
  finite_number (prices !! assetId).

Inductive Status := READY_NOW | NEEDS_GAS | NOT_WORTH.

Record PerRow := mkPerRow {
  row : Remaining;
  valueUsd : option float;
  minUsdPolicy : float;
  belowMin : bool;
  estGasUsd : option float;
  gasNotWorth : bool;
  status : Status
}.

(** [valueUsd !== null && valueUsd < minUsd] and the like. *)
Definition lt_opt (x : option float) (y : float) : bool :=
  match x with
  | Some v => PrimFloat.ltb v y
  | None => false
  end.

Definition estimate_gas (gas : GasPolicy) (prices : gmap string float)
    (r : PlanRow) : option float :=
  if requiresGas r then
    match finite_number (feeNative gas !! gasAssetId r),
          priceOf prices (gasAssetId r) with
    | Some gasNative, Some gasPx => Some (gasNative * gasPx)%float
    | _, _ => None
    end
  else None.

(** The classification of one remaining row whose source is not
    skipped. *)
Definition classify (gas : GasPolicy) (prices : gmap string float)
    (x : Remaining) : PerRow :=
  let r := r_row x in
  let assetPx := priceOf prices (assetId r) in
  let valueUsd := match assetPx with
                  | None => None
                  | Some px => Some (amount r * px)%float
                  end in
  let minUsd := if isStable (assetId r) then STABLECOIN_MIN_USD gas
                else MIN_USD_PER_TX gas in
  let belowMin := lt_opt valueUsd minUsd in
  let estGasUsd := estimate_gas gas prices r in
  let gasNotWorth :=
    match valueUsd, estGasUsd with
    | Some v, Some g => PrimFloat.leb v g && requiresGas r
    | _, _ => false
    end in
  let status := if requiresGas r && negb (gasReady r) then NEEDS_GAS
                else READY_NOW in
  let status := if belowMin || gasNotWorth then NOT_WORTH else status in
  {| row := x; valueUsd := valueUsd; minUsdPolicy := minUsd;
     belowMin := belowMin; estGasUsd := estGasUsd;
     gasNotWorth := gasNotWorth; status := status |}.

Definition perRow_step (gas : GasPolicy) (prices : gmap string float)
    (perRow : list PerRow) (x : Remaining) : list PerRow :=
  if bool_decide (sourceVaultId (r_row x) ∈ SKIP_VAULTS) then perRow
  else perRow ++ [classify gas prices x].

Definition perRow (gas : GasPolicy) (prices : gmap string float)
    (completed : gset string) (plan : list PlanRow) : list PerRow :=
  foldl (perRow_step gas prices) [] (remaining completed plan).

End ReceivershipReport.

(** ** [tools/fb_analyze_inventory.js] *)

Module AnalyzeInventory.

(** [PRICE_SOURCE]; any other value takes the [coingecko] path. *)
Inductive PriceSourceMode := offline | cache | coingecko.

(** The three JSON tables read at start-up ([{}] for a missing file).
    [overrides] holds the entries of [price_overrides_usd.json], which
    are numbers: the script passes each through [Number], and a number
    converts to itself.

    The functions below read and write the tables by their own
    properties.  That is what the script does for every key but the
    names of [Js.inherited]: under such a name [overrides[a]] and
    [prices[a]] are never [undefined] and [cgToAsset[cg]] is no array,
    so these names are set apart where a property depends on them. *)
Record Tables := mkTables {
  assetToCg : gmap string string;
  overrides : gmap string float;
  cachedPrices : gmap string float
}.

(** What a call leaves behind: the prices it resolved and the cache
    file it wrote, if it wrote one; or the exception of a failed
    request. *)
Inductive Outcome :=
  | Returned (prices : gmap string float) (written : option (gmap string float))
  | Thrown.

(** "1) apply overrides first". *)
Definition apply_overrides (t : Tables) (assetIds : list string)
  : gmap string float :=
  foldl (λ prices a,
           match overrides t !! a with
           | Some v => <[a := v]> prices
           | None => prices
           end)
        ∅ assetIds.

(** [PRICE_SOURCE === "cache"]. *)
Definition apply_cache (t : Tables) (assetIds : list string)
    (prices : gmap string float) : gmap string float :=
  foldl (λ prices a,
           if has prices a then prices
           else match cachedPrices t !! a with
                | Some v => <[a := v]> prices
                | None => prices
                end)
        prices assetIds.

(** The state of the loop that maps assets to identifiers of the price
    service. *)
Record Mapping := mkMapping {
  ids : list string;
  cgToAsset : gmap string (list string);
  prices : gmap string float
}.

Definition map_step (t : Tables) (st : Mapping) (a : string) : Mapping :=
  if has (prices st) a then st
  else match truthy (assetToCg t !! a) with
       | Some cg =>
           {| ids := ids st ++ [cg];
              cgToAsset := <[cg := default [] (cgToAsset st !! cg) ++ [a]]>
                             (cgToAsset st);
              prices := prices st |}
       | None =>
           match cachedPrices t !! a with
           | Some v => {| ids := ids st; cgToAsset := cgToAsset st;
                          prices := <[a := v]> (prices st) |}
           | None => st
           end
       end.

Definition map_assets (t : Tables) (assetIds : list string)
    (prices : gmap string float) : Mapping :=
  foldl (map_step t) (mkMapping [] ∅ prices) assetIds.

(** One answer of the price service: its keys in order, each with its
    [usd] field when it has one. *)
Definition Response := list (string * option float).

(** [for (const cgId of Object.keys(json)) ...]. *)
Definition apply_response (cgToAsset : gmap string (list string))
    (prices : gmap string float) (json : Response) : gmap string float :=
  foldl (λ prices '(cgId, usd),
           match usd with
           | None => prices
           | Some usd =>
               foldl (λ prices a, <[a := usd]> prices) prices
                     (default [] (cgToAsset !! cgId))
           end)
        prices json.

(** The loop over the chunks; a failed request ends the call. *)
Fixpoint fetch_all (httpGetJson : list string → option Response)
    (cgToAsset : gmap string (list string)) (prices : gmap string float)
    (chunks : list (list string)) : option (gmap string float) :=
  match chunks with
  | [] => Some prices
  | chunk :: rest =>
      match httpGetJson chunk with
      | None => None
      | Some json =>
          fetch_all httpGetJson cgToAsset
                    (apply_response cgToAsset prices json) rest
      end
  end.

(** "update cache": the old entries, then every finite price on top. *)
Definition update_cache (cachedPrices prices : gmap string float)
  : gmap string float :=
  map_fold (λ k v newCache,
              if Js.Number_isFinite v then <[k := v]> newCache else newCache)
           cachedPrices prices.

(** [loadPricesUsd(assetIds)]. *)
Definition loadPricesUsd (mode : PriceSourceMode) (t : Tables)
    (httpGetJson : list string → option Response)
    (assetIds : list string) : Outcome :=
  let prices := apply_overrides t assetIds in
  match mode with
  | offline => Returned prices None
  | cache => Returned (apply_cache t assetIds prices) None
  | coingecko =>
      let st := map_assets t assetIds prices in
      let uniqIds := uniq (ids st) in
      match uniqIds with
      | [] => Returned (AnalyzeInventory.prices st) None
      | _ =>
          match fetch_all httpGetJson (cgToAsset st)
                          (AnalyzeInventory.prices st) (chunks 150 uniqIds) with
          | None => Thrown
          | Some prices =>
              Returned prices (Some (update_cache (cachedPrices t) prices))
          end
      end
  end.

(** [percentile(arr, p)], which sorts a copy of its argument first. *)
Definition percentile (arr : list float) (p : float) : option float :=
  if (List.length arr =? 0)%nat then Some 0%float
  else
    let a := Js.sort_num arr in
    let idx := ((Js.length a - 1) * p)%float in
    let lo := Js.Math_floor idx in
    let hi := Js.Math_ceil idx in
    if Js.strict_eq lo hi then Js.get a lo
    else
      let w := (idx - lo)%float in
      Some (Js.to_number (Js.get a lo) * (1 - w)
            + Js.to_number (Js.get a hi) * w)%float.

(** The per-asset aggregate the inventory loop builds. *)
Record AssetAgg := mkAssetAgg {
  rowCount : nat;
  sumAvail : float;
  sumTotal : float;
  totals : list float
}.

Inductive Method := m_override | m_coingecko | m_cache | m_unknown.

(** One line of [asset_coverage.csv] (the pricing columns and the
    percentiles). *)
Record Coverage := mkCoverage {
  hasPrice : bool;
  priceUsd : option float;
  priceUsdMethod : Method;
  usdTotalKnownPrices : option float;
  unknownPriceRows : nat;
  medianTotal : option float;
  p90Total : option float
}.

(** The body of "Compute per-asset stats". *)
Definition asset_stats (t : Tables) (prices : gmap string float)
    (assetId : string) (A : AssetAgg) : Coverage :=
  let price := prices !! assetId in
  let hasPrice := match price with
                  | Some p => Js.Number_isFinite p
                  | None => false
                  end in
  let usdTotal := if hasPrice then (sumTotal A * Js.to_number price)%float
                  else 0%float in
  let method := if has (overrides t) assetId then m_override
                else match truthy (assetToCg t !! assetId) with
                     | Some _ => m_coingecko
                     | None => if has (cachedPrices t) assetId then m_cache
                               else m_unknown
                     end in
  {| hasPrice := hasPrice;
     priceUsd := if hasPrice then price else None;
     priceUsdMethod := method;
     usdTotalKnownPrices := if hasPrice then Some usdTotal else None;
     unknownPriceRows := if hasPrice then 0%nat else rowCount A;
     medianTotal := percentile (totals A) 0.5%float;
     p90Total := percentile (totals A) 0.9%float |}.

End AnalyzeInventory.

(** ** [tools/fb_update_prices.js] *)

Module UpdatePrices.

(** The tables are read and written by their own properties, which is
    what the script does for every key but the names of [Js.inherited]:
    under such a name [prices[a] != null] holds without a price, and an
    assignment to [__proto__] makes no property.  These names are set
    apart where a property depends on them. *)

(** An entry of [asset_price_basis.json]. *)
Record BasisEntry := mkBasisEntry {
  b_method : string;
  b_priceUsd : float
}.

Record Tables := mkTables {
  assetToCg : gmap string string;
  overrides : gmap string float;
  basis : gmap string BasisEntry
}.

Inductive Method :=
  | override_usd | basis_symbol | coingecko_simple_price | unknown.

Record Resolved := mkResolved {
  prices : gmap string float;
  method : gmap string Method
}.

Definition set_price (a : string) (p : float) (m : Method) (st : Resolved)
  : Resolved :=
  {| prices := <[a := p]> (prices st); method := <[a := m]> (method st) |}.

(** [Number.isFinite(n) && n > 0]. *)
Definition valid_price (n : float) : bool :=
  Js.Number_isFinite n && PrimFloat.ltb 0 n.

(** "1) Overrides (highest priority)": every entry of the table, kept
    only when it is a positive finite number. *)
Definition apply_overrides (t : Tables) : Resolved :=
  map_fold (λ k v st, if valid_price v then set_price k v override_usd st else st)
           (mkResolved ∅ ∅) (overrides t).

(** "2) Basis". *)
Definition apply_basis (t : Tables) (assets : list string) (st : Resolved)
  : Resolved :=
  foldl (λ st a,
           if has (prices st) a then st
           else match basis t !! a with
                | Some b =>
                    if String.eqb (b_method b) "basis_symbol"
                       && Js.Number_isFinite (b_priceUsd b)
                    then set_price a (b_priceUsd b) basis_symbol st
                    else st
                | None => st
                end)
        st assets.

Definition is_truthy (x : option string) : bool :=
  match truthy x with
  | Some _ => true
  | None => false
  end.

Definition needCg (t : Tables) (assets : list string) (st : Resolved)
  : list string :=
  List.filter (λ a, negb (has (prices st) a) && is_truthy (assetToCg t !! a))
              assets.

Definition Response := list (string * option float).

(** The body of the loop over the entries of one answer. *)
Definition apply_response (t : Tables) (needCg : list string)
    (st : Resolved) (json : Response) : Resolved :=
  foldl (λ st '(cgId, usd),
           let p := Js.to_number usd in
           if negb (Js.Number_isFinite p) || PrimFloat.leb p 0 then st
           else
             foldl (λ st a,
                      if bool_decide (assetToCg t !! a = Some cgId)
                         && negb (has (prices st) a)
                      then set_price a p coingecko_simple_price st
                      else st)
                   st needCg)
        st json.

Fixpoint fetch_all (t : Tables) (httpGetJson : list string → option Response)
    (needCg : list string) (st : Resolved) (chunks : list (list string))
  : option Resolved :=
  match chunks with
  | [] => Some st
  | chunk :: rest =>
      match httpGetJson chunk with
      | None => None
      | Some json =>
          fetch_all t httpGetJson needCg (apply_response t needCg st json) rest
      end
  end.

(** "4) Remaining unmapped/unpriced". *)
Definition mark_unknown (assets : list string) (st : Resolved) : Resolved :=
  foldl (λ st a,
           if has (prices st) a then st
           else {| prices := prices st; method := <[a := unknown]> (method st) |})
        st assets.

Inductive Outcome :=
  | Returned (r : Resolved) (pricesFile : gmap string float)
  | Thrown.

(** The whole script: the resolved prices, and the file
    [execute/last_prices_usd.json] it writes. *)
Definition run (t : Tables) (httpGetJson : list string → option Response)
    (assets : list string) : Outcome :=
  let st := apply_overrides t in
  let st := apply_basis t assets st in
  let need := needCg t assets st in
  let cgIds := uniq (omap (λ a, truthy (assetToCg t !! a)) need) in
  match fetch_all t httpGetJson need st (chunks 200 cgIds) with
  | None => Thrown
  | Some st =>
      let st := mark_unknown assets st in
      Returned st (prices st)
  end.

End UpdatePrices.

(** ** [re_eval.js] *)

Module ReEval.

(** What [execute/last_prices_usd.json] can hold: the flat object of
    prices by asset that the analysis scripts read and write, or the
    snapshot this script writes. *)
Inductive CacheFile :=
  | FlatPrices (byAsset : gmap string float)
  | Snapshot (asOf source : string) (prices : gmap string float).

(** [cached[a]] as the analysis scripts read it, a top-level property
    of the file that is a number.  The top-level properties of a
    snapshot are two strings and an object. *)
Definition cache_entry (f : CacheFile) (a : string) : option float :=
  match f with
  | FlatPrices byAsset => byAsset !! a
  | Snapshot _ _ _ => None
  end.

Definition Response := list (string * option float).

(** [typeof obj.usd === "number" ? obj.usd : null], then
    [if (p !== null) prices[id] = p]. *)
Definition apply_response (prices : gmap string float) (json : Response)
  : gmap string float :=
  foldl (λ prices '(id, usd),
           match usd with
           | Some p => <[id := p]> prices
           | None => prices
           end)
        prices json.

Fixpoint fetch_all (httpGetJson : list string → option Response)
    (prices : gmap string float) (chunks : list (list string))
  : option (gmap string float) :=
  match chunks with
  | [] => Some prices
  | chunk :: rest =>
      match httpGetJson chunk with
      | None => None
      | Some json => fetch_all httpGetJson (apply_response prices json) rest
      end
  end.

Inductive Outcome :=
  | Returned (prices : gmap string float) (cacheFile : option CacheFile)
  | Thrown.

(** [fetchPricesUsd(assetToCg)]; [assetToCg] is given by its entries in
    order, [nowIso] is the clock, and [cacheFile] the file before the
    call. *)
Definition fetchPricesUsd (assetToCg : list (string * string))
    (httpGetJson : list string → option Response) (nowIso : string)
    (cacheFile : option CacheFile) : Outcome :=
  let cgIds := uniq (omap (λ kv, truthy (Some kv.2)) assetToCg) in
  match cgIds with
  | [] => Returned ∅ cacheFile
  | _ =>
      match fetch_all httpGetJson ∅ (chunks 250 cgIds) with
      | None => Thrown
      | Some prices =>
          Returned prices
                   (Some (Snapshot nowIso "coingecko/simple/price" prices))
      end
  end.

End ReEval.

(** ** Vocabulary of the properties *)

(** A row that needs gas its source does not hold yet. *)
Definition gas_blocked (r : PlanRow) : bool :=
  requiresGas r && negb (gasReady r).


(** The plan row behind a classified row. *)
Definition row_of (x : AnalysisV2.ClassifiedRow) : PlanRow :=
  AnalysisV2.c_row (AnalysisV2.cand x).

(** The prices a run of [fireblocks_analysis_v2.js] classifies with. *)
Definition run_prices (env : AnalysisV2.Env) (completed : gset string)
    (plan : list PlanRow) (cacheFile : option (gmap string float))
    (fetchJson : list string → option (gmap string float))
  : gmap string float :=
  AnalysisV2.prices
    (AnalysisV2.getPrices env cacheFile fetchJson
       (AnalysisV2.collect completed plan).2).1.

(** ** Sample runs *)

Module Examples.

Definition env : AnalysisV2.Env :=
  AnalysisV2.mkEnv false 0.01%float 0.25%float ∅ ∅.

Definition env_offline : AnalysisV2.Env :=
  AnalysisV2.mkEnv true 0.01%float 0.25%float ∅ ∅.

(** A non-stable asset with a minimum amount of its own. *)
Definition env_min : AnalysisV2.Env :=
  AnalysisV2.mkEnv true 0.01%float 0.25%float {[ "DOGE" := 5%float ]} ∅.

Definition usdc_row : PlanRow :=
  mkPlanRow "V1" "USDC" 50%float "V2" false "" false.

Definition usdc_gas_row : PlanRow :=
  mkPlanRow "V1" "USDC" 50%float "V2" true "ETH" false.

Definition usdc_lower_row : PlanRow :=
  mkPlanRow "V7" "usdc_polygon" 3%float "V2" false "" false.

Definition btc_row : PlanRow :=
  mkPlanRow "V3" "BTC" 0.001%float "V2" false "" false.

Definition eth_done_row : PlanRow :=
  mkPlanRow "V1" "ETH" 2%float "V2" true "ETH" true.

Definition xyz_row : PlanRow :=
  mkPlanRow "V4" "XYZ" 7%float "V2" false "" false.

Definition doge_row : PlanRow :=
  mkPlanRow "V5" "DOGE" 1%float "V2" false "" false.

Definition abc_gas_row : PlanRow :=
  mkPlanRow "V6" "ABC" 1%float "V2" true "ETH" false.

Definition plan : list PlanRow :=
  [usdc_row; usdc_gas_row; eth_done_row; btc_row; xyz_row; doge_row;
   usdc_lower_row; abc_gas_row].

Definition completed : gset string := {[ "V1|ETH|V2" ]}.

Definition cache : gmap string float := {[ "BTC" := 10%float ]}.

(** No request succeeds. *)
Definition no_network : list string → option (gmap string float) :=
  λ _, None.

Definition out : AnalysisV2.Output :=
  AnalysisV2.main env_min completed plan (Some cache) no_network.

(** The same plan, offline and without any price cache. *)
Definition out_offline : AnalysisV2.Output :=
  AnalysisV2.main env_offline completed plan None no_network.

(** The classified row at position [i] of a run. *)
Definition nth_row (o : AnalysisV2.Output) (i : nat) : AnalysisV2.ClassifiedRow :=
  nth i (AnalysisV2.remaining o)
      (AnalysisV2.classify env_offline (AnalysisV2.mkPrices ∅ ∅)
         (AnalysisV2.mkCandidate "" usdc_row)).

(** A run of the receivership report: a stable row worth $0.10 that
    still waits for gas. *)
Definition gas_policy : ReceivershipReport.GasPolicy :=
  ReceivershipReport.mkGasPolicy {[ "ETH" := 0.001%float ]} 0.01%float 0.25%float.

Definition snapshot_prices : gmap string float :=
  {[ "USDC" := 1%float; "ETH" := 3000%float; "BTC" := 10%float ]}.

Definition dust_gas_row : PlanRow :=
  mkPlanRow "V1" "USDC" 0.1%float "V2" true "ETH" false.

Definition big_gas_row : PlanRow :=
  mkPlanRow "V8" "USDC" 500%float "V2" true "ETH" false.

Definition report_plan : list PlanRow :=
  [dust_gas_row; eth_done_row; big_gas_row].

Definition report : list ReceivershipReport.PerRow :=
  ReceivershipReport.perRow gas_policy snapshot_prices completed report_plan.

Definition nth_report (i : nat) : ReceivershipReport.PerRow :=
  nth i report
      (ReceivershipReport.classify gas_policy ∅
         (ReceivershipReport.mkRemaining "" usdc_row)).

(** A run of the inventory analysis: ETH has a manual override and a
    mapping to the price service, BTC only the mapping, SOL only a cached
    price; the cache also remembers an asset that is not in the
    inventory any more. *)
Definition inv_tables : AnalyzeInventory.Tables :=
  AnalyzeInventory.mkTables
    {[ "ETH" := "ethereum"; "BTC" := "bitcoin" ]}
    {[ "ETH" := 3200%float ]}
    {[ "SOL" := 150%float; "OLD" := 2%float ]}.

Definition inv_assets : list string := ["ETH"; "BTC"; "SOL"].

Definition price_service : list string → option AnalyzeInventory.Response :=
  λ _, Some [("ethereum", Some 3000%float); ("bitcoin", Some 60000%float)].

Definition inv_prices : gmap string float :=
  {[ "ETH" := 3200%float; "BTC" := 60000%float; "SOL" := 150%float ]}.

Definition inv_cache_after : gmap string float :=
  {[ "ETH" := 3200%float; "BTC" := 60000%float; "SOL" := 150%float;
     "OLD" := 2%float ]}.

(** Overrides of zero and below. *)
Definition bad_overrides : gmap string float :=
  {[ "ETH" := 0%float; "DOGE" := (-2)%float ]}.

Definition bad_tables : AnalyzeInventory.Tables :=
  AnalyzeInventory.mkTables ∅ bad_overrides ∅.

Definition bad_assets : list string := ["ETH"; "DOGE"].

Definition holdings : AnalyzeInventory.AssetAgg :=
  AnalyzeInventory.mkAssetAgg 2 10%float 10%float [4%float; 6%float].

(** The coverage lines of the two assets, each held as 10 units. *)
Definition eth_coverage : AnalyzeInventory.Coverage :=
  AnalyzeInventory.asset_stats bad_tables bad_overrides "ETH" holdings.

Definition doge_coverage : AnalyzeInventory.Coverage :=
  AnalyzeInventory.asset_stats bad_tables bad_overrides "DOGE" holdings.

Definition bad_update_tables : UpdatePrices.Tables :=
  UpdatePrices.mkTables ∅ bad_overrides ∅.

(** The analysis online: BTC is mapped and the service answers. *)
Definition env_online : AnalysisV2.Env :=
  AnalysisV2.mkEnv false 0.01%float 0.25%float ∅ {[ "BTC" := "bitcoin" ]}.

Definition old_cache : gmap string float := {[ "OLD" := 2%float ]}.

Definition bitcoin_service : list string → option (gmap string float) :=
  λ _, Some {[ "bitcoin" := 60000%float ]}.

(** A run of [re_eval.js] over a cache that holds a price for BTC. *)
Definition flat_cache : ReEval.CacheFile :=
  ReEval.FlatPrices {[ "BTC" := 50000%float ]}.

Definition eth_mapping : list (string * string) := [("ETH", "ethereum")].

Definition eth_service : list string → option ReEval.Response :=
  λ _, Some [("ethereum", Some 3000%float)].

Definition now : string := "2024-01-01T00:00:00.000Z".

End Examples.

(** * More of the scripts *)

(** ** CSV lines: the quote-aware parser and the escaping writer

    [csvParseLine] of the receivership report, [parseCsvLine] of
    [tools/fb_execute_move_plan.js] and [splitCsvLine] of
    [tools/build_plan_from_csv_to_vault.js] are the same loop; [esc] is
    the escaping of the [writeCsv] functions. *)

Module Csv.

Definition dquote : ascii := ascii_of_nat 34.
Definition comma : ascii := ascii_of_nat 44.
Definition newline : ascii := ascii_of_nat 10.

(** Whether [line[i+1]] is a double quote, seen from the rest of the
    line after [i]. *)
Definition next_is_quote (rest : string) : bool :=
  match rest with
  | String c _ => Ascii.eqb c dquote
  | EmptyString => false
  end.

(** The loop over the characters.  [skip] is set when the body has
    advanced [i] past the second quote of a pair. *)
Fixpoint parse_from (line : string) (out : list string) (cur : string)
    (inQ skip : bool) : list string :=
  match line with
  | EmptyString => out ++ [cur]
  | String ch rest =>
      if skip then parse_from rest out cur inQ false
      else if Ascii.eqb ch dquote then
        if inQ && next_is_quote rest
        then parse_from rest out (cur +:+ String dquote EmptyString) inQ true
        else parse_from rest out cur (negb inQ) false
      else if Ascii.eqb ch comma && negb inQ
      then parse_from rest (out ++ [cur]) EmptyString inQ false
      else parse_from rest out (cur +:+ String ch EmptyString) inQ false
  end.

Definition csvParseLine (line : string) : list string :=
  parse_from line [] EmptyString false false.

(** The test of [esc]: the string holds a double quote, a comma or a
    line feed. *)
Fixpoint needs_quotes (s : string) : bool :=
  match s with
  | EmptyString => false
  | String c s' =>
      Ascii.eqb c dquote || Ascii.eqb c comma || Ascii.eqb c newline
      || needs_quotes s'
  end.

(** The [replace] of [esc]: every double quote is written twice. *)
Fixpoint double_quotes (s : string) : string :=
  match s with
  | EmptyString => EmptyString
  | String c s' =>
      if Ascii.eqb c dquote
      then String dquote (String dquote (double_quotes s'))
      else String c (double_quotes s')
  end.

(** [esc(v)] on a string. *)
Definition esc (s : string) : string :=
  if needs_quotes s
  then String dquote (double_quotes s +:+ String dquote EmptyString)
  else s.

(** [fields.join(",")]. *)
Fixpoint join (fields : list string) : string :=
  match fields with
  | [] => EmptyString
  | [f] => f
  | f :: rest => f +:+ String comma (join rest)
  end.

(** One line of [writeCsv]. *)
Definition write_line (fields : list string) : string :=
  join (List.map esc fields).


End Csv.

(** ** Completed ledgers: reading and appending *)

Module Ledger.

Definition LF : ascii := ascii_of_nat 10.
Definition CR : ascii := ascii_of_nat 13.

(** The white space [trim] removes.  Of one byte: tab, line feed,
    vertical tab, form feed, carriage return and space. *)
Definition is_space (c : ascii) : bool :=
  let n := nat_of_ascii c in
  (((9 <=? n) && (n <=? 13)) || (n =? 32))%nat.

(** Of two bytes: the no-break space U+00A0. *)
Definition is_space2 (c1 c2 : ascii) : bool :=
  ((nat_of_ascii c1 =? 194) && (nat_of_ascii c2 =? 160))%nat.

(** Of three bytes: U+1680, U+2000 to U+200A, the line and paragraph
    separators U+2028 and U+2029, U+202F, U+205F, U+3000 and the byte
    order mark U+FEFF. *)
Definition is_space3 (c1 c2 c3 : ascii) : bool :=
  let n1 := nat_of_ascii c1 in
  let n2 := nat_of_ascii c2 in
  let n3 := nat_of_ascii c3 in
  ((n1 =? 225) && (n2 =? 154) && (n3 =? 128)
   || (n1 =? 226) && (n2 =? 128)
      && ((128 <=? n3) && (n3 <=? 138) || (n3 =? 168) || (n3 =? 169)
          || (n3 =? 175))
   || (n1 =? 226) && (n2 =? 129) && (n3 =? 159)
   || (n1 =? 227) && (n2 =? 128) && (n3 =? 128)
   || (n1 =? 239) && (n2 =? 187) && (n3 =? 191))%nat.

(** Whether a string is one white space character. *)
Definition white (s : string) : bool :=
  match s with
  | String c1 EmptyString => is_space c1
  | String c1 (String c2 EmptyString) => is_space2 c1 c2
  | String c1 (String c2 (String c3 EmptyString)) => is_space3 c1 c2 c3
  | _ => false
  end.

Fixpoint trim_start (s : string) : string :=
  match s with
  | EmptyString => EmptyString
  | String c1 s1 =>
      if is_space c1 then trim_start s1
      else
        match s1 with
        | EmptyString => s
        | String c2 s2 =>
            if is_space2 c1 c2 then trim_start s2
            else
              match s2 with
              | EmptyString => s
              | String c3 s3 =>
                  if is_space3 c1 c2 c3 then trim_start s3 else s
              end
        end
  end.

(** From the right: what is kept of the rest, with one more character
    in front, is dropped when it is a white space character. *)
Fixpoint trim_end (s : string) : string :=
  match s with
  | EmptyString => EmptyString
  | String c s' =>
      let t := String c (trim_end s') in
      if white t then EmptyString else t
  end.

(** [s.trim()]. *)
Definition trim (s : string) : string := trim_end (trim_start s).

(** [s.split(/\r?\n/)], read from the left: [cur] is the piece being
    read and [pending] tells that a carriage return has been seen and
    not yet kept, since a line feed may follow and take it along. *)
Fixpoint split_from (s cur : string) (pending : bool) : list string :=
  match s with
  | EmptyString => [if pending then cur +:+ String CR EmptyString else cur]
  | String c s' =>
      if Ascii.eqb c LF then cur :: split_from s' EmptyString false
      else
        let cur := if pending then cur +:+ String CR EmptyString else cur in
        if Ascii.eqb c CR then split_from s' cur true
        else split_from s' (cur +:+ String c EmptyString) false
  end.

Definition split_lines (s : string) : list string :=
  split_from s EmptyString false.

(** [Boolean(s)] on a string. *)
Definition nonempty (s : string) : bool :=
  match s with
  | EmptyString => false
  | String _ _ => true
  end.



(** [s.endsWith(p)]. *)
Fixpoint endsWith (s p : string) : bool :=
  String.eqb s p ||
  match s with
  | EmptyString => false
  | String _ s' => endsWith s' p
  end.









(** The ledger of [tools/fb_execute_move_plan.js], one file:
    [if (l.trim()) completed.add(l.trim())] for each line, and nothing
    when the file does not exist. *)
Definition load_ledger (file : option string) : gset string :=
  match file with
  | None => ∅
  | Some content =>
      foldl (λ set l, if nonempty (trim l) then {[ trim l ]} ∪ set else set)
            ∅ (split_lines content)
  end.

(** [fs.appendFileSync(COMPLETED, rid + "\n")]. *)
Definition append_rid (file : option string) (rid : string) : option string :=
  Some (default EmptyString file +:+ rid +:+ String LF EmptyString).

(** Whether a string holds a line feed or a carriage return. *)
Fixpoint has_break (s : string) : bool :=
  match s with
  | EmptyString => false
  | String c s' => Ascii.eqb c LF || Ascii.eqb c CR || has_break s'
  end.

(** Whether a file is absent, empty, or ends with a line feed. *)
Definition line_closed (file : option string) : bool :=
  match file with
  | None => true
  | Some content =>
      match content with
      | EmptyString => true
      | _ => endsWith content (String LF EmptyString)
      end
  end.

End Ledger.

(** ** Vocabulary for the price passes *)

(** What the requests may change: a price that is there stays, with its
    source; a missing price stays missing or becomes a positive finite
    price from the price service, for an asset among the pairs. *)
Definition price_extension (pairs : list (string * string))
    (st st' : AnalysisV2.Prices) : Prop :=
  ∀ a,
    match AnalysisV2.prices st !! a with
    | Some v =>
        AnalysisV2.prices st' !! a = Some v
        ∧ AnalysisV2.sources st' !! a = AnalysisV2.sources st !! a
    | None =>
        (AnalysisV2.prices st' !! a = None
         ∧ AnalysisV2.sources st' !! a = AnalysisV2.sources st !! a)
        ∨ (∃ v cg,
             AnalysisV2.prices st' !! a = Some v
             ∧ AnalysisV2.sources st' !! a = Some AnalysisV2.coingecko
             ∧ PrimFloat.ltb 0 v = true
             ∧ Js.Number_isFinite v = true
             ∧ Js.inherited a = false
             ∧ (a, cg) ∈ pairs)
    end.

(** The price the stable rule and the cache give an asset, before any
    request. *)
Definition base_price (cache : gmap string float) (assets : list string)
    (a : string) : option float :=
  if bool_decide (a ∈ assets) && AnalysisV2.isStable a then Some 1%float
  else if bool_decide (a ∈ assets) && negb (Js.inherited a)
          && PrimFloat.ltb 0 (Js.num (cache !! a))
       then Some (Js.num (cache !! a))
       else None.


(** ** The tallies by reason of [fireblocks_analysis_v2.js] *)

Module V2Totals.

(** The three objects keyed by the four reasons. *)
Record Tally := mkTally {
  totalsByReason : AnalysisV2.Reason → float;
  rowsByReason : AnalysisV2.Reason → nat;
  walletsByReason : AnalysisV2.Reason → gset string
}.

(** [obj[k] = v]. *)
Definition upd {A} (obj : AnalysisV2.Reason → A) (k : AnalysisV2.Reason) (v : A)
  : AnalysisV2.Reason → A :=
  λ k', if decide (k' = k) then v else obj k'.

Definition start : Tally :=
  mkTally (λ _, 0%float) (λ _, 0%nat) (λ _, ∅).

(** The end of the body of the classification loop, after the row was
    pushed. *)
Definition tally_step (t : Tally) (x : AnalysisV2.ClassifiedRow) : Tally :=
  let k := AnalysisV2.reason x in
  {| totalsByReason :=
       match AnalysisV2.estUSD x with
       | Some e => upd (totalsByReason t) k (totalsByReason t k + e)%float
       | None => totalsByReason t
       end;
     rowsByReason := upd (rowsByReason t) k (S (rowsByReason t k));
     walletsByReason :=
       upd (walletsByReason t) k
           ({[ sourceVaultId (row_of x) ]} ∪ walletsByReason t k) |}.

Definition tally (rows : list AnalysisV2.ClassifiedRow) : Tally :=
  foldl tally_step start rows.

End V2Totals.

(** The requests of [fb_update_prices.js]: the identifiers of the
    assets that neither an override nor the basis priced, without
    repetition, 200 a request. *)
Definition update_requests (t : UpdatePrices.Tables) (assets : list string)
  : list (list string) :=
  let st := UpdatePrices.apply_basis t assets (UpdatePrices.apply_overrides t) in
  chunks 200
    (uniq (omap (λ a, truthy (UpdatePrices.assetToCg t !! a))
                (UpdatePrices.needCg t assets st))).

(** The price [v] stands in an answer to one of the requests [reqs],
    under the identifier of the asset [a]. *)
Definition answered_price (t : UpdatePrices.Tables)
    (httpGetJson : list string → option UpdatePrices.Response)
    (reqs : list (list string)) (a : string) (v : float) : Prop :=
  ∃ chunk json cgId usd,
    chunk ∈ reqs
    ∧ httpGetJson chunk = Some json
    ∧ (cgId, usd) ∈ json
    ∧ UpdatePrices.assetToCg t !! a = Some cgId
    ∧ v = Js.to_number usd.

(** What the requests of [fb_update_prices.js] may change: an asset that
    has a price keeps it and its method; an asset without one either
    stays so, or is one of [need] and gets a positive finite price that
    an answer carries for it, with the method [coingecko_simple_price]. *)
Definition resolved_extension (t : UpdatePrices.Tables)
    (httpGetJson : list string → option UpdatePrices.Response)
    (reqs : list (list string)) (need : list string)
    (st st' : UpdatePrices.Resolved) : Prop :=
  ∀ a,
    match UpdatePrices.prices st !! a with
    | Some v =>
        UpdatePrices.prices st' !! a = Some v
        ∧ UpdatePrices.method st' !! a = UpdatePrices.method st !! a
    | None =>
        (UpdatePrices.prices st' !! a = None
         ∧ UpdatePrices.method st' !! a = UpdatePrices.method st !! a)
        ∨ (a ∈ need
           ∧ ∃ v, UpdatePrices.prices st' !! a = Some v
                  ∧ UpdatePrices.valid_price v = true
                  ∧ answered_price t httpGetJson reqs a v
                  ∧ UpdatePrices.method st' !! a
                    = Some UpdatePrices.coingecko_simple_price)
    end.

(** Whether [b] is a usable entry of [asset_price_basis.json]. *)
Definition basis_applies (b : option UpdatePrices.BasisEntry) : bool :=
  match b with
  | Some b =>
      String.eqb (UpdatePrices.b_method b) "basis_symbol"
      && Js.Number_isFinite (UpdatePrices.b_priceUsd b)
  | None => false
  end.

(** ** [tools/fb_execute_move_plan.js]: the batch loop *)

Module MoveExecutor.

(** [idx[c]] for [idx = Object.fromEntries(hdr.map((h,i)=>[h,i]))]: the
    last position of [c] in the header, [undefined] when it is absent. *)
Fixpoint idx_from (hdr : list string) (i : nat) (c : string) (found : option nat)
  : option nat :=
  match hdr with
  | [] => found
  | h :: rest => idx_from rest (S i) c (if String.eqb h c then Some i else found)
  end.

Definition idx (hdr : list string) (c : string) : option nat :=
  idx_from hdr 0 c None.

(** The four cells the loop reads from a line; a cell the line lacks is
    [undefined]. *)
Record Row := mkRow {
  vaultId : option string;
  assetId : option string;
  amount : option string;
  dest : option string
}.

(** A value inside a template literal, and [String(v)]. *)
Definition str (v : option string) : string := default "undefined" v.

(** [rowIdOf(vaultId, assetId, dest)]. *)
Definition rowIdOf (vaultId assetId dest : option string) : string :=
  rowId (str vaultId) (str assetId) (str dest).

Definition rid_of (row : Row) : string :=
  rowIdOf (vaultId row) (assetId row) (dest row).

(** The body of the transfer request. *)
Record Body := mkBody {
  b_assetId : option string;
  b_source : option string;
  b_destination : option string;
  b_amount : string;
  b_note : string;
  externalTxId : string
}.

Definition body_of (row : Row) : Body :=
  let rid := rid_of row in
  {| b_assetId := assetId row;
     b_source := vaultId row;
     b_destination := dest row;
     b_amount := str (amount row);
     b_note := "consolidation " +:+ rid;
     externalTxId := rid |}.

(** The lines written to the journal. *)
Inductive Event :=
  | DRYRUN (rid : string)
  | SUBMIT_OK (rid txId : string)
  | SUBMIT_FAIL (rid : string).

(** The variables of the loop, the ledger file, and the requests sent. *)
Record State := mkState {
  completed : gset string;
  ledger : option string;
  journal : list Event;
  posted : list Body;
  attempted : nat;
  ok : nat;
  fail : nat;
  skippedDone : nat
}.

(** One row that is not skipped: the body of the loop from [attempted++]
    to the end of the [if (!EXECUTE)].  [fbRequest] stands for the call of
    the API: given how many requests the run has made before and the body,
    it answers the transaction identifier the script logs, or throws. *)
Definition attempt (EXECUTE : bool) (fbRequest : nat → Body → option string)
    (st : State) (row : Row) : State :=
  let rid := rid_of row in
  if EXECUTE then
    match fbRequest (length (posted st)) (body_of row) with
    | Some txId =>
        {| completed := {[ rid ]} ∪ completed st;
           ledger := Ledger.append_rid (ledger st) rid;
           journal := journal st ++ [SUBMIT_OK rid txId];
           posted := posted st ++ [body_of row];
           attempted := S (attempted st);
           ok := S (ok st);
           fail := fail st;
           skippedDone := skippedDone st |}
    | None =>
        {| completed := completed st;
           ledger := ledger st;
           journal := journal st ++ [SUBMIT_FAIL rid];
           posted := posted st ++ [body_of row];
           attempted := S (attempted st);
           ok := ok st;
           fail := S (fail st);
           skippedDone := skippedDone st |}
    end
  else
    {| completed := completed st;
       ledger := ledger st;
       journal := journal st ++ [DRYRUN rid];
       posted := posted st;
       attempted := S (attempted st);
       ok := S (ok st);
       fail := fail st;
       skippedDone := skippedDone st |}.

(** [for (let i=1;i<lines.length;i++)], with its [continue] and its
    [break]. *)
Fixpoint loop (EXECUTE : bool) (BATCH : nat)
    (fbRequest : nat → Body → option string)
    (rows : list Row) (st : State) : State :=
  match rows with
  | [] => st
  | row :: rest =>
      if bool_decide (rid_of row ∈ completed st)
      then loop EXECUTE BATCH fbRequest rest
             {| completed := completed st; ledger := ledger st;
                journal := journal st; posted := posted st;
                attempted := attempted st; ok := ok st; fail := fail st;
                skippedDone := S (skippedDone st) |}
      else
        let st := attempt EXECUTE fbRequest st row in
        if (BATCH <=? attempted st)%nat then st
        else loop EXECUTE BATCH fbRequest rest st
  end.

(** The state before the loop: the ledger has been loaded. *)
Definition start (file : option string) : State :=
  {| completed := Ledger.load_ledger file; ledger := file; journal := [];
     posted := []; attempted := 0; ok := 0; fail := 0; skippedDone := 0 |}.

(** The rows of [move_plan.csv]: nothing when the file has no line (the
    parser is then called on [undefined]) or lacks one of the four
    columns, since the script throws. *)
Definition rows_of (plan : string) : option (list Row) :=
  match List.filter Ledger.nonempty (Ledger.split_lines plan) with
  | [] => None
  | header :: lines =>
      let hdr := Csv.csvParseLine header in
      match idx hdr "vaultId", idx hdr "assetId", idx hdr "amount",
            idx hdr "destinationVaultId" with
      | Some v, Some a, Some m, Some d =>
          Some (List.map (λ line,
                            let row := Csv.csvParseLine line in
                            mkRow (row !! v) (row !! a) (row !! m) (row !! d))
                         lines)
      | _, _, _, _ => None
      end
  end.

(** The script.  [BATCH] is the number of attempts at which the loop
    stops: the environment value is clamped between 1 and 200, and the
    test [attempted >= BATCH] first holds at the least whole number not
    below it. *)
Definition run (EXECUTE : bool) (BATCH : nat)
    (fbRequest : nat → Body → option string)
    (plan : string) (file : option string) : option State :=
  match rows_of plan with
  | Some rows => Some (loop EXECUTE BATCH fbRequest rows (start file))
  | None => None
  end.



End MoveExecutor.



(** ** [tools/fb_build_move_plan.js]: writing [move_plan.csv] *)

Module MovePlan.

(** The columns of [move_plan.csv]. *)
Definition header : list string :=
  [ "vaultId"; "vaultName"; "hiddenOnUI"; "assetId"; "amount"; "usdValue";
    "destinationVaultId"; "requiresGas"; "gasAssetId"; "gasReady";
    "estimatedFeeUsd"; "retainMinApplied"; "minTxAmountApplied";
    "singleAssetWallet" ].

(** A row to write, as the text [String(v)] of each of its properties.
    [cell r h] is [(v===null||v===undefined) ? "" : String(v)] for
    [v = r[h]]. *)
Definition cell (r : gmap string string) (h : string) : string :=
  default EmptyString (r !! h).

(** [out.join("\n")]. *)
Fixpoint join_lines (lines : list string) : string :=
  match lines with
  | [] => EmptyString
  | [l] => l
  | l :: rest => l +:+ String Ledger.LF (join_lines rest)
  end.

(** [writeCsv(file, rows, header)]: the text written. *)
Definition writeCsv (header : list string) (rows : list (gmap string string))
  : string :=
  join_lines (Csv.join header
              :: List.map (λ r, Csv.write_line (List.map (cell r) header)) rows).

End MovePlan.

(** ** More sample data *)

Module Samples.

(** A vault name with a comma and quotes in it. *)
Definition vault_name : string :=
  "Cold, " +:+ String Csv.dquote ("old" +:+ String Csv.dquote " wallet").

Definition fields : list string := ["94001"; vault_name; "ETH"; ""; "0.5"].


(** A ledger with one identifier, and a row to add. *)
Definition ledger_file : option string :=
  Some ("V1|ETH|V2" +:+ String Ledger.LF EmptyString).

Definition new_rid : string := "V3|BTC|V2".


(** Tables of the price updater: an override, a basis entry, and a
    mapping to the price service. *)
Definition upd_tables : UpdatePrices.Tables :=
  UpdatePrices.mkTables
    {[ "BTC" := "bitcoin"; "ETH" := "ethereum" ]}
    {[ "ETH" := 3200%float ]}
    {[ "USDC" := UpdatePrices.mkBasisEntry "basis_symbol" 1%float ]}.

Definition upd_assets : list string := ["BTC"; "ETH"; "USDC"; "XYZ"].

Definition upd_service : list string → option UpdatePrices.Response :=
  λ _, Some [("bitcoin", Some 60000%float); ("ethereum", Some 3000%float)].



(** Rows as the planner writes them. *)
Definition written_rows : list (gmap string string) :=
  [ {[ "vaultId" := "94001"; "vaultName" := vault_name; "assetId" := "ETH";
       "amount" := "0.5"; "destinationVaultId" := "94828";
       "requiresGas" := "false" ]};
    {[ "vaultId" := "94002"; "vaultName" := "Main"; "assetId" := "USDC";
       "amount" := "12"; "destinationVaultId" := "94828";
       "requiresGas" := "true"; "gasAssetId" := "ETH" ]} ].

End Samples.

(** * Properties *)

(** ** Facts about doubles *)

Lemma SFcompare_refl_not_Lt (f : spec_float) : SFcompare f f ≠ Some Lt.
Proof.
  destruct f as [s | s | | s m e]; simpl; try destruct s; try discriminate.
  - rewrite Z.compare_refl.
    change (PosDef.Pos.compare_cont Eq m m) with (Pos.compare_cont Eq m m).
    rewrite Pos.compare_cont_refl. discriminate.
  - rewrite Z.compare_refl.
    change (PosDef.Pos.compare_cont Eq m m) with (Pos.compare_cont Eq m m).
    rewrite Pos.compare_cont_refl. discriminate.
Qed.

(** [x < x] is false for every double, [NaN] included. *)
Lemma ltb_irrefl (x : float) : PrimFloat.ltb x x = false.
Proof.
  rewrite FloatAxioms.ltb_spec. unfold SFltb.
  pose proof (SFcompare_refl_not_Lt (Prim2SF x)) as H.
  destruct (SFcompare (Prim2SF x) (Prim2SF x)) as [[ | | ] | ]; congruence.
Qed.

(** ** The candidate loop of [fireblocks_analysis_v2.js] *)

Lemma v2_collect_acc completed plan cands assets :
  (foldl (AnalysisV2.collect_step completed) (cands, assets) plan).1
  = cands ++ ((λ r, AnalysisV2.mkCandidate (rowIdOf r) r)
              <$> filter (λ r, rowIdOf r ∉ completed) plan).
Proof.
  revert cands assets.
  induction plan as [ | r plan IH]; intros cands assets; simpl.
  - by rewrite app_nil_r.
  - rewrite filter_cons.
    destruct (decide (rowIdOf r ∉ completed)) as [Hr | Hr].
    + rewrite bool_decide_eq_false_2 by done.
      rewrite IH, fmap_cons, <- app_assoc. done.
    + rewrite bool_decide_eq_true_2 by (by apply dec_stable).
      by rewrite IH.
Qed.

Lemma v2_collect_candidates completed plan :
  (AnalysisV2.collect completed plan).1
  = (λ r, AnalysisV2.mkCandidate (rowIdOf r) r)
    <$> filter (λ r, rowIdOf r ∉ completed) plan.
Proof. unfold AnalysisV2.collect. by rewrite v2_collect_acc. Qed.

Lemma v2_candidate_inv completed plan c :
  c ∈ (AnalysisV2.collect completed plan).1 →
  AnalysisV2.rid c = rowIdOf (AnalysisV2.c_row c)
  ∧ AnalysisV2.c_row c ∈ plan
  ∧ AnalysisV2.rid c ∉ completed.
Proof.
  rewrite v2_collect_candidates. intros Hc.
  apply list_elem_of_fmap in Hc as (r & -> & Hr).
  apply list_elem_of_filter in Hr as [Hn Hr]. simpl. done.
Qed.

Lemma v2_remaining_inv env completed plan cacheFile fetchJson x :
  x ∈ AnalysisV2.remaining (AnalysisV2.main env completed plan cacheFile fetchJson) →
  ∃ c P,
    c ∈ (AnalysisV2.collect completed plan).1
    ∧ P = (AnalysisV2.getPrices env cacheFile fetchJson
             (AnalysisV2.collect completed plan).2).1
    ∧ x = AnalysisV2.classify env P c.
Proof.
  unfold AnalysisV2.main.
  destruct (AnalysisV2.collect completed plan) as [cands assets] eqn:Hc.
  destruct (AnalysisV2.getPrices env cacheFile fetchJson assets) as [P file] eqn:HP.
  simpl. intros Hx. apply list_elem_of_In, in_map_iff in Hx as (c & <- & Hin).
  exists c, P. split; [by apply list_elem_of_In | ].
  by rewrite HP.
Qed.

(** ** The classification of one candidate *)

Lemma v2_classify_reason env P c :
  AnalysisV2.reason (AnalysisV2.classify env P c)
  = let r := AnalysisV2.c_row c in
    if gas_blocked r then AnalysisV2.NEEDS_GAS
    else if AnalysisV2.below (amount r)
              (AnalysisV2.minAmountFor env (AnalysisV2.prices P) (assetId r)).1
         then AnalysisV2.BELOW_MIN
         else if AnalysisV2.priceKnown (AnalysisV2.prices P) r
              then AnalysisV2.READY_TO_EXECUTE
              else AnalysisV2.UNKNOWN_PRICE.
Proof.
  unfold AnalysisV2.classify, gas_blocked.
  destruct (AnalysisV2.minAmountFor env (AnalysisV2.prices P)
              (assetId (AnalysisV2.c_row c))) as [m b]; simpl.
  destruct (requiresGas _ && negb (gasReady _));
    destruct (AnalysisV2.below (amount (AnalysisV2.c_row c)) m);
    destruct (AnalysisV2.priceKnown (AnalysisV2.prices P) (AnalysisV2.c_row c));
    reflexivity.
Qed.

Lemma v2_classify_minAmt env P c :
  AnalysisV2.minAmt (AnalysisV2.classify env P c)
  = (AnalysisV2.minAmountFor env (AnalysisV2.prices P)
       (assetId (AnalysisV2.c_row c))).1.
Proof.
  unfold AnalysisV2.classify.
  by destruct (AnalysisV2.minAmountFor env (AnalysisV2.prices P)
                 (assetId (AnalysisV2.c_row c))).
Qed.

Lemma v2_classify_priceUSD env P c :
  AnalysisV2.priceUSD (AnalysisV2.classify env P c)
  = let r := AnalysisV2.c_row c in
    if AnalysisV2.priceKnown (AnalysisV2.prices P) r
    then Some (if AnalysisV2.isStable (assetId r) then 1%float
               else Js.to_number (AnalysisV2.prices P !! assetId r))
    else None.
Proof.
  unfold AnalysisV2.classify.
  by destruct (AnalysisV2.minAmountFor env (AnalysisV2.prices P)
                 (assetId (AnalysisV2.c_row c))).
Qed.

Lemma v2_classify_estUSD env P c :
  AnalysisV2.estUSD (AnalysisV2.classify env P c)
  = let r := AnalysisV2.c_row c in
    if AnalysisV2.priceKnown (AnalysisV2.prices P) r
    then Some (amount r * (if AnalysisV2.isStable (assetId r) then 1
                           else Js.to_number (AnalysisV2.prices P !! assetId r)))%float
    else None.
Proof.
  unfold AnalysisV2.classify.
  by destruct (AnalysisV2.minAmountFor env (AnalysisV2.prices P)
                 (assetId (AnalysisV2.c_row c))).
Qed.

Lemma v2_classify_cand env P c :
  AnalysisV2.cand (AnalysisV2.classify env P c) = c.
Proof.
  unfold AnalysisV2.classify.
  by destruct (AnalysisV2.minAmountFor env (AnalysisV2.prices P)
                 (assetId (AnalysisV2.c_row c))).
Qed.


(** [x == y] excludes [x < y]. *)
Lemma eqb_not_ltb (x y : float) :
  PrimFloat.eqb x y = true → PrimFloat.ltb x y = false.
Proof.
  rewrite FloatAxioms.eqb_spec, FloatAxioms.ltb_spec.
  unfold SFeqb, SFltb.
  destruct (SFcompare (Prim2SF x) (Prim2SF y)) as [[ | | ] | ]; congruence.
Qed.

(** ** Every remaining row of a run *)

Lemma v2_row_spec env completed plan cacheFile fetchJson x :
  x ∈ AnalysisV2.remaining (AnalysisV2.main env completed plan cacheFile fetchJson) →
  let r := row_of x in
  let prices := run_prices env completed plan cacheFile fetchJson in
  let known := AnalysisV2.priceKnown prices r in
  let unit := if AnalysisV2.isStable (assetId r) then 1%float
              else Js.to_number (prices !! assetId r) in
  AnalysisV2.minAmt x = (AnalysisV2.minAmountFor env prices (assetId r)).1
  ∧ AnalysisV2.priceUSD x = (if known then Some unit else None)
  ∧ AnalysisV2.estUSD x = (if known then Some (amount r * unit)%float else None)
  ∧ AnalysisV2.reason x
    = (if gas_blocked r then AnalysisV2.NEEDS_GAS
       else if AnalysisV2.below (amount r) (AnalysisV2.minAmt x)
            then AnalysisV2.BELOW_MIN
            else if known then AnalysisV2.READY_TO_EXECUTE
                 else AnalysisV2.UNKNOWN_PRICE).
Proof.
  intros Hx. apply v2_remaining_inv in Hx as (c & P & Hc & -> & ->).
  unfold row_of, run_prices. rewrite v2_classify_cand.
  rewrite v2_classify_minAmt, v2_classify_priceUSD, v2_classify_estUSD,
    v2_classify_reason.
  simpl. done.
Qed.

Lemma v2_row_not_completed env completed plan cacheFile fetchJson x :
  x ∈ AnalysisV2.remaining (AnalysisV2.main env completed plan cacheFile fetchJson) →
  AnalysisV2.rid (AnalysisV2.cand x) = rowIdOf (row_of x)
  ∧ row_of x ∈ plan
  ∧ rowIdOf (row_of x) ∉ completed.
Proof.
  intros Hx. apply v2_remaining_inv in Hx as (c & P & Hc & -> & ->).
  unfold row_of. rewrite v2_classify_cand.
  apply v2_candidate_inv in Hc as (Hrid & Hin & Hn).
  rewrite <- Hrid. done.
Qed.

(** ** Claims on the classifier of [fireblocks_analysis_v2.js] *)



(** C4. An unknown price never replaces another reason.  A gas-blocked
    row is NEEDS_GAS and, failing that, a row below its minimum amount is
    BELOW_MIN, whether or not the price is known; UNKNOWN_PRICE is the
    reason exactly when the price is unknown and the row is neither
    gas-blocked nor below its minimum, that is, when it would have been
    READY_TO_EXECUTE. *)
Theorem C4_unknown_price_keeps_other_reasons
    env completed plan cacheFile fetchJson x :
  x ∈ AnalysisV2.remaining (AnalysisV2.main env completed plan cacheFile fetchJson) →
  let r := row_of x in
  let known :=
    AnalysisV2.priceKnown (run_prices env completed plan cacheFile fetchJson) r in
  (gas_blocked r = true → AnalysisV2.reason x = AnalysisV2.NEEDS_GAS)
  ∧ (gas_blocked r = false →
     AnalysisV2.below (amount r) (AnalysisV2.minAmt x) = true →
     AnalysisV2.reason x = AnalysisV2.BELOW_MIN)
  ∧ (AnalysisV2.reason x = AnalysisV2.UNKNOWN_PRICE ↔
     known = false ∧ gas_blocked r = false
     ∧ AnalysisV2.below (amount r) (AnalysisV2.minAmt x) = false)
  ∧ (known = true → AnalysisV2.reason x ≠ AnalysisV2.UNKNOWN_PRICE).
Proof.
  intros Hx r known.
  destruct (v2_row_spec _ _ _ _ _ _ Hx) as (_ & _ & _ & Hr).
  fold r in Hr. fold known in Hr. rewrite Hr. clear Hr.
  destruct (gas_blocked r), (AnalysisV2.below (amount r) (AnalysisV2.minAmt x)),
    known; intuition congruence.
Qed.

Lemma C4_witness :
  let x := Examples.nth_row Examples.out 4 in
  let y := Examples.nth_row Examples.out 6 in
  (AnalysisV2.priceUSD x = None ∧ AnalysisV2.reason x = AnalysisV2.BELOW_MIN)
  ∧ (AnalysisV2.priceUSD y = None ∧ AnalysisV2.reason y = AnalysisV2.NEEDS_GAS).
Proof.
  split; (split; [vm_compute; reflexivity | ]).
  - apply (C4_unknown_price_keeps_other_reasons Examples.env_min
             Examples.completed Examples.plan (Some Examples.cache)
             Examples.no_network (Examples.nth_row Examples.out 4)).
    + apply list_elem_of_In. vm_compute. tauto.
    + vm_compute. reflexivity.
    + vm_compute. reflexivity.
  - apply (C4_unknown_price_keeps_other_reasons Examples.env_min
             Examples.completed Examples.plan (Some Examples.cache)
             Examples.no_network (Examples.nth_row Examples.out 6)).
    + apply list_elem_of_In. vm_compute. tauto.
    + vm_compute. reflexivity.
Defined.

(** C9. The BELOW_MIN boundary is strict.  A remaining row with minimum
    amount [m] is BELOW_MIN exactly when it is not gas-blocked and
    [amount < m]; a row whose amount equals [m] is not BELOW_MIN and, when
    it is not gas-blocked and its price is known, it is
    READY_TO_EXECUTE. *)
Theorem C9_below_min_is_strict
    env completed plan cacheFile fetchJson x m :
  x ∈ AnalysisV2.remaining (AnalysisV2.main env completed plan cacheFile fetchJson) →
  AnalysisV2.minAmt x = Some m →
  let r := row_of x in
  (AnalysisV2.reason x = AnalysisV2.BELOW_MIN ↔
   gas_blocked r = false ∧ PrimFloat.ltb (amount r) m = true)
  ∧ (amount r = m ∨ PrimFloat.eqb (amount r) m = true →
     AnalysisV2.reason x ≠ AnalysisV2.BELOW_MIN
     ∧ (gas_blocked r = false →
        AnalysisV2.priceKnown
          (run_prices env completed plan cacheFile fetchJson) r = true →
        AnalysisV2.reason x = AnalysisV2.READY_TO_EXECUTE)).
Proof.
  intros Hx Hm r.
  destruct (v2_row_spec _ _ _ _ _ _ Hx) as (_ & _ & _ & Hr).
  fold r in Hr. rewrite Hm in Hr. simpl in Hr. rewrite Hr. clear Hr.
  set (known := AnalysisV2.priceKnown
                  (run_prices env completed plan cacheFile fetchJson) r).
  split.
  - destruct (gas_blocked r), (PrimFloat.ltb (amount r) m), known;
      intuition congruence.
  - intros Heq.
    assert (PrimFloat.ltb (amount r) m = false) as ->.
    { destruct Heq as [<- | Heq]; [apply ltb_irrefl | by apply eqb_not_ltb]. }
    destruct (gas_blocked r), known; intuition congruence.
Qed.

(** The scenario of the specification: 0.001 of an asset priced at $10
    with a floor of $0.01 has the minimum amount 0.01/10, which is the
    double 0.001. *)
Lemma C9_witness :
  let x := Examples.nth_row Examples.out 2 in
  amount (row_of x) = 0.001%float
  ∧ AnalysisV2.minAmt x = Some 0.001%float
  ∧ AnalysisV2.reason x ≠ AnalysisV2.BELOW_MIN
  ∧ AnalysisV2.reason x = AnalysisV2.READY_TO_EXECUTE.
Proof.
  intros x.
  split; [vm_compute; reflexivity | ].
  split; [vm_compute; reflexivity | ].
  assert (AnalysisV2.reason x ≠ AnalysisV2.BELOW_MIN
          ∧ (gas_blocked (row_of x) = false →
             AnalysisV2.priceKnown
               (run_prices Examples.env_min Examples.completed Examples.plan
                  (Some Examples.cache) Examples.no_network) (row_of x) = true →
             AnalysisV2.reason x = AnalysisV2.READY_TO_EXECUTE)) as [H1 H2].
  { apply (C9_below_min_is_strict Examples.env_min Examples.completed
             Examples.plan (Some Examples.cache) Examples.no_network
             x 0.001%float).
    - apply list_elem_of_In. vm_compute. tauto.
    - vm_compute. reflexivity.
    - left. vm_compute. reflexivity. }
  split; [exact H1 | ].
  apply H2; vm_compute; reflexivity.
Defined.

(** C10. A remaining row whose asset matches the stable-asset heuristic
    always has a known price, fixed at 1, so it has an estimated USD
    value and is never UNKNOWN_PRICE; this holds for every environment
    and price cache, offline with no cache included. *)
Theorem C10_stable_asset_is_always_priced
    env completed plan cacheFile fetchJson x :
  x ∈ AnalysisV2.remaining (AnalysisV2.main env completed plan cacheFile fetchJson) →
  AnalysisV2.isStable (assetId (row_of x)) = true →
  AnalysisV2.priceKnown (run_prices env completed plan cacheFile fetchJson)
    (row_of x) = true
  ∧ AnalysisV2.priceUSD x = Some 1%float
  ∧ AnalysisV2.estUSD x = Some (amount (row_of x) * 1)%float
  ∧ AnalysisV2.reason x ≠ AnalysisV2.UNKNOWN_PRICE.
Proof.
  intros Hx Hst.
  destruct (v2_row_spec _ _ _ _ _ _ Hx) as (_ & Hp & He & Hr).
  assert (AnalysisV2.priceKnown
            (run_prices env completed plan cacheFile fetchJson) (row_of x)
          = true) as Hk.
  { unfold AnalysisV2.priceKnown. rewrite Hst. apply orb_true_r. }
  rewrite Hk, Hst in Hp, He. rewrite Hk in Hr.
  repeat split; [done | done | done | ].
  rewrite Hr.
  destruct (gas_blocked (row_of x)),
    (AnalysisV2.below (amount (row_of x)) (AnalysisV2.minAmt x)); done.
Qed.

Lemma C10_witness :
  let x := Examples.nth_row Examples.out_offline 5 in
  assetId (row_of x) = "usdc_polygon"
  ∧ AnalysisV2.priceUSD x = Some 1%float
  ∧ AnalysisV2.estUSD x = Some 3%float
  ∧ AnalysisV2.reason x ≠ AnalysisV2.UNKNOWN_PRICE.
Proof.
  intros x. split; [vm_compute; reflexivity | ].
  destruct (C10_stable_asset_is_always_priced Examples.env_offline
              Examples.completed Examples.plan None Examples.no_network x)
    as (_ & Hp & He & Hr).
  - apply list_elem_of_In. vm_compute. tauto.
  - vm_compute. reflexivity.
  - split; [exact Hp | ]. split; [ | exact Hr].
    rewrite He. vm_compute. reflexivity.
Defined.

(** ** The remaining rows of [fb_receivership_report.js] *)

Lemma report_remaining_acc completed plan acc :
  foldl (ReceivershipReport.remaining_step completed) acc plan
  = acc ++ ((λ r, ReceivershipReport.mkRemaining (rowIdOf r) r)
            <$> filter (λ r, rowIdOf r ∉ completed) plan).
Proof.
  revert acc. induction plan as [ | r plan IH]; intros acc; simpl.
  - by rewrite app_nil_r.
  - rewrite filter_cons. unfold ReceivershipReport.remaining_step at 2.
    destruct (decide (rowIdOf r ∉ completed)) as [Hr | Hr].
    + rewrite bool_decide_eq_false_2 by done.
      rewrite IH, fmap_cons, <- app_assoc. done.
    + rewrite bool_decide_eq_true_2 by (by apply dec_stable).
      by rewrite IH.
Qed.

Lemma report_remaining_inv completed plan x :
  x ∈ ReceivershipReport.remaining completed plan →
  ReceivershipReport.rowId_of x = rowIdOf (ReceivershipReport.r_row x)
  ∧ ReceivershipReport.r_row x ∈ plan
  ∧ rowIdOf (ReceivershipReport.r_row x) ∉ completed.
Proof.
  unfold ReceivershipReport.remaining. rewrite report_remaining_acc. simpl.
  intros Hx. apply list_elem_of_fmap in Hx as (r & -> & Hr).
  apply list_elem_of_filter in Hr as [Hn Hr]. done.
Qed.

Lemma report_perRow_acc gas prices acc xs y :
  y ∈ foldl (ReceivershipReport.perRow_step gas prices) acc xs →
  y ∈ acc ∨ ∃ x, x ∈ xs ∧ y = ReceivershipReport.classify gas prices x.
Proof.
  revert acc. induction xs as [ | x xs IH]; intros acc; simpl.
  - by left.
  - intros Hy. apply IH in Hy as [Hy | (x' & Hx' & ->)].
    + unfold ReceivershipReport.perRow_step in Hy.
      case_bool_decide; [by left | ].
      apply elem_of_app in Hy as [Hy | Hy]; [by left | right].
      apply list_elem_of_singleton in Hy as ->.
      exists x. split; [left | done].
    + right. exists x'. split; [by right | done].
Qed.

Lemma report_perRow_inv gas prices completed plan y :
  y ∈ ReceivershipReport.perRow gas prices completed plan →
  ∃ x, x ∈ ReceivershipReport.remaining completed plan
       ∧ y = ReceivershipReport.classify gas prices x.
Proof.
  intros Hy. apply report_perRow_acc in Hy as [Hy | Hy]; [ | done].
  by apply elem_of_nil in Hy.
Qed.

(** ** The evaluation loop of [fireblocks_analysis.js] *)

Lemma analysis_step_spec env completed prices st c :
  let st' := Analysis.evaluate_step env completed prices st c in
  (Analysis.rid c ∈ completed
   ∧ Analysis.completedCount st' = S (Analysis.completedCount st)
   ∧ Analysis.remainingCount st' = Analysis.remainingCount st
   ∧ Analysis.remaining st' = Analysis.remaining st)
  ∨ ((Analysis.rid c ∉ completed)
     ∧ Analysis.completedCount st' = Analysis.completedCount st
     ∧ Analysis.remainingCount st' = S (Analysis.remainingCount st)
     ∧ ∃ z, (Analysis.remaining st' = Analysis.remaining st ++ [z])
            ∧ Analysis.cand z = c).
Proof.
  unfold Analysis.evaluate_step.
  case_bool_decide as Hc; simpl; [left; done | right].
  repeat split; [done | ]. eexists. split; [reflexivity | done].
Qed.

Lemma analysis_evaluate_acc env completed prices plan st :
  let res := foldl (Analysis.evaluate_step env completed prices) st
                   (Analysis.candidates plan) in
  Analysis.completedCount res
  = (Analysis.completedCount st
     + List.length (filter (λ r, rowIdOf r ∈ completed) plan))%nat
  ∧ Analysis.remainingCount res
    = (Analysis.remainingCount st
       + List.length (filter (λ r, rowIdOf r ∉ completed) plan))%nat
  ∧ List.length (Analysis.remaining res)
    = (List.length (Analysis.remaining st)
       + List.length (filter (λ r, rowIdOf r ∉ completed) plan))%nat
  ∧ ∀ z, z ∈ Analysis.remaining res →
         z ∈ Analysis.remaining st
         ∨ (Analysis.rid (Analysis.cand z) = rowIdOf (Analysis.c_row (Analysis.cand z))
            ∧ Analysis.c_row (Analysis.cand z) ∈ plan
            ∧ rowIdOf (Analysis.c_row (Analysis.cand z)) ∉ completed).
Proof.
  revert st. induction plan as [ | r plan IH]; intros st; simpl.
  - repeat split; try lia. intros z Hz. by left.
  - rewrite !filter_cons.
    set (c := Analysis.mkCandidate (rowIdOf r) r).
    destruct (IH (Analysis.evaluate_step env completed prices st c))
      as (Hc & Hn & Hl & Hz).
    rewrite Hc, Hn, Hl. clear Hc Hn Hl.
    destruct (analysis_step_spec env completed prices st c)
      as [(Hin & -> & -> & Hrem) | (Hin & -> & -> & z0 & Hrem & Hz0)];
      simpl in Hin.
    + rewrite Hrem in Hz |- *.
      rewrite (decide_True _ _ Hin).
      rewrite decide_False by (intros Hn; by apply Hn).
      simpl. repeat split; try lia.
      intros z Hzin. apply Hz in Hzin as [Hzin | (? & ? & ?)]; [by left | right].
      repeat split; [done | by right | done].
    + rewrite Hrem in Hz |- *.
      rewrite (decide_False _ _ Hin), (decide_True _ _ Hin).
      rewrite length_app. simpl. repeat split; try lia.
      intros z Hzin. apply Hz in Hzin as [Hzin | (? & ? & ?)].
      * apply elem_of_app in Hzin as [Hzin | Hzin]; [by left | right].
        apply list_elem_of_singleton in Hzin as ->. rewrite Hz0. simpl.
        repeat split; [by left | done].
      * right. repeat split; [done | by right | done].
Qed.

(** ** Claims on gas priority and on completed rows *)

(** C1, as the code has it.  In [fireblocks_analysis_v2.js] every
    remaining row that requires gas and is not gas-ready has the reason
    NEEDS_GAS, whatever its amount, its price and the minimum amounts.
    In the receivership report such a row has the status NEEDS_GAS only
    when it is neither below the USD minimum nor costlier in gas than its
    value; otherwise its status is NOT_WORTH. *)
Theorem C1_needs_gas_priority completed plan :
  (∀ env cacheFile fetchJson x,
     x ∈ AnalysisV2.remaining
           (AnalysisV2.main env completed plan cacheFile fetchJson) →
     requiresGas (row_of x) = true →
     gasReady (row_of x) = false →
     AnalysisV2.reason x = AnalysisV2.NEEDS_GAS)
  ∧ (∀ gas prices y,
       y ∈ ReceivershipReport.perRow gas prices completed plan →
       requiresGas (ReceivershipReport.r_row (ReceivershipReport.row y)) = true →
       gasReady (ReceivershipReport.r_row (ReceivershipReport.row y)) = false →
       ReceivershipReport.status y
       = if ReceivershipReport.belowMin y || ReceivershipReport.gasNotWorth y
         then ReceivershipReport.NOT_WORTH
         else ReceivershipReport.NEEDS_GAS).
Proof.
  split.
  - intros env cacheFile fetchJson x Hx Hg Hr.
    destruct (v2_row_spec _ _ _ _ _ _ Hx) as (_ & _ & _ & ->).
    unfold gas_blocked. by rewrite Hg, Hr.
  - intros gas prices y Hy Hg Hr.
    apply report_perRow_inv in Hy as (x & _ & ->).
    unfold ReceivershipReport.classify in *. simpl in *.
    by rewrite Hg, Hr.
Qed.

Lemma C1_witness :
  AnalysisV2.reason (Examples.nth_row Examples.out 1) = AnalysisV2.NEEDS_GAS
  ∧ ReceivershipReport.status (Examples.nth_report 1)
    = ReceivershipReport.NEEDS_GAS.
Proof.
  split.
  - apply (proj1 (C1_needs_gas_priority Examples.completed Examples.plan)
             Examples.env_min (Some Examples.cache) Examples.no_network).
    + apply list_elem_of_In. vm_compute. tauto.
    + vm_compute. reflexivity.
    + vm_compute. reflexivity.
  - rewrite (proj2 (C1_needs_gas_priority Examples.completed Examples.report_plan)
               Examples.gas_policy Examples.snapshot_prices).
    + vm_compute. reflexivity.
    + apply list_elem_of_In. vm_compute. tauto.
    + vm_compute. reflexivity.
    + vm_compute. reflexivity.
Defined.

(** In the receivership report a row that requires gas and is not
    gas-ready, worth $0.10 against a stable-asset minimum of $0.25, is
    given the status NOT_WORTH, not NEEDS_GAS. *)
Lemma C1_counterexample :
  Examples.nth_report 0 ∈ Examples.report
  ∧ ReceivershipReport.r_row (ReceivershipReport.row (Examples.nth_report 0))
    = Examples.dust_gas_row
  ∧ requiresGas Examples.dust_gas_row = true
  ∧ gasReady Examples.dust_gas_row = false
  ∧ ReceivershipReport.status (Examples.nth_report 0)
    = ReceivershipReport.NOT_WORTH
  ∧ ReceivershipReport.status (Examples.nth_report 0)
    ≠ ReceivershipReport.NEEDS_GAS.
Proof.
  split; [apply list_elem_of_In; vm_compute; tauto | ].
  repeat split; try (vm_compute; reflexivity).
  vm_compute. discriminate.
Qed.

(** C2. No row whose identifier is in the completed set appears among
    the remaining rows: in [fireblocks_analysis_v2.js], in the
    receivership report and in the first analysis script every
    remaining row comes from the plan and carries an identifier,
    [source|asset|destination], outside the set.  The remaining rows
    are as many as the plan rows outside the set, and the first analysis
    script counts the completed rows apart: the two counts add up to the
    plan. *)
Theorem C2_completed_rows_are_excluded (completed : gset string)
    (plan : list PlanRow) (r : string) :
  r ∈ completed →
  (∀ env cacheFile fetchJson,
     let out := AnalysisV2.main env completed plan cacheFile fetchJson in
     (∀ x, x ∈ AnalysisV2.remaining out →
           AnalysisV2.rid (AnalysisV2.cand x) = rowIdOf (row_of x)
           ∧ row_of x ∈ plan
           ∧ rowIdOf (row_of x) ≠ r)
     ∧ List.length (AnalysisV2.remaining out)
       = List.length (filter (λ p, rowIdOf p ∉ completed) plan))
  ∧ (∀ gas prices y,
       y ∈ ReceivershipReport.perRow gas prices completed plan →
       ReceivershipReport.rowId_of (ReceivershipReport.row y)
       = rowIdOf (ReceivershipReport.r_row (ReceivershipReport.row y))
       ∧ ReceivershipReport.r_row (ReceivershipReport.row y) ∈ plan
       ∧ rowIdOf (ReceivershipReport.r_row (ReceivershipReport.row y)) ≠ r)
  ∧ (∀ env prices,
       let st := Analysis.evaluate env completed prices plan in
       (∀ z, z ∈ Analysis.remaining st →
             Analysis.rid (Analysis.cand z)
             = rowIdOf (Analysis.c_row (Analysis.cand z))
             ∧ Analysis.c_row (Analysis.cand z) ∈ plan
             ∧ rowIdOf (Analysis.c_row (Analysis.cand z)) ≠ r)
       ∧ Analysis.completedCount st
         = List.length (filter (λ p, rowIdOf p ∈ completed) plan)
       ∧ Analysis.remainingCount st = List.length (Analysis.remaining st)
       ∧ (Analysis.completedCount st + Analysis.remainingCount st)%nat
         = List.length plan).
Proof.
  intros Hr. split; [ | split].
  - intros env cacheFile fetchJson out. split.
    + intros x Hx.
      apply v2_row_not_completed in Hx as (Hrid & Hin & Hn).
      repeat split; [done | done | ]. intros Heq. apply Hn. by rewrite Heq.
    + unfold out, AnalysisV2.main.
      pose proof (v2_collect_candidates completed plan) as Hc.
      destruct (AnalysisV2.collect completed plan) as [cands assets].
      destruct (AnalysisV2.getPrices env cacheFile fetchJson assets) as [P file].
      simpl in *. rewrite Hc, length_map, length_fmap. done.
  - intros gas prices y Hy.
    apply report_perRow_inv in Hy as (x & Hx & ->).
    apply report_remaining_inv in Hx as (Hrid & Hin & Hn).
    unfold ReceivershipReport.classify. simpl.
    repeat split; [done | done | ]. intros Heq. apply Hn. by rewrite Heq.
  - intros env prices st.
    destruct (analysis_evaluate_acc env completed prices plan
                (Analysis.mkState 0 0 [])) as (Hc & Hn & Hl & Hz).
    fold (Analysis.evaluate env completed prices plan) in Hc, Hn, Hl, Hz.
    fold st in Hc, Hn, Hl, Hz. simpl in Hc, Hn, Hl.
    assert (∀ z, z ∈ Analysis.remaining st →
                 Analysis.rid (Analysis.cand z)
                 = rowIdOf (Analysis.c_row (Analysis.cand z))
                 ∧ Analysis.c_row (Analysis.cand z) ∈ plan
                 ∧ rowIdOf (Analysis.c_row (Analysis.cand z)) ≠ r) as Hrows.
    { intros z Hin.
      apply Hz in Hin as [Hin | (? & ? & Hout)]; [by apply elem_of_nil in Hin | ].
      repeat split; [done | done | ]. intros Heq. apply Hout. by rewrite Heq. }
    split; [exact Hrows | ]. split; [done | ]. split; [lia | ].
    rewrite Hc, Hn. clear.
    induction plan as [ | p plan IH]; [done | ].
    rewrite !filter_cons.
    destruct (decide (rowIdOf p ∈ completed)) as [Hp | Hp].
    + rewrite decide_False by (intros Hq; by apply Hq). simpl. lia.
    + rewrite (decide_True _ _ Hp). simpl. lia.
Qed.

Lemma C2_witness :
  (∀ x, x ∈ AnalysisV2.remaining Examples.out →
        rowIdOf (row_of x) ≠ "V1|ETH|V2")
  ∧ List.length (AnalysisV2.remaining Examples.out) = 7%nat.
Proof.
  destruct (C2_completed_rows_are_excluded Examples.completed Examples.plan
              "V1|ETH|V2") as (Hv2 & _ & _).
  - vm_compute. reflexivity.
  - destruct (Hv2 Examples.env_min (Some Examples.cache) Examples.no_network)
      as [Hrows Hlen].
    split.
    + intros x Hx. by apply Hrows.
    + vm_compute. reflexivity.
Defined.

(** ** Price resolution in [fb_analyze_inventory.js] *)

Lemma has_true {V} (m : gmap string V) k : has m k = true ↔ is_Some (m !! k).
Proof. unfold has. destruct (m !! k); split; (done || by intros []). Qed.

Lemma has_false {V} (m : gmap string V) k : has m k = false ↔ m !! k = None.
Proof. unfold has. by destruct (m !! k). Qed.

(** An override reaches the price table as soon as its asset is listed,
    and later turns of the loop write the same value. *)
Lemma inv_apply_overrides_acc t ids (acc : gmap string float) a v :
  AnalyzeInventory.overrides t !! a = Some v →
  acc !! a = Some v ∨ a ∈ ids →
  foldl (λ prices a,
           match AnalyzeInventory.overrides t !! a with
           | Some v => <[a := v]> prices
           | None => prices
           end) acc ids !! a = Some v.
Proof.
  intros Ho. revert acc. induction ids as [ | x ids IH]; intros acc Hacc; simpl.
  - destruct Hacc as [Hacc | Hacc]; [done | by apply elem_of_nil in Hacc].
  - apply IH. destruct (decide (a = x)) as [<- | Hne].
    + left. rewrite Ho. apply lookup_insert_eq.
    + destruct Hacc as [Hacc | Hacc].
      * left. destruct (AnalyzeInventory.overrides t !! x); [ | done].
        by rewrite lookup_insert_ne.
      * right. apply elem_of_cons in Hacc as [Heq | Hin]; [done | done].
Qed.

Lemma inv_apply_overrides t ids a v :
  a ∈ ids →
  AnalyzeInventory.overrides t !! a = Some v →
  AnalyzeInventory.apply_overrides t ids !! a = Some v.
Proof.
  intros Hin Ho. unfold AnalyzeInventory.apply_overrides.
  apply inv_apply_overrides_acc; [done | by right].
Qed.

(** The cache only fills holes. *)
Lemma inv_apply_cache_keeps t ids (prices : gmap string float) a v :
  prices !! a = Some v →
  AnalyzeInventory.apply_cache t ids prices !! a = Some v.
Proof.
  unfold AnalyzeInventory.apply_cache. revert prices.
  induction ids as [ | x ids IH]; intros prices Hp; simpl; [done | ].
  apply IH. destruct (has prices x) eqn:Hx; [done | ].
  apply has_false in Hx.
  destruct (AnalyzeInventory.cachedPrices t !! x); [ | done].
  rewrite lookup_insert_ne; [done | ]. intros ->. congruence.
Qed.

(** The mapping loop never touches a price that is already there, and
    the assets it queues for the price service have none. *)
Lemma inv_map_step_keeps t st x a v :
  AnalyzeInventory.prices st !! a = Some v →
  AnalyzeInventory.prices (AnalyzeInventory.map_step t st x) !! a = Some v.
Proof.
  intros Hp. unfold AnalyzeInventory.map_step.
  destruct (has (AnalyzeInventory.prices st) x) eqn:Hx; [done | ].
  apply has_false in Hx.
  destruct (truthy (AnalyzeInventory.assetToCg t !! x)); [done | ].
  destruct (AnalyzeInventory.cachedPrices t !! x); [ | done]. simpl.
  rewrite lookup_insert_ne; [done | ]. intros ->. congruence.
Qed.

Lemma inv_map_step_queue t st x :
  (∀ cg a, a ∈ default [] (AnalyzeInventory.cgToAsset st !! cg) →
           AnalyzeInventory.prices st !! a = None
           ∧ truthy (AnalyzeInventory.assetToCg t !! a) ≠ None) →
  ∀ cg a,
    a ∈ default [] (AnalyzeInventory.cgToAsset (AnalyzeInventory.map_step t st x) !! cg) →
    AnalyzeInventory.prices (AnalyzeInventory.map_step t st x) !! a = None
    ∧ truthy (AnalyzeInventory.assetToCg t !! a) ≠ None.
Proof.
  intros HJ cg a. unfold AnalyzeInventory.map_step.
  destruct (has (AnalyzeInventory.prices st) x) eqn:Hx; [apply HJ | ].
  apply has_false in Hx.
  destruct (truthy (AnalyzeInventory.assetToCg t !! x)) as [cgx | ] eqn:Hcg.
  - simpl. destruct (decide (cgx = cg)) as [-> | Hne].
    + rewrite lookup_insert_eq. simpl. intros Ha.
      apply elem_of_app in Ha as [Ha | Ha]; [by apply (HJ cg) | ].
      apply list_elem_of_singleton in Ha as ->. split; [done | congruence].
    + rewrite lookup_insert_ne by done. apply HJ.
  - destruct (AnalyzeInventory.cachedPrices t !! x); [ | apply HJ]. simpl.
    intros Ha. destruct (HJ cg a Ha) as [Hnone Htr]. split; [ | done].
    rewrite lookup_insert_ne; [done | ]. intros ->. congruence.
Qed.

Lemma inv_map_assets_acc t ids st0 :
  (∀ cg a, a ∈ default [] (AnalyzeInventory.cgToAsset st0 !! cg) →
           AnalyzeInventory.prices st0 !! a = None
           ∧ truthy (AnalyzeInventory.assetToCg t !! a) ≠ None) →
  let st := foldl (AnalyzeInventory.map_step t) st0 ids in
  (∀ a v, AnalyzeInventory.prices st0 !! a = Some v →
          AnalyzeInventory.prices st !! a = Some v)
  ∧ (∀ cg a, a ∈ default [] (AnalyzeInventory.cgToAsset st !! cg) →
             AnalyzeInventory.prices st !! a = None).
Proof.
  revert st0. induction ids as [ | x ids IH]; intros st0 HJ; simpl.
  - split; [done | ]. intros cg a Ha. by apply (HJ cg).
  - destruct (IH (AnalyzeInventory.map_step t st0 x)
                (inv_map_step_queue t st0 x HJ)) as [Hkeep Hq].
    split; [ | exact Hq].
    intros a v Hp. apply Hkeep. by apply inv_map_step_keeps.
Qed.

Lemma inv_map_assets t ids prices0 :
  let st := AnalyzeInventory.map_assets t ids prices0 in
  (∀ a v, prices0 !! a = Some v → AnalyzeInventory.prices st !! a = Some v)
  ∧ (∀ cg a, a ∈ default [] (AnalyzeInventory.cgToAsset st !! cg) →
             AnalyzeInventory.prices st !! a = None).
Proof.
  apply (inv_map_assets_acc t ids (AnalyzeInventory.mkMapping [] ∅ prices0)).
  intros cg a. simpl. rewrite lookup_empty. simpl.
  intros Ha. by apply elem_of_nil in Ha.
Qed.

(** An answer of the price service only writes the prices of queued
    assets. *)
Lemma inv_apply_response_other cgToAsset (prices : gmap string float) json a :
  (∀ cg, a ∉ default [] (cgToAsset !! cg)) →
  AnalyzeInventory.apply_response cgToAsset prices json !! a = prices !! a.
Proof.
  intros Hq. unfold AnalyzeInventory.apply_response. revert prices.
  induction json as [ | [cgId usd] json IH]; intros prices; simpl; [done | ].
  rewrite IH. destruct usd as [usd | ]; [ | done].
  specialize (Hq cgId). revert prices.
  induction (default [] (cgToAsset !! cgId)) as [ | b bs IHb];
    intros prices; simpl; [done | ].
  rewrite IHb by (intros Hb; apply Hq; by right).
  rewrite lookup_insert_ne; [done | ]. intros ->. apply Hq. by left.
Qed.

Lemma inv_fetch_all_other httpGetJson cgToAsset chunks
    (prices prices' : gmap string float) a :
  (∀ cg, a ∉ default [] (cgToAsset !! cg)) →
  AnalyzeInventory.fetch_all httpGetJson cgToAsset prices chunks = Some prices' →
  prices' !! a = prices !! a.
Proof.
  intros Hq. revert prices.
  induction chunks as [ | chunk chunks IH]; intros prices; simpl.
  - by intros [= ->].
  - destruct (httpGetJson chunk) as [json | ]; [ | done].
    intros Hf. rewrite (IH _ Hf). by apply inv_apply_response_other.
Qed.


(** Whatever was resolved before the requests is what the call
    returns. *)
Lemma inv_loadPricesUsd_keeps t httpGetJson ids prices file a v :
  AnalyzeInventory.loadPricesUsd AnalyzeInventory.coingecko t
    httpGetJson ids = AnalyzeInventory.Returned prices file →
  AnalyzeInventory.prices
    (AnalyzeInventory.map_assets t ids (AnalyzeInventory.apply_overrides t ids))
    !! a = Some v →
  prices !! a = Some v.
Proof.
  unfold AnalyzeInventory.loadPricesUsd.
  destruct (inv_map_assets t ids (AnalyzeInventory.apply_overrides t ids))
    as [_ Hq].
  set (st := AnalyzeInventory.map_assets t ids
               (AnalyzeInventory.apply_overrides t ids)) in *.
  intros Hload Hp.
  assert (∀ cg, a ∉ default [] (AnalyzeInventory.cgToAsset st !! cg)) as Hout.
  { intros cg Ha. apply Hq in Ha. congruence. }
  destruct (uniq (AnalyzeInventory.ids st)) as [ | i rest].
  - by injection Hload as <- _.
  - destruct (AnalyzeInventory.fetch_all _ _ _ _) as [p | ] eqn:Hf; [ | done].
    injection Hload as <- _.
    by rewrite (inv_fetch_all_other _ _ _ _ _ _ Hout Hf).
Qed.

Lemma inv_override_wins mode t httpGetJson ids prices file a v :
  AnalyzeInventory.loadPricesUsd mode t httpGetJson ids
  = AnalyzeInventory.Returned prices file →
  a ∈ ids →
  AnalyzeInventory.overrides t !! a = Some v →
  prices !! a = Some v.
Proof.
  intros Hload Hin Ho.
  pose proof (inv_apply_overrides t ids a v Hin Ho) as H0.
  destruct mode.
  - simpl in Hload. by injection Hload as <- _.
  - simpl in Hload. injection Hload as <- _. by apply inv_apply_cache_keeps.
  - apply (inv_loadPricesUsd_keeps _ _ _ _ _ _ _ Hload).
    by apply (inv_map_assets t ids).
Qed.




(** ** Overrides that are not positive *)

(** [fb_update_prices.js] keeps an override only when it is a positive
    finite number. *)
Lemma upd_apply_overrides_lookup t a :
  UpdatePrices.prices (UpdatePrices.apply_overrides t) !! a
  = match UpdatePrices.overrides t !! a with
    | Some v => if UpdatePrices.valid_price v then Some v else None
    | None => None
    end.
Proof.
  unfold UpdatePrices.apply_overrides.
  apply (map_fold_weak_ind
           (λ st (m : gmap string float),
              UpdatePrices.prices st !! a
              = match m !! a with
                | Some v => if UpdatePrices.valid_price v then Some v else None
                | None => None
                end)).
  - simpl. by rewrite !lookup_empty.
  - intros k v m st Hk IH.
    destruct (decide (k = a)) as [-> | Hne].
    + rewrite lookup_insert_eq. rewrite Hk in IH.
      destruct (UpdatePrices.valid_price v); simpl; [apply lookup_insert_eq | done].
    + rewrite lookup_insert_ne by done. rewrite <- IH.
      destruct (UpdatePrices.valid_price v); simpl; [ | done].
      by rewrite lookup_insert_ne.
Qed.

(** [fb_analyze_inventory.js] takes any finite override as the price:
    the asset counts as priced, by method "override", and its holdings
    are valued with it. *)
Lemma inv_override_is_the_price mode t httpGetJson ids prices file a v A :
  AnalyzeInventory.loadPricesUsd mode t httpGetJson ids
  = AnalyzeInventory.Returned prices file →
  a ∈ ids →
  AnalyzeInventory.overrides t !! a = Some v →
  Js.Number_isFinite v = true →
  let row := AnalyzeInventory.asset_stats t prices a A in
  AnalyzeInventory.hasPrice row = true
  ∧ AnalyzeInventory.priceUsd row = Some v
  ∧ AnalyzeInventory.priceUsdMethod row = AnalyzeInventory.m_override
  ∧ AnalyzeInventory.usdTotalKnownPrices row
    = Some (AnalyzeInventory.sumTotal A * v)%float
  ∧ AnalyzeInventory.unknownPriceRows row = 0%nat.
Proof.
  intros Hload Hin Ho Hfin.
  pose proof (inv_override_wins _ _ _ _ _ _ _ _ Hload Hin Ho) as Hp.
  unfold AnalyzeInventory.asset_stats. simpl.
  unfold has. rewrite Hp, Ho, Hfin. simpl. done.
Qed.

(** C6, at overrides of 0 and of -2.  [loadPricesUsd] returns them as
    the prices of their assets, and the coverage line of each asset
    reports a price, the method "override", and a value of 10 units
    computed with it (0 and -20); no row counts as unpriced.  The price
    updater, given the same overrides, leaves both assets without a
    price, with the method "unknown". *)
Theorem C6_nonpositive_override_is_used :
  AnalyzeInventory.loadPricesUsd AnalyzeInventory.offline Examples.bad_tables
    (λ _, None) Examples.bad_assets
  = AnalyzeInventory.Returned Examples.bad_overrides None
  ∧ (AnalyzeInventory.hasPrice Examples.eth_coverage = true
     ∧ AnalyzeInventory.priceUsd Examples.eth_coverage = Some 0%float
     ∧ AnalyzeInventory.priceUsdMethod Examples.eth_coverage
       = AnalyzeInventory.m_override
     ∧ AnalyzeInventory.usdTotalKnownPrices Examples.eth_coverage = Some 0%float
     ∧ AnalyzeInventory.unknownPriceRows Examples.eth_coverage = 0%nat)
  ∧ (AnalyzeInventory.hasPrice Examples.doge_coverage = true
     ∧ AnalyzeInventory.priceUsd Examples.doge_coverage = Some (-2)%float
     ∧ AnalyzeInventory.priceUsdMethod Examples.doge_coverage
       = AnalyzeInventory.m_override
     ∧ AnalyzeInventory.usdTotalKnownPrices Examples.doge_coverage
       = Some (-20)%float
     ∧ AnalyzeInventory.unknownPriceRows Examples.doge_coverage = 0%nat)
  ∧ UpdatePrices.run Examples.bad_update_tables (λ _, Some [])
      Examples.bad_assets
    = UpdatePrices.Returned
        (UpdatePrices.mkResolved ∅
           {[ "ETH" := UpdatePrices.unknown; "DOGE" := UpdatePrices.unknown ]})
        ∅.
Proof.
  repeat split; vm_compute; reflexivity.
Qed.

(** ** The price cache after a run *)

Lemma v2_mark_unknown_prices assets st :
  AnalysisV2.prices (AnalysisV2.mark_unknown assets st) = AnalysisV2.prices st.
Proof.
  unfold AnalysisV2.mark_unknown. revert st.
  induction assets as [ | a assets IH]; intros st; simpl; [done | ].
  rewrite IH. by destruct (has_prop (AnalysisV2.prices st) a).
Qed.

Lemma v2_cache_after env cacheFile fetchJson assets :
  (AnalysisV2.getPrices env cacheFile fetchJson assets).2
  = if AnalysisV2.OFFLINE env then cacheFile
    else Some (AnalysisV2.prices
                 (AnalysisV2.getPrices env cacheFile fetchJson assets).1
               ∪ default ∅ cacheFile).
Proof.
  unfold AnalysisV2.getPrices.
  destruct (AnalysisV2.OFFLINE env); simpl; [done | ].
  by rewrite v2_mark_unknown_prices.
Qed.

Lemma inv_update_cache_lookup (cachedPrices prices : gmap string float) k :
  AnalyzeInventory.update_cache cachedPrices prices !! k
  = match prices !! k with
    | Some v => if Js.Number_isFinite v then Some v else cachedPrices !! k
    | None => cachedPrices !! k
    end.
Proof.
  unfold AnalyzeInventory.update_cache.
  apply (map_fold_weak_ind
           (λ (newCache m : gmap string float),
              newCache !! k
              = match m !! k with
                | Some v => if Js.Number_isFinite v then Some v
                            else cachedPrices !! k
                | None => cachedPrices !! k
                end)).
  - by rewrite lookup_empty.
  - intros i v m newCache Hi IH.
    destruct (decide (i = k)) as [-> | Hne].
    + rewrite lookup_insert_eq. rewrite Hi in IH.
      destruct (Js.Number_isFinite v); [apply lookup_insert_eq | done].
    + rewrite lookup_insert_ne by done. rewrite <- IH.
      destruct (Js.Number_isFinite v); [ | done].
      by rewrite lookup_insert_ne.
Qed.

(** C7, as the code has it.  [getPrices] of [fireblocks_analysis_v2.js]
    leaves the cache file alone when offline and otherwise rewrites it as
    the merge of the old entries and this run's prices: a key priced in
    this run holds the new price, every other key keeps its old entry.
    [loadPricesUsd] of [fb_analyze_inventory.js], when it writes the
    cache, merges the same way, upserting the finite prices only.
    [fetchPricesUsd] of [re_eval.js] does not merge: when it writes, the
    file is a snapshot of the prices fetched in this run and nothing
    else, whatever the file held before. *)
Theorem C7_cache_is_merged_except_by_re_eval :
  (∀ env cacheFile fetchJson assets P file,
     AnalysisV2.getPrices env cacheFile fetchJson assets = (P, file) →
     if AnalysisV2.OFFLINE env then file = cacheFile
     else ∃ merged,
         file = Some merged
         ∧ ∀ k, merged !! k
                = match AnalysisV2.prices P !! k with
                  | Some v => Some v
                  | None => default ∅ cacheFile !! k
                  end)
  ∧ (∀ mode t httpGetJson assetIds prices newCache,
       AnalyzeInventory.loadPricesUsd mode t httpGetJson assetIds
       = AnalyzeInventory.Returned prices (Some newCache) →
       ∀ k, newCache !! k
            = match prices !! k with
              | Some v => if Js.Number_isFinite v then Some v
                          else AnalyzeInventory.cachedPrices t !! k
              | None => AnalyzeInventory.cachedPrices t !! k
              end)
  ∧ (∀ assetToCg httpGetJson nowIso cacheFile prices file,
       ReEval.fetchPricesUsd assetToCg httpGetJson nowIso cacheFile
       = ReEval.Returned prices file →
       (prices = ∅ ∧ file = cacheFile)
       ∨ file = Some (ReEval.Snapshot nowIso "coingecko/simple/price" prices)).
Proof.
  split; [ | split].
  - intros env cacheFile fetchJson assets P file Hget.
    pose proof (v2_cache_after env cacheFile fetchJson assets) as Hfile.
    rewrite Hget in Hfile. simpl in Hfile.
    destruct (AnalysisV2.OFFLINE env); [done | ].
    eexists. split; [exact Hfile | ].
    intros k. destruct (AnalysisV2.prices P !! k) as [v | ] eqn:Hk.
    + by apply lookup_union_Some_l.
    + by apply lookup_union_r.
  - intros mode t httpGetJson assetIds prices newCache Hload k.
    unfold AnalyzeInventory.loadPricesUsd in Hload.
    destruct mode; [done | done | ].
    destruct (uniq _); [done | ].
    destruct (AnalyzeInventory.fetch_all _ _ _ _) as [p | ]; [ | done].
    injection Hload as <- <-. apply inv_update_cache_lookup.
  - intros assetToCg httpGetJson nowIso cacheFile prices file Hrun.
    unfold ReEval.fetchPricesUsd in Hrun.
    destruct (uniq _).
    + injection Hrun as <- <-. by left.
    + destruct (ReEval.fetch_all _ _ _) as [p | ]; [ | done].
      injection Hrun as <- <-. by right.
Qed.

Lemma C7_witness :
  ∃ merged,
    AnalysisV2.cacheFileAfter
      (AnalysisV2.main Examples.env_online Examples.completed Examples.plan
         (Some Examples.old_cache) Examples.bitcoin_service) = Some merged
    ∧ merged !! "OLD" = Some 2%float
    ∧ merged !! "BTC" = Some 60000%float.
Proof.
  destruct (AnalysisV2.getPrices Examples.env_online (Some Examples.old_cache)
              Examples.bitcoin_service
              (AnalysisV2.collect Examples.completed Examples.plan).2)
    as [P file] eqn:Hget.
  destruct (proj1 C7_cache_is_merged_except_by_re_eval _ _ _ _ _ _ Hget)
    as (merged & Hfile & Hmerged).
  exists merged. split.
  - unfold AnalysisV2.main.
    destruct (AnalysisV2.collect Examples.completed Examples.plan)
      as [cands assets].
    simpl in Hget. rewrite Hget. simpl. exact Hfile.
  - assert (P = (AnalysisV2.getPrices Examples.env_online
                   (Some Examples.old_cache) Examples.bitcoin_service
                   (AnalysisV2.collect Examples.completed Examples.plan).2).1)
      as HP by (by rewrite Hget).
    rewrite !Hmerged, HP. split; vm_compute; reflexivity.
Defined.

(** A run of [re_eval.js] over a cache with a price for BTC, which this
    run does not fetch: the file it leaves has no entry for BTC. *)
Lemma C7_counterexample :
  ReEval.fetchPricesUsd Examples.eth_mapping Examples.eth_service Examples.now
    (Some Examples.flat_cache)
  = ReEval.Returned {[ "ethereum" := 3000%float ]}
      (Some (ReEval.Snapshot Examples.now "coingecko/simple/price"
               {[ "ethereum" := 3000%float ]}))
  ∧ ReEval.cache_entry Examples.flat_cache "BTC" = Some 50000%float
  ∧ ({[ "ethereum" := 3000%float ]} : gmap string float) !! "BTC" = None
  ∧ ReEval.cache_entry
      (ReEval.Snapshot Examples.now "coingecko/simple/price"
         {[ "ethereum" := 3000%float ]}) "BTC" = None.
Proof.
  repeat split; vm_compute; reflexivity.
Qed.

(** ** Percentiles *)

(** C8. Both [percentile] functions interpolate linearly between order
    statistics: on a non-empty array they take the index [(n-1)*p], and
    return the element there when the index is whole, and otherwise the
    blend [a[lo]*(1-w) + a[hi]*w] of the elements at its floor and
    ceiling, with [w] the fractional part; the inventory analysis sorts
    its argument first.  On [1,2,3,4] the median is 2.5 and the 90th
    percentile, taken at index 2.7 between 3 and 4, is 3.7: the doubles
    the scripts compute are exactly these. *)
Theorem C8_percentile_interpolates :
  (Breakeven.percentile [1; 2; 3; 4]%float 0.5%float = Some 2.5%float
   ∧ Breakeven.percentile [1; 2; 3; 4]%float 0.9%float = Some 3.7%float
   ∧ AnalyzeInventory.percentile [1; 2; 3; 4]%float 0.5%float = Some 2.5%float
   ∧ AnalyzeInventory.percentile [1; 2; 3; 4]%float 0.9%float = Some 3.7%float
   ∧ AnalyzeInventory.percentile [3; 1; 4; 2]%float 0.9%float = Some 3.7%float
   ∧ ((Js.length [1; 2; 3; 4]%float - 1) * 0.9 = 2.7)%float
   ∧ Js.Math_floor 2.7%float = 2%float
   ∧ Js.Math_ceil 2.7%float = 3%float)
  ∧ (∀ sorted p,
       sorted ≠ [] →
       let idx := ((Js.length sorted - 1) * p)%float in
       let lo := Js.Math_floor idx in
       let hi := Js.Math_ceil idx in
       let w := (idx - lo)%float in
       Breakeven.percentile sorted p
       = if Js.strict_eq lo hi then Js.get sorted lo
         else Some (Js.to_number (Js.get sorted lo) * (1 - w)
                    + Js.to_number (Js.get sorted hi) * w)%float)
  ∧ (∀ arr p,
       arr ≠ [] →
       let a := Js.sort_num arr in
       let idx := ((Js.length a - 1) * p)%float in
       let lo := Js.Math_floor idx in
       let hi := Js.Math_ceil idx in
       let w := (idx - lo)%float in
       AnalyzeInventory.percentile arr p
       = if Js.strict_eq lo hi then Js.get a lo
         else Some (Js.to_number (Js.get a lo) * (1 - w)
                    + Js.to_number (Js.get a hi) * w)%float).
Proof.
  split; [repeat split; vm_compute; reflexivity | ].
  split.
  - intros sorted p Hne. unfold Breakeven.percentile.
    destruct sorted; [done | reflexivity].
  - intros arr p Hne. unfold AnalyzeInventory.percentile.
    destruct arr; [done | reflexivity].
Qed.

Lemma C8_witness :
  Breakeven.percentile [1; 2; 3; 4]%float 0.9%float
  = Some (3 * (1 - (2.7 - 2)) + 4 * (2.7 - 2))%float
  ∧ (3 * (1 - (2.7 - 2)) + 4 * (2.7 - 2) = 3.7)%float.
Proof.
  split; [ | vm_compute; reflexivity].
  rewrite (proj1 (proj2 C8_percentile_interpolates) [1; 2; 3; 4]%float 0.9%float).
  - vm_compute. reflexivity.
  - discriminate.
Defined.

(** ** Sanity of the shared helpers and the scenarios of the specification *)

(** Chunking loses and reorders nothing. *)
Lemma chunks_from_concat {A} (k room : nat) (cur l : list A) :
  concat (chunks_from k room cur l) = rev cur ++ l.
Proof.
  revert room cur. induction l as [ | x l IH]; intros room cur; simpl.
  - destruct cur; simpl; by rewrite ?app_nil_r.
  - destruct room as [ | room]; simpl; rewrite IH; simpl.
    + done.
    + by rewrite <- app_assoc.
Qed.

Lemma chunks_concat {A} (k : nat) (l : list A) : concat (chunks k l) = l.
Proof. unfold chunks. by rewrite chunks_from_concat. Qed.

Example chunks_of_seven :
  chunks 3 [1; 2; 3; 4; 5; 6; 7]%nat = [[1; 2; 3]; [4; 5; 6]; [7]]%nat.
Proof. reflexivity. Qed.

Example uniq_keeps_first :
  uniq ["a"; "b"; "a"; "c"; "b"] = ["a"; "b"; "c"].
Proof. vm_compute. reflexivity. Qed.

(** The stable-asset heuristic is a case-insensitive substring test. *)
Lemma v2_isStable_spec assetId :
  AnalysisV2.isStable assetId = true ↔
  ∃ ticker, ticker ∈ ["USDC"; "USDT"; "BUSD"; "TUSD"]
            ∧ Js.includes (Js.toUpperCase assetId) ticker = true.
Proof.
  unfold AnalysisV2.isStable. rewrite !orb_true_iff. split.
  - intros [[[H | H] | H] | H]; eexists; (split; [ | exact H]);
      apply list_elem_of_In; simpl; tauto.
  - intros (ticker & Hin & H).
    apply list_elem_of_In in Hin. simpl in Hin.
    destruct Hin as [<- | [<- | [<- | [<- | []]]]]; tauto.
Qed.

(** 50 USDC from V1 to V2, no gas needed, stable floor 0.25: price 1 by
    the stable rule, $50, minimum 0.25, ready. *)
Example scenario_stable_ready :
  let x := Examples.nth_row Examples.out_offline 0 in
  row_of x = Examples.usdc_row
  ∧ AnalysisV2.priceUSD x = Some 1%float
  ∧ AnalysisV2.priceSource x = AnalysisV2.stable
  ∧ AnalysisV2.estUSD x = Some 50%float
  ∧ AnalysisV2.minAmt x = Some 0.25%float
  ∧ AnalysisV2.reason x = AnalysisV2.READY_TO_EXECUTE.
Proof. repeat split; vm_compute; reflexivity. Qed.

(** The same row when it requires gas that is not ready. *)
Example scenario_stable_needs_gas :
  let x := Examples.nth_row Examples.out_offline 1 in
  row_of x = Examples.usdc_gas_row
  ∧ AnalysisV2.estUSD x = Some 50%float
  ∧ AnalysisV2.reason x = AnalysisV2.NEEDS_GAS.
Proof. repeat split; vm_compute; reflexivity. Qed.

(** 0.001 of an asset cached at $10 with a floor of $0.01. *)
Example scenario_boundary :
  let x := Examples.nth_row Examples.out 2 in
  row_of x = Examples.btc_row
  ∧ AnalysisV2.priceUSD x = Some 10%float
  ∧ AnalysisV2.priceSource x = AnalysisV2.cached
  ∧ AnalysisV2.minAmt x = Some (0.01 / 10)%float
  ∧ (0.01 / 10 = 0.001)%float
  ∧ AnalysisV2.reason x = AnalysisV2.READY_TO_EXECUTE.
Proof. repeat split; vm_compute; reflexivity. Qed.

(** * Properties of the rest of the scripts *)

(** ** CSV lines *)

Lemma str_app_cons (c : ascii) (s t : string) :
  String c s +:+ t = String c (s +:+ t).
Proof. reflexivity. Qed.

Lemma str_app_nil_l (t : string) : EmptyString +:+ t = t.
Proof. reflexivity. Qed.

Lemma str_app_nil_r (s : string) : s +:+ EmptyString = s.
Proof.
  induction s as [ | c s IH]; [done | ]. by rewrite str_app_cons, IH.
Qed.

Lemma str_app_assoc (s1 s2 s3 : string) :
  (s1 +:+ s2) +:+ s3 = s1 +:+ (s2 +:+ s3).
Proof.
  induction s1 as [ | c s1 IH]; [done | ]. by rewrite !str_app_cons, IH.
Qed.

(** A field that needs no quotes is read character by character. *)
Lemma csv_parse_plain s rest out cur :
  Csv.needs_quotes s = false →
  Csv.parse_from (s +:+ rest) out cur false false
  = Csv.parse_from rest out (cur +:+ s) false false.
Proof.
  revert cur. induction s as [ | c s IH]; intros cur Hs.
  - by rewrite str_app_nil_l, str_app_nil_r.
  - simpl in Hs. apply orb_false_iff in Hs as [Hc Hs].
    apply orb_false_iff in Hc as [Hc _].
    apply orb_false_iff in Hc as [Hq Hcomma].
    rewrite str_app_cons. simpl.
    rewrite Hq, Hcomma. simpl. rewrite (IH _ Hs).
    by rewrite str_app_assoc.
Qed.

(** Inside quotes, doubled quotes are read as one and the closing quote
    ends the field, provided no quote follows it. *)
Lemma csv_parse_quoted s rest out cur :
  Csv.next_is_quote rest = false →
  Csv.parse_from (Csv.double_quotes s +:+ String Csv.dquote rest) out cur true false
  = Csv.parse_from rest out (cur +:+ s) false false.
Proof.
  intros Hrest. revert cur. induction s as [ | c s IH]; intros cur.
  - simpl. rewrite Hrest. simpl. by rewrite str_app_nil_r.
  - simpl. destruct (Ascii.eqb c Csv.dquote) eqn:Hc.
    + apply Ascii.eqb_eq in Hc as ->. rewrite !str_app_cons. simpl.
      rewrite IH. by rewrite str_app_assoc.
    + rewrite str_app_cons. simpl. rewrite Hc, andb_false_r. rewrite IH.
      by rewrite str_app_assoc.
Qed.

Lemma csv_parse_field f rest out cur :
  Csv.next_is_quote rest = false →
  Csv.parse_from (Csv.esc f +:+ rest) out cur false false
  = Csv.parse_from rest out (cur +:+ f) false false.
Proof.
  intros Hrest. unfold Csv.esc.
  destruct (Csv.needs_quotes f) eqn:Hf.
  - rewrite str_app_cons, str_app_assoc, str_app_cons, str_app_nil_l.
    simpl. by apply csv_parse_quoted.
  - by apply csv_parse_plain.
Qed.

Lemma csv_join_cons f g fields :
  Csv.join (f :: g :: fields) = f +:+ String Csv.comma (Csv.join (g :: fields)).
Proof. reflexivity. Qed.

Lemma csv_parse_fields fields out :
  fields ≠ [] →
  Csv.parse_from (Csv.join (List.map Csv.esc fields)) out EmptyString false false
  = out ++ fields.
Proof.
  revert out. induction fields as [ | f fields IH]; intros out Hne; [done | ].
  destruct fields as [ | g fields].
  - simpl. rewrite <- (str_app_nil_r (Csv.esc f)).
    rewrite csv_parse_field by reflexivity. simpl. by rewrite str_app_nil_l.
  - rewrite !map_cons, csv_join_cons.
    rewrite csv_parse_field by reflexivity. rewrite str_app_nil_l.
    rewrite <- map_cons.
    change (Csv.parse_from (String Csv.comma ?l) out f false false)
      with (Csv.parse_from l (out ++ [f]) EmptyString false false).
    rewrite IH by done. by rewrite <- app_assoc.
Qed.

(** X1. What [writeCsv] writes, the parser reads back: a line made of
    the escaped fields joined by commas parses into those fields,
    whatever commas, quotes and line feeds they hold. *)
Theorem csv_write_then_parse (fields : list string) :
  fields ≠ [] →
  Csv.csvParseLine (Csv.write_line fields) = fields.
Proof.
  intros Hne. unfold Csv.csvParseLine, Csv.write_line.
  by rewrite csv_parse_fields.
Qed.

(** An instance on sample data. *)
Lemma csv_write_then_parse_witness :
  Csv.csvParseLine (Csv.write_line Samples.fields) = Samples.fields.
Proof. apply csv_write_then_parse. discriminate. Defined.






(** ** Completed ledgers *)

Lemma ledger_split_nonempty s cur p : Ledger.split_from s cur p ≠ [].
Proof.
  revert cur p. induction s as [ | c s IH]; intros cur p; simpl; [done | ].
  destruct (Ascii.eqb c Ledger.LF); [done | ].
  destruct (Ascii.eqb c Ledger.CR); apply IH.
Qed.

(** A piece without line breaks, closed by a line feed, is one line. *)
Lemma ledger_split_line s rest cur :
  Ledger.has_break s = false →
  Ledger.split_from (s +:+ String Ledger.LF rest) cur false
  = (cur +:+ s) :: Ledger.split_from rest EmptyString false.
Proof.
  revert cur. induction s as [ | c s IH]; intros cur Hs.
  - rewrite str_app_nil_l, str_app_nil_r. reflexivity.
  - simpl in Hs. apply orb_false_iff in Hs as [Hc Hs].
    apply orb_false_iff in Hc as [Hlf Hcr].
    rewrite str_app_cons. simpl. rewrite Hlf, Hcr.
    rewrite IH by done. by rewrite str_app_assoc.
Qed.

(** What follows a line feed is split on its own. *)
Lemma ledger_split_closed a cur p :
  ∃ front, ∀ b,
    Ledger.split_from (a +:+ String Ledger.LF b) cur p
    = front ++ Ledger.split_from b EmptyString false.
Proof.
  revert cur p. induction a as [ | c a IH]; intros cur p.
  - exists [cur]. intros b. rewrite str_app_nil_l. reflexivity.
  - destruct (Ascii.eqb c Ledger.LF) eqn:Hlf.
    + destruct (IH EmptyString false) as [front Hfront].
      exists (cur :: front). intros b.
      rewrite str_app_cons. simpl. rewrite Hlf. by rewrite Hfront.
    + destruct (Ascii.eqb c Ledger.CR) eqn:Hcr.
      * destruct (IH (if p then cur +:+ String Ledger.CR EmptyString else cur) true)
          as [front Hfront].
        exists front. intros b.
        rewrite str_app_cons. simpl. rewrite Hlf, Hcr. apply Hfront.
      * destruct (IH ((if p then cur +:+ String Ledger.CR EmptyString else cur)
                      +:+ String c EmptyString) false) as [front Hfront].
        exists front. intros b.
        rewrite str_app_cons. simpl. rewrite Hlf, Hcr. apply Hfront.
Qed.

Lemma ledger_endsWith_app s p :
  Ledger.endsWith s p = true → ∃ a, s = a +:+ p.
Proof.
  induction s as [ | c s IH]; intros H; cbn [Ledger.endsWith] in H.
  - apply orb_true_iff in H as [H | H]; [ | done].
    apply String.eqb_eq in H as <-. by exists EmptyString.
  - apply orb_true_iff in H as [H | H].
    + apply String.eqb_eq in H as <-. by exists EmptyString.
    + destruct (IH H) as [a ->]. by exists (String c a).
Qed.


(** The set the move-plan executor loads, line by line. *)
Lemma ledger_load_fold (ls : list string) (s0 : gset string) x :
  x ∈ foldl (λ set l, if Ledger.nonempty (Ledger.trim l)
                     then {[ Ledger.trim l ]} ∪ set else set) s0 ls
  ↔ x ∈ s0 ∨ ∃ l, l ∈ ls ∧ x = Ledger.trim l ∧ Ledger.nonempty x = true.
Proof.
  revert s0. induction ls as [ | l ls IH]; intros s0; simpl.
  - split; [by left | ]. intros [H | (l & Hl & _)]; [done | ].
    by apply elem_of_nil in Hl.
  - rewrite IH. split.
    + intros [H | (l' & Hl' & Hx)].
      * destruct (Ledger.nonempty (Ledger.trim l)) eqn:Hne; [ | by left].
        apply elem_of_union in H as [H | H]; [ | by left].
        apply elem_of_singleton in H as ->.
        right. exists l. split; [left | done].
      * right. exists l'. split; [by right | done].
    + intros [H | (l' & Hl' & -> & Hne)].
      * left. destruct (Ledger.nonempty (Ledger.trim l)); [ | done].
        apply elem_of_union. by right.
      * apply elem_of_cons in Hl' as [-> | Hl'].
        -- left. rewrite Hne. apply elem_of_union. left.
           by apply elem_of_singleton.
        -- right. by exists l'.
Qed.

(** The ledger read back after one more identifier was appended. *)
Lemma ledger_append_load (file : option string) (rid : string) :
  Ledger.line_closed file = true →
  Ledger.nonempty rid = true →
  Ledger.has_break rid = false →
  Ledger.trim rid = rid →
  Ledger.load_ledger (Ledger.append_rid file rid)
  = {[ rid ]} ∪ Ledger.load_ledger file.
Proof.
  intros Hclosed Hne Hbreak Htrim.
  assert (∃ front,
            Ledger.split_lines (default EmptyString file) = front ++ [EmptyString]
            ∧ Ledger.split_lines
                (default EmptyString file +:+ rid +:+ String Ledger.LF EmptyString)
              = front ++ [rid; EmptyString]) as (front & Hold & Hnew).
  { unfold Ledger.split_lines.
    assert (default EmptyString file = EmptyString
            ∨ ∃ a, default EmptyString file = a +:+ String Ledger.LF EmptyString)
      as [-> | [a ->]].
    { destruct file as [[ | c content] | ]; simpl in *; [by left | | by left].
      right. by apply ledger_endsWith_app. }
    - exists []. split; [done | ].
      rewrite str_app_nil_l, ledger_split_line by done.
      by rewrite str_app_nil_l.
    - destruct (ledger_split_closed a EmptyString false) as [front Hfront].
      exists front. split; [by rewrite Hfront | ].
      rewrite str_app_assoc, str_app_cons, str_app_nil_l, Hfront.
      rewrite ledger_split_line by done. by rewrite str_app_nil_l. }
  apply set_eq. intros x.
  rewrite elem_of_union, elem_of_singleton.
  unfold Ledger.append_rid. cbn [Ledger.load_ledger].
  rewrite ledger_load_fold, Hnew.
  assert (x ∈ Ledger.load_ledger file
          ↔ ∃ l, l ∈ front ++ [EmptyString] ∧ x = Ledger.trim l
                 ∧ Ledger.nonempty x = true) as ->.
  { destruct file as [content | ]; simpl in *.
    - rewrite ledger_load_fold, Hold.
      split; [intros [H | H]; [by apply not_elem_of_empty in H | done] | by right].
    - apply (f_equal List.length) in Hold. rewrite length_app in Hold.
      simpl in Hold. destruct front; [ | simpl in Hold; lia].
      split; [intros H; by apply not_elem_of_empty in H | ].
      intros (l & Hl & -> & Hx).
      apply list_elem_of_singleton in Hl as ->. done. }
  split.
  - intros [H | (l & Hl & -> & Hx)]; [by apply not_elem_of_empty in H | ].
    apply elem_of_app in Hl as [Hl | Hl].
    + right. exists l. split; [apply elem_of_app; by left | done].
    + apply elem_of_cons in Hl as [-> | Hl]; [left; by rewrite Htrim | ].
      right. exists l. split; [apply elem_of_app; by right | done].
  - intros [-> | (l & Hl & -> & Hx)]; right.
    + exists rid. split; [ | by rewrite Htrim].
      apply elem_of_app. right. left.
    + exists l. split; [ | done].
      apply elem_of_app in Hl as [Hl | Hl]; apply elem_of_app;
        [by left | right; by right].
Qed.

(** X3. Appending a row identifier to the completed ledger and loading
    the ledger again gives the set loaded before plus that identifier,
    when the file was absent, empty or ended with a line feed and the
    identifier holds no line break and none of the white space that
    [trim] removes (that of Unicode, and the line terminators) at either
    end. *)
Theorem ledger_append_then_load (file : option string) (rid : string) :
  Ledger.line_closed file = true →
  Ledger.nonempty rid = true →
  Ledger.has_break rid = false →
  Ledger.trim rid = rid →
  Ledger.load_ledger (Ledger.append_rid file rid)
  = {[ rid ]} ∪ Ledger.load_ledger file.
Proof. apply ledger_append_load. Qed.


(** An instance on sample data. *)
Lemma ledger_append_then_load_witness :
  Ledger.load_ledger (Ledger.append_rid Samples.ledger_file Samples.new_rid)
  = {[ Samples.new_rid ]} ∪ Ledger.load_ledger Samples.ledger_file.
Proof.
  apply ledger_append_then_load; vm_compute; reflexivity.
Defined.

Lemma ledger_trim_empty : Ledger.trim EmptyString = EmptyString.
Proof. reflexivity. Qed.













(** ** The prices of [fireblocks_analysis_v2.js] *)

Lemma num_is_finite (x : option float) : Js.Number_isFinite (Js.num x) = true.
Proof.
  destruct x as [n | ]; simpl; [ | reflexivity].
  destruct (Js.Number_isFinite n) eqn:Hn; [ | reflexivity].
  destruct (PrimFloat.is_zero n); [reflexivity | exact Hn].
Qed.

Lemma bool_decide_cons_ne (a x : string) (l : list string) :
  a ≠ x → bool_decide (a ∈ x :: l) = bool_decide (a ∈ l).
Proof.
  intros Hne. apply bool_decide_ext. rewrite elem_of_cons.
  split; [intros [H | H]; [done | done] | by right].
Qed.

Lemma v2_stable_pass_spec assets st a :
  let st' := AnalysisV2.stable_pass assets st in
  AnalysisV2.prices st' !! a
  = (if bool_decide (a ∈ assets) && AnalysisV2.isStable a then Some 1%float
     else AnalysisV2.prices st !! a)
  ∧ AnalysisV2.sources st' !! a
    = (if bool_decide (a ∈ assets) && AnalysisV2.isStable a
       then Some AnalysisV2.stable
       else AnalysisV2.sources st !! a).
Proof.
  unfold AnalysisV2.stable_pass. revert st.
  induction assets as [ | x assets IH]; intros st; simpl; [done | ].
  destruct (IH (if AnalysisV2.isStable x
                then AnalysisV2.set_price x 1%float AnalysisV2.stable st
                else st)) as [Hp Hs].
  rewrite Hp, Hs. clear IH Hp Hs.
  destruct (decide (a = x)) as [<- | Hne].
  - rewrite (bool_decide_eq_true_2 (a ∈ a :: assets)) by left. simpl.
    destruct (AnalysisV2.isStable a) eqn:Hst; simpl;
      rewrite ?andb_false_r, ?andb_true_r, ?lookup_insert_eq;
      by destruct (bool_decide (a ∈ assets)).
  - rewrite (bool_decide_cons_ne a x assets Hne).
    destruct (AnalysisV2.isStable x); simpl;
      rewrite ?lookup_insert_ne by done; done.
Qed.

Lemma has_prop_false {V} (m : gmap string V) a :
  has_prop m a = false ↔ m !! a = None ∧ Js.inherited a = false.
Proof.
  unfold has_prop, has. destruct (m !! a); simpl; [ | tauto].
  split; [done | by intros [? _]].
Qed.

Lemma has_prop_own {V} (m : gmap string V) a v :
  m !! a = Some v → has_prop m a = true.
Proof. intros H. unfold has_prop, has. by rewrite H. Qed.

(** A name every object inherits is one of twelve. *)
Lemma inherited_names a :
  Js.inherited a = true →
  a ∈ [ "constructor"; "__proto__"; "hasOwnProperty"; "isPrototypeOf";
        "propertyIsEnumerable"; "toLocaleString"; "toString"; "valueOf";
        "__defineGetter__"; "__defineSetter__"; "__lookupGetter__";
        "__lookupSetter__" ].
Proof.
  unfold Js.inherited. intros H. apply existsb_exists in H as (x & Hx & Heq).
  apply String.eqb_eq in Heq as <-. by apply list_elem_of_In.
Qed.

(** None of them is the identifier of a stable asset. *)
Lemma v2_stable_not_inherited a :
  AnalysisV2.isStable a = true → Js.inherited a = false.
Proof.
  intros Hst. destruct (Js.inherited a) eqn:Hi; [ | done].
  apply inherited_names in Hi.
  repeat (apply elem_of_cons in Hi as [-> | Hi];
          [vm_compute in Hst; discriminate Hst | ]).
  by apply elem_of_nil in Hi.
Qed.

Lemma v2_cached_pass_spec cache assets st a :
  let st' := AnalysisV2.cached_pass cache assets st in
  let hit := bool_decide (a ∈ assets) && negb (Js.inherited a)
             && PrimFloat.ltb 0 (Js.num (cache !! a)) in
  AnalysisV2.prices st' !! a
  = match AnalysisV2.prices st !! a with
    | Some v => Some v
    | None => if hit then Some (Js.num (cache !! a)) else None
    end
  ∧ AnalysisV2.sources st' !! a
    = match AnalysisV2.prices st !! a with
      | Some _ => AnalysisV2.sources st !! a
      | None => if hit then Some AnalysisV2.cached else AnalysisV2.sources st !! a
      end.
Proof.
  unfold AnalysisV2.cached_pass. revert st.
  induction assets as [ | x assets IH]; intros st; simpl.
  - by destruct (AnalysisV2.prices st !! a).
  - match goal with
    | |- context [foldl ?f ?s assets] => destruct (IH s) as [Hp Hs]
    end.
    rewrite Hp, Hs. clear IH Hp Hs.
    destruct (decide (a = x)) as [<- | Hne].
    + rewrite (bool_decide_eq_true_2 (a ∈ a :: assets)) by left. simpl.
      unfold has_prop, has.
      destruct (AnalysisV2.prices st !! a) as [v | ] eqn:Hv; simpl.
      * by rewrite Hv.
      * destruct (Js.inherited a); simpl.
        -- rewrite Hv, !andb_false_r. done.
        -- rewrite !andb_true_r.
           destruct (PrimFloat.ltb 0 (Js.num (cache !! a))) eqn:Hc; simpl.
           ++ by rewrite !lookup_insert_eq.
           ++ rewrite Hv, andb_false_r. done.
    + rewrite (bool_decide_cons_ne a x assets Hne).
      destruct (has_prop (AnalysisV2.prices st) x); [done | ].
      destruct (PrimFloat.ltb 0 (Js.num (cache !! x))); [ | done].
      simpl. by rewrite !lookup_insert_ne by done.
Qed.

Lemma v2_mark_unknown_spec assets st a :
  AnalysisV2.sources (AnalysisV2.mark_unknown assets st) !! a
  = match AnalysisV2.prices st !! a with
    | Some _ => AnalysisV2.sources st !! a
    | None => if bool_decide (a ∈ assets) && negb (Js.inherited a)
              then Some AnalysisV2.unknown
              else AnalysisV2.sources st !! a
    end.
Proof.
  unfold AnalysisV2.mark_unknown. revert st.
  induction assets as [ | x assets IH]; intros st; simpl.
  - by destruct (AnalysisV2.prices st !! a).
  - rewrite IH. clear IH.
    destruct (decide (a = x)) as [<- | Hne].
    + rewrite (bool_decide_eq_true_2 (a ∈ a :: assets)) by left.
      unfold has_prop, has.
      destruct (AnalysisV2.prices st !! a) eqn:Hv; simpl; [by rewrite Hv | ].
      destruct (Js.inherited a); simpl.
      * rewrite Hv, andb_false_r. done.
      * rewrite Hv, lookup_insert_eq. by destruct (bool_decide (a ∈ assets)).
    + rewrite (bool_decide_cons_ne a x assets Hne).
      destruct (has_prop (AnalysisV2.prices st) x); [done | ].
      simpl. by rewrite lookup_insert_ne by done.
Qed.

Lemma price_extension_refl pairs st : price_extension pairs st st.
Proof.
  intros a. destruct (AnalysisV2.prices st !! a) eqn:Hp; [done | by left].
Qed.

Lemma price_extension_trans pairs st1 st2 st3 :
  price_extension pairs st1 st2 → price_extension pairs st2 st3 →
  price_extension pairs st1 st3.
Proof.
  intros H12 H23 a. specialize (H12 a). specialize (H23 a).
  destruct (AnalysisV2.prices st1 !! a) as [v | ].
  - destruct H12 as [Hp Hs]. rewrite Hp in H23. destruct H23 as [Hp' Hs'].
    split; [done | congruence].
  - destruct H12 as [[Hp Hs] | (v & cg & Hp & Hs & Hv)].
    + rewrite Hp in H23. destruct H23 as [[Hp' Hs'] | (v & cg & Hp' & Hs' & Hv)].
      * left. split; [done | congruence].
      * right. by exists v, cg.
    + rewrite Hp in H23. destruct H23 as [Hp' Hs'].
      right. exists v, cg. split; [done | ]. split; [congruence | done].
Qed.

Lemma v2_fetch_pairs_extension (json : gmap string float)
    (pairs all : list (string * string)) st :
  (∀ p, p ∈ pairs → p ∈ all) →
  price_extension all st
    (foldl (λ st '(asset, cgid),
              if has_prop (AnalysisV2.prices st) asset then st
              else if PrimFloat.ltb 0 (Js.num (json !! cgid))
                   then AnalysisV2.set_price asset (Js.num (json !! cgid))
                          AnalysisV2.coingecko st
                   else st)
           st pairs).
Proof.
  revert st. induction pairs as [ | [asset cgid] pairs IH]; intros st Hall; simpl.
  - apply price_extension_refl.
  - eapply price_extension_trans;
      [ | apply IH; intros p Hp; apply Hall; by right].
    destruct (has_prop (AnalysisV2.prices st) asset) eqn:Hh;
      [apply price_extension_refl | ].
    destruct (PrimFloat.ltb 0 (Js.num (json !! cgid))) eqn:Hpos;
      [ | apply price_extension_refl].
    apply has_prop_false in Hh as [Hh Hi]. intros a. simpl.
    destruct (decide (a = asset)) as [-> | Hne].
    + rewrite Hh, !lookup_insert_eq. right.
      exists (Js.num (json !! cgid)), cgid.
      repeat split; [done | apply num_is_finite | done | apply Hall; left].
    + rewrite !lookup_insert_ne by done.
      destruct (AnalysisV2.prices st !! a); [done | by left].
Qed.

Lemma v2_fetch_chunk_extension fetchJson pairs st chunk :
  price_extension pairs st (AnalysisV2.fetch_chunk fetchJson pairs st chunk).
Proof.
  unfold AnalysisV2.fetch_chunk.
  destruct (fetchJson chunk) as [json | ]; [ | apply price_extension_refl].
  by apply v2_fetch_pairs_extension.
Qed.

Lemma v2_fetch_all_extension fetchJson pairs st chunks :
  price_extension pairs st
    (foldl (AnalysisV2.fetch_chunk fetchJson pairs) st chunks).
Proof.
  revert st. induction chunks as [ | chunk chunks IH]; intros st; simpl.
  - apply price_extension_refl.
  - eapply price_extension_trans; [apply v2_fetch_chunk_extension | apply IH].
Qed.

Lemma v2_pairs_of_inv map assets st a cg :
  (a, cg) ∈ AnalysisV2.pairs_of map assets st →
  a ∈ assets ∧ truthy (map !! a) = Some cg
  ∧ AnalysisV2.prices st !! a = None ∧ Js.inherited a = false.
Proof.
  unfold AnalysisV2.pairs_of.
  assert (∀ acc,
            (a, cg) ∈ foldl (λ pairs a,
                               if has_prop (AnalysisV2.prices st) a then pairs
                               else match truthy (map !! a) with
                                    | Some cg => pairs ++ [(a, cg)]
                                    | None => pairs
                                    end) acc assets →
            (a, cg) ∈ acc
            ∨ (a ∈ assets ∧ truthy (map !! a) = Some cg
               ∧ AnalysisV2.prices st !! a = None
               ∧ Js.inherited a = false)) as Hacc.
  { induction assets as [ | x assets IH]; intros acc; simpl; [by left | ].
    intros H. apply IH in H as [H | (Hin & Ht & Hp)].
    - destruct (has_prop (AnalysisV2.prices st) x) eqn:Hh; [by left | ].
      destruct (truthy (map !! x)) as [cgx | ] eqn:Hx; [ | by left].
      apply elem_of_app in H as [H | H]; [by left | ].
      apply list_elem_of_singleton in H. injection H as -> ->.
      right. split; [left | ]. split; [done | by apply has_prop_false].
    - right. split; [by right | done]. }
  intros H. apply Hacc in H as [H | H]; [by apply elem_of_nil in H | done].
Qed.

(** The result of [getPrices], asset by asset. *)
Lemma v2_getPrices_spec env cacheFile fetchJson assets a :
  let P := (AnalysisV2.getPrices env cacheFile fetchJson assets).1 in
  match base_price (default ∅ cacheFile) assets a with
  | Some v =>
      AnalysisV2.prices P !! a = Some v
      ∧ AnalysisV2.sources P !! a
        = Some (if AnalysisV2.isStable a then AnalysisV2.stable
                else AnalysisV2.cached)
  | None =>
      (AnalysisV2.prices P !! a = None
       ∧ AnalysisV2.sources P !! a
         = if bool_decide (a ∈ assets) && negb (Js.inherited a)
           then Some AnalysisV2.unknown else None)
      ∨ (∃ v cg,
           AnalysisV2.prices P !! a = Some v
           ∧ AnalysisV2.sources P !! a = Some AnalysisV2.coingecko
           ∧ PrimFloat.ltb 0 v = true
           ∧ Js.Number_isFinite v = true
           ∧ AnalysisV2.OFFLINE env = false
           ∧ a ∈ assets
           ∧ Js.inherited a = false
           ∧ truthy (AnalysisV2.map env !! a) = Some cg)
  end.
Proof.
  intros P. subst P. unfold AnalysisV2.getPrices.
  set (st0 := AnalysisV2.stable_pass assets (AnalysisV2.mkPrices ∅ ∅)).
  set (st1 := AnalysisV2.cached_pass (default ∅ cacheFile) assets st0).
  destruct (v2_stable_pass_spec assets (AnalysisV2.mkPrices ∅ ∅) a) as [Hp0 Hs0].
  destruct (v2_cached_pass_spec (default ∅ cacheFile) assets st0 a) as [Hp1 Hs1].
  fold st0 in Hp0, Hs0. fold st1 in Hp1, Hs1.
  simpl in Hp0, Hs0. rewrite lookup_empty in Hp0. rewrite lookup_empty in Hs0.
  rewrite Hp0 in Hp1, Hs1. rewrite Hs0 in Hs1. clear Hp0 Hs0.
  assert (AnalysisV2.prices st1 !! a = base_price (default ∅ cacheFile) assets a
          ∧ AnalysisV2.sources st1 !! a
            = match base_price (default ∅ cacheFile) assets a with
              | Some _ => Some (if AnalysisV2.isStable a then AnalysisV2.stable
                                else AnalysisV2.cached)
              | None => None
              end) as [Hp Hs].
  { unfold base_price. rewrite Hp1, Hs1.
    destruct (bool_decide (a ∈ assets)), (AnalysisV2.isStable a); simpl; try done.
    by destruct (negb (Js.inherited a)
                 && PrimFloat.ltb 0 (Js.num (default ∅ cacheFile !! a))). }
  clear Hp1 Hs1.
  destruct (AnalysisV2.OFFLINE env) eqn:Hoff; simpl.
  - rewrite v2_mark_unknown_prices, v2_mark_unknown_spec, Hp, Hs.
    destruct (base_price (default ∅ cacheFile) assets a); [done | by left].
  - rewrite v2_mark_unknown_prices, v2_mark_unknown_spec.
    set (pairs := AnalysisV2.pairs_of (AnalysisV2.map env) assets st1).
    pose proof (v2_fetch_all_extension fetchJson pairs st1
                  (chunks 150 (uniq pairs.*2)) a) as Hext.
    rewrite Hp, Hs in Hext.
    destruct (base_price (default ∅ cacheFile) assets a) as [v | ].
    + destruct Hext as [-> ->]. done.
    + destruct Hext as [[-> ->] | (v & cg & -> & -> & Hv & Hf & Hi & Hin)].
      * by left.
      * right. apply v2_pairs_of_inv in Hin as (Hin & Ht & _).
        by exists v, cg.
Qed.

(** A positive double is not a zero, so [num] returns it unchanged. *)
Lemma num_positive_id (v : float) :
  PrimFloat.ltb 0 v = true → Js.Number_isFinite v = true →
  Js.num (Some v) = v.
Proof.
  intros Hpos Hfin. simpl. rewrite Hfin.
  assert (PrimFloat.is_zero v = false) as ->; [ | done].
  unfold PrimFloat.is_zero. rewrite FloatAxioms.eqb_spec.
  rewrite FloatAxioms.ltb_spec in Hpos.
  change (Prim2SF 0) with (S754_zero false) in Hpos.
  change (Prim2SF PrimFloat.zero) with (S754_zero false).
  unfold SFeqb. unfold SFltb in Hpos.
  destruct (Prim2SF v) as [s | s | | s m e]; simpl in *;
    try discriminate; by destruct s.
Qed.

(** Every price of a run is positive and finite. *)
Lemma v2_price_positive env cacheFile fetchJson assets a v :
  AnalysisV2.prices (AnalysisV2.getPrices env cacheFile fetchJson assets).1 !! a
  = Some v →
  PrimFloat.ltb 0 v = true ∧ Js.Number_isFinite v = true ∧ a ∈ assets.
Proof.
  intros Hp.
  pose proof (v2_getPrices_spec env cacheFile fetchJson assets a) as Hspec.
  simpl in Hspec. unfold base_price in Hspec.
  destruct (bool_decide (a ∈ assets)) eqn:Hin; simpl in Hspec.
  - apply bool_decide_eq_true in Hin.
    destruct (AnalysisV2.isStable a).
    + destruct Hspec as [Hp' _]. rewrite Hp' in Hp. injection Hp as <-.
      split; [reflexivity | ]. split; [reflexivity | done].
    + destruct (negb (Js.inherited a)
                && PrimFloat.ltb 0 (Js.num (default ∅ cacheFile !! a))) eqn:Hc.
      * destruct Hspec as [Hp' _]. rewrite Hp' in Hp. injection Hp as <-.
        apply andb_true_iff in Hc as [_ Hc].
        split; [done | ]. split; [apply num_is_finite | done].
      * destruct Hspec as [[Hp' _] | (v' & cg & Hp' & _ & Hv & Hf & _)];
          [congruence | ].
        rewrite Hp' in Hp. injection Hp as <-. done.
  - destruct Hspec as [[Hp' _] | (v' & cg & _ & _ & _ & _ & _ & Hin' & _)];
      [congruence | ].
    apply bool_decide_eq_false in Hin. done.
Qed.

(** X5. Every price [getPrices] returns is a finite number above zero,
    and it is the price of one of the assets asked for. *)
Theorem v2_prices_are_positive env cacheFile fetchJson assets a v :
  AnalysisV2.prices (AnalysisV2.getPrices env cacheFile fetchJson assets).1 !! a
  = Some v →
  PrimFloat.ltb 0 v = true ∧ Js.Number_isFinite v = true ∧ a ∈ assets.
Proof. apply v2_price_positive. Qed.

(** An instance on sample data. *)
Lemma v2_prices_are_positive_witness :
  PrimFloat.ltb 0 10 = true ∧ Js.Number_isFinite 10 = true
  ∧ "BTC" ∈ ["BTC"; "XYZ"].
Proof.
  apply (v2_prices_are_positive Examples.env_min (Some Examples.cache)
           Examples.no_network ["BTC"; "XYZ"] "BTC" 10%float).
  vm_compute. reflexivity.
Defined.

(** X6. [getPrices] records a source for the assets asked for, except
    those named like a member of [Object.prototype], for which the test
    [prices[a]==null] never holds: these get no source and no price.  The
    source is "unknown" exactly when such an asset got no price, and
    "stable" exactly for the stable assets. *)
Theorem v2_sources_follow_prices env cacheFile fetchJson assets a :
  let P := (AnalysisV2.getPrices env cacheFile fetchJson assets).1 in
  (is_Some (AnalysisV2.sources P !! a) ↔ a ∈ assets ∧ Js.inherited a = false)
  ∧ (AnalysisV2.sources P !! a = Some AnalysisV2.unknown
     ↔ a ∈ assets ∧ Js.inherited a = false ∧ AnalysisV2.prices P !! a = None)
  ∧ (AnalysisV2.sources P !! a = Some AnalysisV2.stable
     ↔ a ∈ assets ∧ AnalysisV2.isStable a = true)
  ∧ (Js.inherited a = true → AnalysisV2.prices P !! a = None).
Proof.
  intros P.
  pose proof (v2_getPrices_spec env cacheFile fetchJson assets a) as Hspec.
  pose proof (v2_stable_not_inherited a) as Hsi.
  simpl in Hspec. fold P in Hspec. unfold base_price in Hspec.
  destruct (bool_decide (a ∈ assets)) eqn:Hin; simpl in Hspec.
  - apply bool_decide_eq_true in Hin.
    destruct (AnalysisV2.isStable a) eqn:Hst.
    + specialize (Hsi eq_refl). destruct Hspec as [Hp Hs]. rewrite Hp, Hs, Hsi.
      repeat split; intros; try done; try (by eexists); intuition congruence.
    + clear Hsi. destruct (Js.inherited a) eqn:Hi; simpl in Hspec.
      * destruct Hspec as [[Hp Hs] | (v & cg & _ & _ & _ & _ & _ & _ & Hi' & _)];
          [ | done].
        rewrite Hp, Hs.
        repeat split; intros; try done; try (by eexists);
          try (by destruct H as [? ?]); intuition congruence.
      * destruct (PrimFloat.ltb 0 (Js.num (default ∅ cacheFile !! a))).
        -- destruct Hspec as [Hp Hs]. rewrite Hp, Hs.
           repeat split; intros; try done; try (by eexists); intuition congruence.
        -- destruct Hspec as [[Hp Hs] | (v & cg & Hp & Hs & _)]; rewrite Hp, Hs;
             repeat split; intros; try done; try (by eexists);
             intuition congruence.
  - apply bool_decide_eq_false in Hin. clear Hsi.
    destruct Hspec as [[Hp Hs] | (v & cg & _ & _ & _ & _ & _ & Hin' & _)];
      [ | done].
    rewrite Hp, Hs.
    repeat split; intros; try done; try (by eexists);
      try (by destruct H as [? ?]); intuition congruence.
Qed.

Lemma v2_fetch_all_fails fetchJson pairs st chunks :
  (∀ chunk, fetchJson chunk = None) →
  foldl (AnalysisV2.fetch_chunk fetchJson pairs) st chunks = st.
Proof.
  intros Hfail. induction chunks as [ | chunk chunks IH]; simpl; [done | ].
  unfold AnalysisV2.fetch_chunk at 2. by rewrite Hfail.
Qed.

(** X7. The stable rule and the cache come before the price service,
    whatever it answers: a stable asset is priced 1, and a non-stable
    asset with a positive cached price keeps that price, unless it is
    named like a member of [Object.prototype], in which case the test
    [prices[a]!=null] skips it.  An asset with neither a stable name nor
    a positive cached price is left without a price when the run is
    offline or when every request fails. *)
Theorem v2_stable_and_cache_come_first env cacheFile fetchJson assets a :
  a ∈ assets →
  let P := (AnalysisV2.getPrices env cacheFile fetchJson assets).1 in
  let cached := Js.num (default ∅ cacheFile !! a) in
  (AnalysisV2.isStable a = true →
   AnalysisV2.prices P !! a = Some 1%float)
  ∧ (AnalysisV2.isStable a = false → Js.inherited a = false →
     PrimFloat.ltb 0 cached = true →
     AnalysisV2.prices P !! a = Some cached
     ∧ AnalysisV2.sources P !! a = Some AnalysisV2.cached)
  ∧ (AnalysisV2.isStable a = false → PrimFloat.ltb 0 cached = false →
     AnalysisV2.OFFLINE env = true ∨ (∀ chunk, fetchJson chunk = None) →
     AnalysisV2.prices P !! a = None).
Proof.
  intros Hin P cached.
  pose proof (v2_getPrices_spec env cacheFile fetchJson assets a) as Hspec.
  simpl in Hspec. fold P in Hspec. unfold base_price in Hspec.
  rewrite (bool_decide_eq_true_2 _ Hin) in Hspec. simpl in Hspec.
  fold cached in Hspec.
  split; [ | split].
  - intros Hst. rewrite Hst in Hspec. tauto.
  - intros Hst Hi Hc. rewrite Hst, Hi, Hc in Hspec. done.
  - intros Hst Hc Hnet. rewrite Hst, Hc, andb_false_r in Hspec.
    destruct Hspec as [[Hp _] | (v & cg & Hp & _ & _ & _ & Hoff & _)]; [done | ].
    destruct Hnet as [Hoff' | Hfail]; [congruence | ].
    exfalso. subst P. unfold AnalysisV2.getPrices in Hp.
    rewrite Hoff in Hp. simpl in Hp.
    rewrite v2_mark_unknown_prices, v2_fetch_all_fails in Hp by done.
    destruct (v2_cached_pass_spec (default ∅ cacheFile) assets
                (AnalysisV2.stable_pass assets (AnalysisV2.mkPrices ∅ ∅)) a)
      as [Hp1 _].
    destruct (v2_stable_pass_spec assets (AnalysisV2.mkPrices ∅ ∅) a) as [Hp0 _].
    simpl in Hp0, Hp1. rewrite Hp0 in Hp1. rewrite Hst, andb_false_r in Hp1.
    rewrite lookup_empty in Hp1. fold cached in Hp1.
    rewrite Hc, andb_false_r in Hp1. congruence.
Qed.

(** An instance on sample data. *)
Lemma v2_stable_and_cache_come_first_witness :
  AnalysisV2.prices
    (AnalysisV2.getPrices Examples.env_min (Some Examples.cache)
       Examples.no_network ["BTC"; "XYZ"]).1 !! "BTC"
  = Some 10%float.
Proof.
  apply (proj1 (proj2 (v2_stable_and_cache_come_first Examples.env_min
                         (Some Examples.cache) Examples.no_network
                         ["BTC"; "XYZ"] "BTC" ltac:(left))));
    vm_compute; reflexivity.
Defined.

(** X8. The cache written by a run brings the same prices back: a later
    run over the same assets, offline and reading the file the first run
    left, resolves for every asset the price the first run resolved. *)
Theorem v2_cache_round_trip env cacheFile fetchJson assets env' fetchJson' a :
  AnalysisV2.OFFLINE env' = true →
  let first := AnalysisV2.getPrices env cacheFile fetchJson assets in
  AnalysisV2.prices (AnalysisV2.getPrices env' first.2 fetchJson' assets).1 !! a
  = AnalysisV2.prices first.1 !! a.
Proof.
  intros Hoff' first.
  pose proof (v2_getPrices_spec env' first.2 fetchJson' assets a) as H2.
  pose proof (v2_getPrices_spec env cacheFile fetchJson assets a) as H1.
  pose proof (Hafter := v2_cache_after env cacheFile fetchJson assets).
  simpl in H1, H2. fold first in H1, Hafter.
  assert (AnalysisV2.prices
            (AnalysisV2.getPrices env' first.2 fetchJson' assets).1 !! a
          = base_price (default ∅ first.2) assets a) as ->.
  { destruct (base_price (default ∅ first.2) assets a); [tauto | ].
    destruct H2 as [[Hp _] | (v & cg & _ & _ & _ & _ & Hoff & _)]; [done | ].
    congruence. }
  clear H2.
  assert (∀ v, AnalysisV2.prices first.1 !! a = Some v →
               PrimFloat.ltb 0 v = true ∧ Js.Number_isFinite v = true) as Hpos.
  { intros v Hv.
    destruct (v2_price_positive env cacheFile fetchJson assets a v Hv)
      as (? & ? & _). done. }
  assert (default ∅ first.2 !! a
          = if AnalysisV2.OFFLINE env then default ∅ cacheFile !! a
            else match AnalysisV2.prices first.1 !! a with
                 | Some v => Some v
                 | None => default ∅ cacheFile !! a
                 end) as Hfile.
  { rewrite Hafter.
    destruct (AnalysisV2.OFFLINE env); [done | ]. simpl.
    destruct (AnalysisV2.prices first.1 !! a) as [v | ] eqn:Hv.
    - by apply lookup_union_Some_l.
    - by apply lookup_union_r. }
  clear Hafter.
  unfold base_price in *. rewrite Hfile. clear Hfile.
  destruct (bool_decide (a ∈ assets)) eqn:Hin; simpl in *.
  - destruct (AnalysisV2.isStable a); [symmetry; tauto | ].
    destruct (Js.inherited a) eqn:Hi; simpl in *.
    + destruct H1 as [[H1 _] | (v & cg & _ & _ & _ & _ & _ & _ & Hi' & _)];
        [by rewrite H1 | done].
    + destruct (AnalysisV2.OFFLINE env) eqn:Hoff.
      * destruct (PrimFloat.ltb 0 (Js.num (default ∅ cacheFile !! a)));
          [symmetry; tauto | ].
        destruct H1 as [[H1 _] | (v & cg & _ & _ & _ & _ & Hoff1 & _)];
          congruence.
      * destruct (AnalysisV2.prices first.1 !! a) as [v | ] eqn:Hv.
        -- destruct (Hpos v eq_refl) as [Hv0 Hvf].
           rewrite (num_positive_id v Hv0 Hvf), Hv0. done.
        -- destruct (PrimFloat.ltb 0 (Js.num (default ∅ cacheFile !! a)));
             [ | done].
           destruct H1 as [H1 _]. congruence.
  - destruct H1 as [[H1 _] | (v & cg & _ & _ & _ & _ & _ & Hin' & _)];
      [by rewrite H1 | ].
    apply bool_decide_eq_false in Hin. done.
Qed.

(** An instance on sample data. *)
Lemma v2_cache_round_trip_witness :
  AnalysisV2.prices
    (AnalysisV2.getPrices Examples.env_offline
       (AnalysisV2.getPrices Examples.env_online (Some Examples.old_cache)
          Examples.bitcoin_service ["BTC"; "XYZ"]).2
       Examples.no_network ["BTC"; "XYZ"]).1 !! "BTC"
  = AnalysisV2.prices
      (AnalysisV2.getPrices Examples.env_online (Some Examples.old_cache)
         Examples.bitcoin_service ["BTC"; "XYZ"]).1 !! "BTC".
Proof.
  apply (v2_cache_round_trip Examples.env_online (Some Examples.old_cache)
           Examples.bitcoin_service ["BTC"; "XYZ"] Examples.env_offline
           Examples.no_network "BTC").
  reflexivity.
Defined.

(** ** Batches of requests, assets in scope, tallies *)

Lemma set_add_spec x s y : y ∈ set_add x s ↔ y = x ∨ y ∈ s.
Proof.
  unfold set_add. case_bool_decide as Hx.
  - split; [by right | ]. intros [-> | H]; done.
  - rewrite elem_of_app, list_elem_of_singleton. tauto.
Qed.

Lemma set_add_NoDup x s : NoDup s → NoDup (set_add x s).
Proof.
  intros Hs. unfold set_add. case_bool_decide as Hx; [done | ].
  apply NoDup_app. split; [done | ]. split; [ | apply NoDup_singleton].
  intros y Hy Hy'. apply list_elem_of_singleton in Hy' as ->. done.
Qed.

Lemma uniq_acc_spec l acc :
  NoDup acc →
  NoDup (foldl (λ s x, set_add x s) acc l)
  ∧ ∀ y, y ∈ foldl (λ s x, set_add x s) acc l ↔ y ∈ acc ∨ y ∈ l.
Proof.
  revert acc. induction l as [ | x l IH]; intros acc Hacc; simpl.
  - split; [done | ]. intros y. split; [by left | ].
    intros [H | H]; [done | by apply elem_of_nil in H].
  - destruct (IH (set_add x acc) (set_add_NoDup x acc Hacc)) as [Hnd Hin].
    split; [done | ]. intros y. rewrite Hin, set_add_spec, elem_of_cons. tauto.
Qed.

Lemma uniq_spec l : NoDup (uniq l) ∧ ∀ y, y ∈ uniq l ↔ y ∈ l.
Proof.
  destruct (uniq_acc_spec l [] (NoDup_nil_2)) as [Hnd Hin].
  split; [done | ]. intros y. rewrite (Hin y). split; [ | by right].
  intros [H | H]; [by apply elem_of_nil in H | done].
Qed.






Lemma v2_collect_assets_acc completed plan cands assets :
  (foldl (AnalysisV2.collect_step completed) (cands, assets) plan).2
  = foldl (λ s x, set_add x s) assets (assetId <$> plan).
Proof.
  revert cands assets. induction plan as [ | r plan IH]; intros cands assets;
    simpl; [done | ].
  case_bool_decide; by rewrite IH.
Qed.

(** X10. The assets [fireblocks_analysis_v2.js] asks prices for are the
    assets of all plan rows, completed rows included, each once. *)
Theorem v2_assets_in_scope completed plan :
  (AnalysisV2.collect completed plan).2 = uniq (assetId <$> plan)
  ∧ NoDup (AnalysisV2.collect completed plan).2
  ∧ ∀ a, a ∈ (AnalysisV2.collect completed plan).2
         ↔ ∃ r, r ∈ plan ∧ assetId r = a.
Proof.
  assert ((AnalysisV2.collect completed plan).2 = uniq (assetId <$> plan)) as Heq.
  { unfold AnalysisV2.collect. by rewrite v2_collect_assets_acc. }
  rewrite Heq. split; [done | ].
  destruct (uniq_spec (assetId <$> plan)) as [Hnd Hin].
  split; [done | ]. intros a. rewrite Hin, list_elem_of_fmap.
  split; intros (r & H1 & H2); exists r; done.
Qed.

Lemma v2_tally_acc rows t k :
  let t' := foldl V2Totals.tally_step t rows in
  V2Totals.rowsByReason t' k
  = (V2Totals.rowsByReason t k
     + List.length (List.filter (λ x, bool_decide (AnalysisV2.reason x = k)) rows))%nat
  ∧ ∀ w, w ∈ V2Totals.walletsByReason t' k
         ↔ w ∈ V2Totals.walletsByReason t k
           ∨ ∃ x, x ∈ rows ∧ AnalysisV2.reason x = k
                  ∧ sourceVaultId (row_of x) = w.
Proof.
  revert t. induction rows as [ | x rows IH]; intros t; simpl.
  - split; [lia | ]. intros w. split; [by left | ].
    intros [H | (x & Hx & _)]; [done | by apply elem_of_nil in Hx].
  - destruct (IH (V2Totals.tally_step t x)) as [Hrows Hwallets].
    split.
    + rewrite Hrows. simpl. unfold V2Totals.upd.
      destruct (decide (k = AnalysisV2.reason x)) as [-> | Hne].
      * rewrite bool_decide_eq_true_2 by done. simpl. lia.
      * rewrite bool_decide_eq_false_2 by congruence. lia.
    + intros w. rewrite Hwallets. simpl. unfold V2Totals.upd.
      destruct (decide (k = AnalysisV2.reason x)) as [-> | Hne].
      * rewrite elem_of_union, elem_of_singleton. split.
        -- intros [[-> | H] | (y & Hy & Hk & Hw)].
           ++ right. exists x. split; [left | done].
           ++ by left.
           ++ right. exists y. split; [by right | done].
        -- intros [H | (y & Hy & Hk & Hw)]; [left; by right | ].
           apply elem_of_cons in Hy as [-> | Hy]; [left; by left | ].
           right. by exists y.
      * split.
        -- intros [H | (y & Hy & Hk & Hw)]; [by left | ].
           right. exists y. split; [by right | done].
        -- intros [H | (y & Hy & Hk & Hw)]; [by left | ].
           apply elem_of_cons in Hy as [-> | Hy]; [congruence | ].
           right. by exists y.
Qed.

Lemma v2_reason_partition (rows : list AnalysisV2.ClassifiedRow) :
  (List.length (List.filter (λ x, bool_decide (AnalysisV2.reason x = AnalysisV2.READY_TO_EXECUTE)) rows)
   + List.length (List.filter (λ x, bool_decide (AnalysisV2.reason x = AnalysisV2.NEEDS_GAS)) rows)
   + List.length (List.filter (λ x, bool_decide (AnalysisV2.reason x = AnalysisV2.BELOW_MIN)) rows)
   + List.length (List.filter (λ x, bool_decide (AnalysisV2.reason x = AnalysisV2.UNKNOWN_PRICE)) rows))%nat
  = List.length rows.
Proof.
  induction rows as [ | x rows IH]; [done | ].
  simpl. destruct (AnalysisV2.reason x); simpl; lia.
Qed.

(** X11. Every remaining row is counted under exactly one reason: the
    four row counts add up to the number of remaining rows, which is the
    number of plan rows outside the completed set, and the wallets
    counted under a reason are exactly the sources of the rows with that
    reason. *)
Theorem v2_tallies_partition_the_remaining_rows
    env completed plan cacheFile fetchJson :
  let out := AnalysisV2.main env completed plan cacheFile fetchJson in
  let t := V2Totals.tally (AnalysisV2.remaining out) in
  (V2Totals.rowsByReason t AnalysisV2.READY_TO_EXECUTE
   + V2Totals.rowsByReason t AnalysisV2.NEEDS_GAS
   + V2Totals.rowsByReason t AnalysisV2.BELOW_MIN
   + V2Totals.rowsByReason t AnalysisV2.UNKNOWN_PRICE)%nat
  = List.length (filter (λ p, rowIdOf p ∉ completed) plan)
  ∧ (∀ k, V2Totals.rowsByReason t k = AnalysisV2.rowsByReason out k)
  ∧ (∀ k w, w ∈ V2Totals.walletsByReason t k
            ↔ ∃ x, x ∈ AnalysisV2.remaining out ∧ AnalysisV2.reason x = k
                   ∧ sourceVaultId (row_of x) = w).
Proof.
  intros out t.
  assert (∀ k, V2Totals.rowsByReason t k = AnalysisV2.rowsByReason out k) as Hk.
  { intros k. destruct (v2_tally_acc (AnalysisV2.remaining out) V2Totals.start k)
      as [Hrows _]. apply Hrows. }
  split; [ | split; [exact Hk | ]].
  - rewrite !Hk. unfold AnalysisV2.rowsByReason.
    rewrite v2_reason_partition.
    unfold out, AnalysisV2.main.
    pose proof (v2_collect_candidates completed plan) as Hc.
    destruct (AnalysisV2.collect completed plan) as [cands assets].
    destruct (AnalysisV2.getPrices env cacheFile fetchJson assets) as [P file].
    simpl in *. by rewrite Hc, length_map, length_fmap.
  - intros k w.
    destruct (v2_tally_acc (AnalysisV2.remaining out) V2Totals.start k)
      as [_ Hw].
    unfold t, V2Totals.tally. rewrite (Hw w). simpl. split; [ | by right].
    intros [H | H]; [by apply not_elem_of_empty in H | done].
Qed.

(** ** The three price modes of [fb_analyze_inventory.js] *)

Lemma inv_apply_overrides_spec t ids (acc : gmap string float) a :
  foldl (λ prices a,
           match AnalyzeInventory.overrides t !! a with
           | Some v => <[a := v]> prices
           | None => prices
           end) acc ids !! a
  = if bool_decide (a ∈ ids)
    then match AnalyzeInventory.overrides t !! a with
         | Some v => Some v
         | None => acc !! a
         end
    else acc !! a.
Proof.
  revert acc. induction ids as [ | x ids IH]; intros acc; simpl; [done | ].
  rewrite IH. clear IH. destruct (decide (a = x)) as [<- | Hne].
  - rewrite (bool_decide_eq_true_2 (a ∈ a :: ids)) by left.
    destruct (AnalyzeInventory.overrides t !! a) as [v | ] eqn:Ho.
    + rewrite lookup_insert_eq. by destruct (bool_decide (a ∈ ids)).
    + by destruct (bool_decide (a ∈ ids)).
  - rewrite (bool_decide_cons_ne a x ids Hne).
    destruct (AnalyzeInventory.overrides t !! x); [ | done].
    by rewrite lookup_insert_ne.
Qed.

Lemma inv_apply_cache_spec t ids (prices : gmap string float) a :
  AnalyzeInventory.apply_cache t ids prices !! a
  = match prices !! a with
    | Some v => Some v
    | None => if bool_decide (a ∈ ids)
              then AnalyzeInventory.cachedPrices t !! a else None
    end.
Proof.
  unfold AnalyzeInventory.apply_cache. revert prices.
  induction ids as [ | x ids IH]; intros prices; simpl.
  - by destruct (prices !! a).
  - rewrite IH. clear IH. destruct (decide (a = x)) as [<- | Hne].
    + rewrite (bool_decide_eq_true_2 (a ∈ a :: ids)) by left.
      unfold has. destruct (prices !! a) as [v | ] eqn:Hp; [by rewrite Hp | ].
      destruct (AnalyzeInventory.cachedPrices t !! a) as [c | ] eqn:Hc.
      * by rewrite lookup_insert_eq.
      * rewrite Hp. by destruct (bool_decide (a ∈ ids)).
    + rewrite (bool_decide_cons_ne a x ids Hne).
      destruct (has prices x); [done | ].
      destruct (AnalyzeInventory.cachedPrices t !! x); [ | done].
      by rewrite lookup_insert_ne.
Qed.

(** X12. Offline, [loadPricesUsd] prices exactly the inventory assets
    that have an override, with the override; in cache mode an inventory
    asset without override gets its cached price; no asset outside the
    inventory is priced, and neither mode writes the cache or calls the
    price service.  This is said of every asset whose name is not the
    name of a member every object inherits: for such a name the tests
    [overrides[a] !== undefined] and [prices[a] !== undefined] hold
    without an entry of the table. *)
Theorem inv_offline_and_cache_modes t httpGetJson assetIds :
  (∃ prices,
     AnalyzeInventory.loadPricesUsd AnalyzeInventory.offline t httpGetJson assetIds
     = AnalyzeInventory.Returned prices None
     ∧ ∀ a, Js.inherited a = false →
            prices !! a
            = if bool_decide (a ∈ assetIds)
              then AnalyzeInventory.overrides t !! a else None)
  ∧ (∃ prices,
       AnalyzeInventory.loadPricesUsd AnalyzeInventory.cache t httpGetJson assetIds
       = AnalyzeInventory.Returned prices None
       ∧ ∀ a, Js.inherited a = false →
              prices !! a
              = if bool_decide (a ∈ assetIds)
                then match AnalyzeInventory.overrides t !! a with
                     | Some v => Some v
                     | None => AnalyzeInventory.cachedPrices t !! a
                     end
                else None).
Proof.
  split; eexists; (split; [reflexivity | ]); intros a _.
  - unfold AnalyzeInventory.apply_overrides. rewrite inv_apply_overrides_spec.
    rewrite lookup_empty. by destruct (_ !! a), (bool_decide _).
  - rewrite inv_apply_cache_spec.
    unfold AnalyzeInventory.apply_overrides. rewrite inv_apply_overrides_spec.
    rewrite lookup_empty.
    destruct (bool_decide (a ∈ assetIds)); [ | done].
    by destruct (AnalyzeInventory.overrides t !! a).
Qed.

Lemma inv_map_step_prices t st x a :
  AnalyzeInventory.prices (AnalyzeInventory.map_step t st x) !! a
  = match AnalyzeInventory.prices st !! a with
    | Some v => Some v
    | None =>
        if bool_decide (a = x)
        then match truthy (AnalyzeInventory.assetToCg t !! a) with
             | Some _ => None
             | None => AnalyzeInventory.cachedPrices t !! a
             end
        else None
    end.
Proof.
  unfold AnalyzeInventory.map_step, has.
  destruct (decide (a = x)) as [<- | Hne].
  - rewrite bool_decide_eq_true_2 by done.
    destruct (AnalyzeInventory.prices st !! a) as [v | ] eqn:Hp; [by rewrite Hp | ].
    destruct (truthy (AnalyzeInventory.assetToCg t !! a)); [done | ].
    destruct (AnalyzeInventory.cachedPrices t !! a); simpl;
      [by rewrite lookup_insert_eq | done].
  - rewrite bool_decide_eq_false_2 by done.
    destruct (AnalyzeInventory.prices st !! x).
    + by destruct (AnalyzeInventory.prices st !! a).
    + destruct (truthy (AnalyzeInventory.assetToCg t !! x)); simpl.
      * by destruct (AnalyzeInventory.prices st !! a).
      * destruct (AnalyzeInventory.cachedPrices t !! x); simpl.
        -- rewrite lookup_insert_ne by done.
           by destruct (AnalyzeInventory.prices st !! a).
        -- by destruct (AnalyzeInventory.prices st !! a).
Qed.

Lemma inv_map_step_queue_spec t st x cg a :
  a ∈ default [] (AnalyzeInventory.cgToAsset (AnalyzeInventory.map_step t st x) !! cg)
  ↔ a ∈ default [] (AnalyzeInventory.cgToAsset st !! cg)
    ∨ (a = x ∧ AnalyzeInventory.prices st !! a = None
       ∧ truthy (AnalyzeInventory.assetToCg t !! a) = Some cg).
Proof.
  unfold AnalyzeInventory.map_step, has.
  destruct (AnalyzeInventory.prices st !! x) as [v | ] eqn:Hp.
  - split; [by left | ]. intros [H | (-> & H & _)]; [done | congruence].
  - destruct (truthy (AnalyzeInventory.assetToCg t !! x)) as [cgx | ] eqn:Hx; simpl.
    + destruct (decide (cgx = cg)) as [-> | Hne].
      * rewrite lookup_insert_eq. simpl.
        rewrite elem_of_app, list_elem_of_singleton. split.
        -- intros [H | ->]; [by left | right; done].
        -- intros [H | (-> & _)]; [by left | by right].
      * rewrite lookup_insert_ne by done. split; [by left | ].
        intros [H | (-> & _ & H)]; [done | congruence].
    + assert (a ∈ default [] (AnalyzeInventory.cgToAsset
                (match AnalyzeInventory.cachedPrices t !! x with
                 | Some v => {| AnalyzeInventory.ids := AnalyzeInventory.ids st;
                                AnalyzeInventory.cgToAsset := AnalyzeInventory.cgToAsset st;
                                AnalyzeInventory.prices := <[x := v]> (AnalyzeInventory.prices st) |}
                 | None => st
                 end) !! cg)
              ↔ a ∈ default [] (AnalyzeInventory.cgToAsset st !! cg)) as ->.
      { by destruct (AnalyzeInventory.cachedPrices t !! x). }
      split; [by left | ]. intros [H | (-> & _ & H)]; [done | congruence].
Qed.

Lemma inv_map_step_ids_spec t st x cg :
  cg ∈ AnalyzeInventory.ids (AnalyzeInventory.map_step t st x)
  ↔ cg ∈ AnalyzeInventory.ids st
    ∨ (AnalyzeInventory.prices st !! x = None
       ∧ truthy (AnalyzeInventory.assetToCg t !! x) = Some cg).
Proof.
  unfold AnalyzeInventory.map_step, has.
  destruct (AnalyzeInventory.prices st !! x) as [v | ] eqn:Hp.
  - split; [by left | ]. intros [H | (H & _)]; [done | congruence].
  - destruct (truthy (AnalyzeInventory.assetToCg t !! x)) as [cgx | ] eqn:Hx; simpl.
    + rewrite elem_of_app, list_elem_of_singleton. split.
      * intros [H | ->]; [by left | by right].
      * intros [H | (_ & H)]; [by left | right; congruence].
    + destruct (AnalyzeInventory.cachedPrices t !! x); simpl;
        (split; [by left | ]; intros [H | (_ & H)]; [done | congruence]).
Qed.

(** The mapping loop, asset by asset. *)
Lemma inv_map_assets_spec t ids st0 :
  let st := foldl (AnalyzeInventory.map_step t) st0 ids in
  (∀ a, AnalyzeInventory.prices st !! a
        = match AnalyzeInventory.prices st0 !! a with
          | Some v => Some v
          | None =>
              if bool_decide (a ∈ ids)
              then match truthy (AnalyzeInventory.assetToCg t !! a) with
                   | Some _ => None
                   | None => AnalyzeInventory.cachedPrices t !! a
                   end
              else None
          end)
  ∧ (∀ cg a, a ∈ default [] (AnalyzeInventory.cgToAsset st !! cg)
             ↔ a ∈ default [] (AnalyzeInventory.cgToAsset st0 !! cg)
               ∨ (a ∈ ids ∧ AnalyzeInventory.prices st0 !! a = None
                  ∧ truthy (AnalyzeInventory.assetToCg t !! a) = Some cg))
  ∧ (∀ cg, cg ∈ AnalyzeInventory.ids st
           ↔ cg ∈ AnalyzeInventory.ids st0
             ∨ ∃ a, a ∈ ids ∧ AnalyzeInventory.prices st0 !! a = None
                    ∧ truthy (AnalyzeInventory.assetToCg t !! a) = Some cg).
Proof.
  revert st0. induction ids as [ | x ids IH]; intros st0; simpl.
  - split; [ | split].
    + intros a. by destruct (AnalyzeInventory.prices st0 !! a).
    + intros cg a. split; [by left | ].
      intros [H | (H & _)]; [done | by apply elem_of_nil in H].
    + intros cg. split; [by left | ].
      intros [H | (a & H & _)]; [done | by apply elem_of_nil in H].
  - destruct (IH (AnalyzeInventory.map_step t st0 x)) as (Hp & Hq & Hi).
    assert (∀ a cg, truthy (AnalyzeInventory.assetToCg t !! a) = Some cg →
              (AnalyzeInventory.prices (AnalyzeInventory.map_step t st0 x) !! a = None
               ↔ AnalyzeInventory.prices st0 !! a = None)) as Hnone.
    { intros a cg Ha. rewrite inv_map_step_prices, Ha.
      destruct (AnalyzeInventory.prices st0 !! a); [done | ].
      by destruct (bool_decide (a = x)). }
    split; [ | split].
    + intros a. rewrite Hp, inv_map_step_prices.
      destruct (AnalyzeInventory.prices st0 !! a) as [v | ]; [done | ].
      destruct (decide (a = x)) as [-> | Hne].
      * rewrite (bool_decide_eq_true_2 (x = x)) by done.
        rewrite (bool_decide_eq_true_2 (x ∈ x :: ids)) by left.
        destruct (truthy (AnalyzeInventory.assetToCg t !! x)).
        -- by destruct (bool_decide (x ∈ ids)).
        -- destruct (AnalyzeInventory.cachedPrices t !! x); [done | ].
           by destruct (bool_decide (x ∈ ids)).
      * rewrite (bool_decide_eq_false_2 (a = x)) by done.
        by rewrite (bool_decide_cons_ne a x ids Hne).
    + intros cg a. rewrite Hq, inv_map_step_queue_spec. split.
      * intros [[H | (-> & H1 & H2)] | (H1 & H2 & H3)].
        -- by left.
        -- right. split; [left | done].
        -- right. split; [by right | ]. split; [ | done].
           by apply (Hnone a cg).
      * intros [H | (H1 & H2 & H3)]; [left; by left | ].
        apply elem_of_cons in H1 as [-> | H1]; [left; right; done | ].
        right. split; [done | ]. split; [ | done]. by apply (Hnone a cg).
    + intros cg. rewrite Hi, inv_map_step_ids_spec. split.
      * intros [[H | (H1 & H2)] | (a & H1 & H2 & H3)].
        -- by left.
        -- right. exists x. split; [left | done].
        -- right. exists a. split; [by right | ]. split; [ | done].
           by apply (Hnone a cg).
      * intros [H | (a & H1 & H2 & H3)]; [left; by left | ].
        apply elem_of_cons in H1 as [-> | H1]; [left; right; done | ].
        right. exists a. split; [done | ]. split; [ | done].
        by apply (Hnone a cg).
Qed.

Lemma inv_set_all_spec (usd : float) (l : list string) (prices : gmap string float) a :
  foldl (λ prices a, <[a := usd]> prices) prices l !! a
  = if bool_decide (a ∈ l) then Some usd else prices !! a.
Proof.
  revert prices. induction l as [ | x l IH]; intros prices; simpl; [done | ].
  rewrite IH. destruct (decide (a = x)) as [<- | Hne].
  - rewrite (bool_decide_eq_true_2 (a ∈ a :: l)) by left.
    rewrite lookup_insert_eq. by destruct (bool_decide (a ∈ l)).
  - rewrite (bool_decide_cons_ne a x l Hne). by rewrite lookup_insert_ne.
Qed.

(** An answer leaves an asset alone when none of its entries with a
    price is the identifier of the asset. *)
Lemma inv_apply_response_unanswered cgToAsset (prices : gmap string float) json a :
  (∀ cgId usd, (cgId, Some usd) ∈ json → a ∉ default [] (cgToAsset !! cgId)) →
  AnalyzeInventory.apply_response cgToAsset prices json !! a = prices !! a.
Proof.
  unfold AnalyzeInventory.apply_response. revert prices.
  induction json as [ | [cgId usd] json IH]; intros prices Hq; simpl; [done | ].
  rewrite IH by (intros c u Hc; apply (Hq c u); by right).
  destruct usd as [usd | ]; [ | done].
  rewrite inv_set_all_spec. rewrite bool_decide_eq_false_2; [done | ].
  apply (Hq cgId usd). left.
Qed.

(** An answer that prices the asset, always with [u], leaves it priced
    [u]; and once priced [u] it stays so. *)
Lemma inv_apply_response_answered cgToAsset (prices : gmap string float) json a u :
  (∀ cgId usd, (cgId, Some usd) ∈ json →
               a ∈ default [] (cgToAsset !! cgId) → usd = u) →
  prices !! a = Some u
  ∨ (∃ cgId, (cgId, Some u) ∈ json ∧ a ∈ default [] (cgToAsset !! cgId)) →
  AnalyzeInventory.apply_response cgToAsset prices json !! a = Some u.
Proof.
  unfold AnalyzeInventory.apply_response. revert prices.
  induction json as [ | [cgId usd] json IH]; intros prices Hu Hor; simpl.
  - destruct Hor as [H | (c & H & _)]; [done | by apply elem_of_nil in H].
  - apply IH; [intros c v Hc; apply (Hu c v); by right | ].
    destruct usd as [usd | ].
    + rewrite inv_set_all_spec.
      destruct (decide (a ∈ default [] (cgToAsset !! cgId))) as [Hin | Hout].
      * left. rewrite bool_decide_eq_true_2 by done.
        f_equal. apply (Hu cgId usd); [left | done].
      * rewrite bool_decide_eq_false_2 by done.
        destruct Hor as [H | (c & Hc & Ha)]; [by left | ].
        apply elem_of_cons in Hc as [Heq | Hc]; [ | right; by exists c].
        injection Heq as -> ->. done.
    + destruct Hor as [H | (c & Hc & Ha)]; [by left | ].
      apply elem_of_cons in Hc as [Heq | Hc]; [done | right; by exists c].
Qed.

Lemma inv_fetch_all_unanswered httpGetJson cgToAsset chunks
    (prices prices' : gmap string float) a :
  (∀ chunk json cgId usd,
     httpGetJson chunk = Some json → (cgId, Some usd) ∈ json →
     a ∉ default [] (cgToAsset !! cgId)) →
  AnalyzeInventory.fetch_all httpGetJson cgToAsset prices chunks = Some prices' →
  prices' !! a = prices !! a.
Proof.
  intros Hq. revert prices.
  induction chunks as [ | chunk chunks IH]; intros prices; simpl.
  - by intros [= ->].
  - destruct (httpGetJson chunk) as [json | ] eqn:Hj; [ | done].
    intros Hf. rewrite (IH _ Hf).
    apply inv_apply_response_unanswered. intros c u. by apply (Hq chunk json).
Qed.

Lemma inv_fetch_all_answered httpGetJson cgToAsset chunks
    (prices prices' : gmap string float) a u :
  (∀ chunk json cgId usd,
     httpGetJson chunk = Some json → (cgId, Some usd) ∈ json →
     a ∈ default [] (cgToAsset !! cgId) → usd = u) →
  prices !! a = Some u
  ∨ (∃ chunk json cgId,
       chunk ∈ chunks ∧ httpGetJson chunk = Some json
       ∧ (cgId, Some u) ∈ json ∧ a ∈ default [] (cgToAsset !! cgId)) →
  AnalyzeInventory.fetch_all httpGetJson cgToAsset prices chunks = Some prices' →
  prices' !! a = Some u.
Proof.
  intros Hu. revert prices.
  induction chunks as [ | chunk chunks IH]; intros prices Hor; simpl.
  - intros [= <-].
    destruct Hor as [H | (c & j & g & H & _)]; [done | by apply elem_of_nil in H].
  - destruct (httpGetJson chunk) as [json | ] eqn:Hj; [ | done].
    apply IH.
    destruct Hor as [H | (c & j & g & Hc & Hcj & Hg & Ha)].
    + left. apply inv_apply_response_answered;
        [intros c v; by apply (Hu chunk json) | by left].
    + apply elem_of_cons in Hc as [-> | Hc].
      * left. assert (j = json) as -> by congruence.
        apply inv_apply_response_answered;
          [intros c v; by apply (Hu chunk json) | right; by exists g].
      * right. by exists c, j, g.
Qed.

Lemma chunks_cover {A} (k : nat) (l : list A) x :
  x ∈ l → ∃ chunk, chunk ∈ chunks k l ∧ x ∈ chunk.
Proof.
  intros Hx. rewrite <- (chunks_concat k l) in Hx.
  apply list_elem_of_In, in_concat in Hx as (chunk & Hc & Hx).
  exists chunk. by rewrite !list_elem_of_In.
Qed.

(** X13. With the price service on, an inventory asset without override
    is priced as follows by [loadPricesUsd].  If it has no identifier of
    the service, it gets its cached price, if any.  If it has one, the
    cache is not consulted: when no answer carries a price for the
    identifier the asset stays without price, and when every request that
    names the identifier is answered with the price [u] for it, and no
    answer gives another, the asset gets [u].

    The names of the members every object inherits are left out, as the
    three first hypotheses say: for an asset so named the script's tests
    [overrides[a] !== undefined] and [prices[a] !== undefined] hold
    without an entry, and for an identifier of the service so named
    [cgToAsset[cg]] is a function, on which [push] and the loop over the
    mapped assets throw. *)
Theorem inv_coingecko_mode t httpGetJson assetIds prices written a :
  Forall (λ x, Js.inherited x = false) assetIds →
  (∀ x cg, x ∈ assetIds →
           truthy (AnalyzeInventory.assetToCg t !! x) = Some cg →
           Js.inherited cg = false) →
  (∀ chunk json cgId usd,
     httpGetJson chunk = Some json → (cgId, Some usd) ∈ json →
     Js.inherited cgId = false) →
  AnalyzeInventory.loadPricesUsd AnalyzeInventory.coingecko t httpGetJson assetIds
  = AnalyzeInventory.Returned prices written →
  a ∈ assetIds →
  AnalyzeInventory.overrides t !! a = None →
  match truthy (AnalyzeInventory.assetToCg t !! a) with
  | None => prices !! a = AnalyzeInventory.cachedPrices t !! a
  | Some cg =>
      ((∀ chunk json usd,
          httpGetJson chunk = Some json → (cg, Some usd) ∉ json) →
       prices !! a = None)
      ∧ (∀ u,
           (∀ chunk, cg ∈ chunk →
                     ∃ json, httpGetJson chunk = Some json
                             ∧ (cg, Some u) ∈ json) →
           (∀ chunk json usd,
              httpGetJson chunk = Some json → (cg, Some usd) ∈ json → usd = u) →
           prices !! a = Some u)
  end.
Proof.
  intros _ _ _ Hrun Ha Ho. unfold AnalyzeInventory.loadPricesUsd in Hrun.
  unfold AnalyzeInventory.map_assets, AnalyzeInventory.apply_overrides in Hrun.
  set (p0 := foldl _ ∅ assetIds) in Hrun.
  assert (p0 !! a = None) as Hp0.
  { unfold p0. rewrite inv_apply_overrides_spec, Ho.
    rewrite lookup_empty. by destruct (bool_decide (a ∈ assetIds)). }
  destruct (inv_map_assets_spec t assetIds (AnalyzeInventory.mkMapping [] ∅ p0))
    as (Hp & Hq & Hi).
  set (st := foldl (AnalyzeInventory.map_step t) _ assetIds) in *.
  simpl in Hp, Hq, Hi.
  assert (∀ cgId, a ∈ default [] (AnalyzeInventory.cgToAsset st !! cgId)
                  ↔ truthy (AnalyzeInventory.assetToCg t !! a) = Some cgId) as Hqa.
  { intros cgId. rewrite Hq, lookup_empty. simpl. split.
    - intros [H | (_ & _ & H)]; [by apply elem_of_nil in H | done].
    - intros H. by right. }
  assert (AnalyzeInventory.prices st !! a
          = match truthy (AnalyzeInventory.assetToCg t !! a) with
            | Some _ => None
            | None => AnalyzeInventory.cachedPrices t !! a
            end) as Hpa.
  { rewrite Hp, Hp0. by rewrite bool_decide_eq_true_2. }
  destruct (uniq (AnalyzeInventory.ids st)) as [ | i0 rest] eqn:Hu.
  - injection Hrun as <- _.
    destruct (truthy (AnalyzeInventory.assetToCg t !! a)) as [cg | ] eqn:Hcg;
      [ | done].
    exfalso. assert (cg ∈ uniq (AnalyzeInventory.ids st)) as Hin.
    { apply uniq_spec. apply Hi. right. by exists a. }
    rewrite Hu in Hin. by apply elem_of_nil in Hin.
  - rewrite <- Hu in Hrun.
    destruct (AnalyzeInventory.fetch_all _ _ _ _) as [p | ] eqn:Hf; [ | done].
    injection Hrun as <- _.
    destruct (truthy (AnalyzeInventory.assetToCg t !! a)) as [cg | ] eqn:Hcg.
    + split.
      * intros Hno. rewrite <- Hpa.
        refine (inv_fetch_all_unanswered _ _ _ _ _ a _ Hf).
        intros chunk json cgId usd Hj Hin Hmem. apply Hqa in Hmem.
        assert (cgId = cg) as -> by congruence. by apply (Hno chunk json usd).
      * intros u Hans Hsame.
        assert (cg ∈ uniq (AnalyzeInventory.ids st)) as Hin.
        { apply uniq_spec. apply Hi. right. by exists a. }
        destruct (chunks_cover 150 _ _ Hin) as (chunk & Hchunk & Hcgin).
        destruct (Hans chunk Hcgin) as (json & Hj & Hjin).
        refine (inv_fetch_all_answered _ _ _ _ _ a u _ _ Hf).
        -- intros c j g usd Hcj Hg Hmem. apply Hqa in Hmem.
           assert (g = cg) as -> by congruence. by apply (Hsame c j).
        -- right. exists chunk, json, cg. split; [done | ]. split; [done | ].
           split; [done | ]. by apply Hqa.
    + rewrite <- Hpa.
      refine (inv_fetch_all_unanswered _ _ _ _ _ a _ Hf).
      intros chunk json cgId usd _ _ Hmem. apply Hqa in Hmem. congruence.
Qed.

(** An instance on sample data. *)
Lemma inv_coingecko_mode_witness :
  Examples.inv_prices !! "BTC" = Some 60000%float.
Proof.
  assert (Forall (λ x, Js.inherited x = false) Examples.inv_assets) as Hnames
    by (repeat constructor).
  assert (∀ x cg, x ∈ Examples.inv_assets →
                  truthy (AnalyzeInventory.assetToCg Examples.inv_tables !! x)
                  = Some cg →
                  Js.inherited cg = false) as Hids.
  { intros x cg Hx.
    repeat (apply elem_of_cons in Hx as [-> | Hx]);
      [ | | | by apply elem_of_nil in Hx];
      vm_compute; intros Hcg; by inversion Hcg. }
  assert (∀ chunk json cgId usd,
            Examples.price_service chunk = Some json →
            (cgId, Some usd) ∈ json → Js.inherited cgId = false) as Hkeys.
  { intros chunk json cgId usd Hj Hmem. injection Hj as <-.
    repeat (apply elem_of_cons in Hmem as [Heq | Hmem]);
      [ | | by apply elem_of_nil in Hmem];
      by injection Heq as -> _. }
  assert (AnalyzeInventory.loadPricesUsd AnalyzeInventory.coingecko
            Examples.inv_tables Examples.price_service Examples.inv_assets
          = AnalyzeInventory.Returned Examples.inv_prices
              (Some Examples.inv_cache_after)) as Hload
    by (vm_compute; reflexivity).
  assert ("BTC" ∈ Examples.inv_assets) as Hin
    by (apply list_elem_of_In; vm_compute; tauto).
  assert (AnalyzeInventory.overrides Examples.inv_tables !! "BTC" = None) as Ho
    by (vm_compute; reflexivity).
  pose proof (inv_coingecko_mode _ _ _ _ _ _ Hnames Hids Hkeys Hload Hin Ho)
    as H.
  assert (truthy (AnalyzeInventory.assetToCg Examples.inv_tables !! "BTC")
          = Some "bitcoin") as Ht by (vm_compute; reflexivity).
  rewrite Ht in H. apply (proj2 H).
  - intros chunk _. eexists. split; [reflexivity | ]. right. left.
  - intros chunk json usd Hj Hmem. clear -Hj Hmem.
    injection Hj as <-.
    apply elem_of_cons in Hmem as [Heq | Hmem]; [discriminate Heq | ].
    apply elem_of_cons in Hmem as [Heq | Hmem];
      [by injection (f_equal snd Heq) | ].
    by apply elem_of_nil in Hmem.
Defined.

(** ** The methods of [fb_update_prices.js] *)

Lemma float_positive (p : float) :
  Js.Number_isFinite p = true → PrimFloat.leb p 0 = false →
  PrimFloat.ltb 0 p = true.
Proof.
  unfold Js.Number_isFinite, PrimFloat.is_finite, PrimFloat.is_nan.
  rewrite FloatAxioms.leb_spec, FloatAxioms.ltb_spec, FloatAxioms.eqb_spec.
  change (Prim2SF 0) with (S754_zero false).
  unfold SFleb, SFltb, SFeqb.
  destruct (Prim2SF p) as [s | s | | s m e]; simpl;
    try discriminate; destruct s; simpl; try discriminate; done.
Qed.

Lemma upd_apply_overrides_method t a :
  UpdatePrices.method (UpdatePrices.apply_overrides t) !! a
  = match UpdatePrices.overrides t !! a with
    | Some v => if UpdatePrices.valid_price v
                then Some UpdatePrices.override_usd else None
    | None => None
    end.
Proof.
  unfold UpdatePrices.apply_overrides.
  apply (map_fold_weak_ind
           (λ st (m : gmap string float),
              UpdatePrices.method st !! a
              = match m !! a with
                | Some v => if UpdatePrices.valid_price v
                            then Some UpdatePrices.override_usd else None
                | None => None
                end)).
  - simpl. by rewrite !lookup_empty.
  - intros k v m st Hk IH.
    destruct (decide (k = a)) as [-> | Hne].
    + rewrite lookup_insert_eq. rewrite Hk in IH.
      destruct (UpdatePrices.valid_price v); simpl; [apply lookup_insert_eq | done].
    + rewrite lookup_insert_ne by done. rewrite <- IH.
      destruct (UpdatePrices.valid_price v); simpl; [ | done].
      by rewrite lookup_insert_ne.
Qed.

Lemma upd_apply_basis_spec t assets st a :
  let st' := UpdatePrices.apply_basis t assets st in
  match UpdatePrices.prices st !! a with
  | Some v =>
      UpdatePrices.prices st' !! a = Some v
      ∧ UpdatePrices.method st' !! a = UpdatePrices.method st !! a
  | None =>
      if bool_decide (a ∈ assets) && basis_applies (UpdatePrices.basis t !! a)
      then UpdatePrices.prices st' !! a
           = UpdatePrices.b_priceUsd <$> UpdatePrices.basis t !! a
           ∧ UpdatePrices.method st' !! a = Some UpdatePrices.basis_symbol
      else UpdatePrices.prices st' !! a = None
           ∧ UpdatePrices.method st' !! a = UpdatePrices.method st !! a
  end.
Proof.
  unfold UpdatePrices.apply_basis. revert st.
  induction assets as [ | x assets IH]; intros st; simpl.
  - destruct (UpdatePrices.prices st !! a) eqn:Hp; by rewrite ?Hp.
  - set (st1 := if has (UpdatePrices.prices st) x then st else _).
    specialize (IH st1). simpl in IH.
    assert (match UpdatePrices.prices st !! a with
            | Some v => UpdatePrices.prices st1 !! a = Some v
                        ∧ UpdatePrices.method st1 !! a = UpdatePrices.method st !! a
            | None =>
                if bool_decide (a = x) && basis_applies (UpdatePrices.basis t !! a)
                then UpdatePrices.prices st1 !! a
                     = UpdatePrices.b_priceUsd <$> UpdatePrices.basis t !! a
                     ∧ is_Some (UpdatePrices.prices st1 !! a)
                     ∧ UpdatePrices.method st1 !! a = Some UpdatePrices.basis_symbol
                else UpdatePrices.prices st1 !! a = None
                     ∧ UpdatePrices.method st1 !! a = UpdatePrices.method st !! a
            end) as Hstep.
    { unfold st1, has. destruct (decide (a = x)) as [<- | Hne].
      - rewrite bool_decide_eq_true_2 by done. simpl.
        destruct (UpdatePrices.prices st !! a) as [v | ] eqn:Hp; [by rewrite Hp | ].
        unfold basis_applies.
        destruct (UpdatePrices.basis t !! a) as [b | ]; [ | by rewrite Hp].
        destruct (_ && _); simpl; [ | by rewrite Hp].
        rewrite !lookup_insert_eq. eauto.
      - rewrite bool_decide_eq_false_2 by done. simpl.
        assert (UpdatePrices.prices st1 !! a = UpdatePrices.prices st !! a
                ∧ UpdatePrices.method st1 !! a = UpdatePrices.method st !! a)
          as [H1 H2].
        { unfold st1, has. destruct (UpdatePrices.prices st !! x); [done | ].
          destruct (UpdatePrices.basis t !! x) as [b | ]; [ | done].
          destruct (_ && _); simpl; [ | done].
          by rewrite !lookup_insert_ne. }
        fold st1 in H1, H2. unfold st1, has in H1, H2. rewrite H1, H2.
        by destruct (UpdatePrices.prices st !! a). }
    destruct (UpdatePrices.prices st !! a) as [v | ] eqn:Hp.
    + destruct Hstep as [H1 H2]. rewrite H1 in IH. by rewrite <- H2.
    + destruct (decide (a = x)) as [<- | Hne].
      * rewrite (bool_decide_eq_true_2 (a ∈ a :: assets)) by left.
        rewrite (bool_decide_eq_true_2 (a = a)) in Hstep by done.
        simpl in *.
        destruct (basis_applies (UpdatePrices.basis t !! a)).
        -- destruct Hstep as (H1 & [v Hv] & H3). rewrite Hv in IH.
           destruct IH as [IH1 IH2]. by rewrite IH1, IH2, <- Hv.
        -- destruct Hstep as [H1 H2]. rewrite H1 in IH. rewrite andb_false_r in IH.
           by rewrite <- H2.
      * rewrite (bool_decide_cons_ne a x assets Hne).
        rewrite (bool_decide_eq_false_2 (a = x)) in Hstep by done.
        simpl in Hstep. destruct Hstep as [H1 H2]. rewrite H1 in IH.
        by rewrite <- H2.
Qed.

Section UpdateRequests.

Variable t : UpdatePrices.Tables.
Variable httpGetJson : list string → option UpdatePrices.Response.
Variable reqs : list (list string).
Variable need : list string.

Lemma resolved_extension_refl st : resolved_extension t httpGetJson reqs need st st.
Proof.
  intros a. destruct (UpdatePrices.prices st !! a) eqn:Hp; [done | by left].
Qed.

Lemma resolved_extension_trans st1 st2 st3 :
  resolved_extension t httpGetJson reqs need st1 st2 →
  resolved_extension t httpGetJson reqs need st2 st3 →
  resolved_extension t httpGetJson reqs need st1 st3.
Proof.
  intros H12 H23 a. specialize (H12 a). specialize (H23 a).
  destruct (UpdatePrices.prices st1 !! a) as [v | ].
  - destruct H12 as [Hp Hm]. rewrite Hp in H23. destruct H23 as [Hp' Hm'].
    split; [done | congruence].
  - destruct H12 as [[Hp Hm] | (Hin & v & Hp & Hv & Hans & Hm)].
    + rewrite Hp in H23.
      destruct H23 as [[Hp' Hm'] | (Hin & v & Hp' & Hv & Hans & Hm')].
      * left. split; [done | congruence].
      * right. split; [done | ]. by exists v.
    + rewrite Hp in H23. destruct H23 as [Hp' Hm'].
      right. split; [done | ]. exists v. split; [done | ]. split; [done | ].
      split; [done | congruence].
Qed.

Lemma upd_assign_extension chunk json cgId usd l st :
  chunk ∈ reqs → httpGetJson chunk = Some json → (cgId, usd) ∈ json →
  UpdatePrices.valid_price (Js.to_number usd) = true → l ⊆ need →
  resolved_extension t httpGetJson reqs need st
    (foldl (λ st a,
              if bool_decide (UpdatePrices.assetToCg t !! a = Some cgId)
                 && negb (has (UpdatePrices.prices st) a)
              then UpdatePrices.set_price a (Js.to_number usd)
                     UpdatePrices.coingecko_simple_price st
              else st)
           st l).
Proof.
  intros Hchunk Hjson Hentry Hv. revert st.
  induction l as [ | x l IH]; intros st Hsub; simpl.
  - apply resolved_extension_refl.
  - eapply resolved_extension_trans; [ | apply IH].
    + destruct (_ && _) eqn:Hc; [ | apply resolved_extension_refl].
      apply andb_true_iff in Hc as [Hcg Hc]. unfold has in Hc.
      apply bool_decide_eq_true in Hcg.
      intros a. simpl. destruct (decide (a = x)) as [-> | Hne].
      * destruct (UpdatePrices.prices st !! x); [done | ].
        right. split; [apply Hsub; left | ].
        exists (Js.to_number usd). rewrite !lookup_insert_eq.
        split; [done | ]. split; [done | ]. split; [ | done].
        by exists chunk, json, cgId, usd.
      * rewrite !lookup_insert_ne by done.
        destruct (UpdatePrices.prices st !! a); [done | by left].
    + intros y Hy. apply Hsub. by right.
Qed.

Lemma upd_apply_response_extension chunk json entries st :
  chunk ∈ reqs → httpGetJson chunk = Some json → entries ⊆ json →
  resolved_extension t httpGetJson reqs need st
    (UpdatePrices.apply_response t need st entries).
Proof.
  intros Hchunk Hjson. unfold UpdatePrices.apply_response. revert st.
  induction entries as [ | [cgId usd] entries IH]; intros st Hsub; simpl.
  - apply resolved_extension_refl.
  - eapply resolved_extension_trans; [ | apply IH].
    + destruct (negb _ || _) eqn:Hc; [apply resolved_extension_refl | ].
      apply orb_false_iff in Hc as [Hfin Hle].
      apply negb_false_iff in Hfin.
      apply (upd_assign_extension chunk json); [done | done | | | done].
      * apply Hsub. left.
      * unfold UpdatePrices.valid_price. rewrite Hfin. simpl.
        by apply float_positive.
    + intros e He. apply Hsub. by right.
Qed.

Lemma upd_fetch_all_extension st chunks st' :
  chunks ⊆ reqs →
  UpdatePrices.fetch_all t httpGetJson need st chunks = Some st' →
  resolved_extension t httpGetJson reqs need st st'.
Proof.
  revert st. induction chunks as [ | chunk chunks IH]; intros st Hsub; simpl.
  - intros [= <-]. apply resolved_extension_refl.
  - destruct (httpGetJson chunk) as [json | ] eqn:Hjson; [ | done].
    intros Hf. eapply resolved_extension_trans; [ | apply IH; [ | done]].
    + apply (upd_apply_response_extension chunk json); [ | done | done].
      apply Hsub. left.
    + intros c Hc. apply Hsub. by right.
Qed.

End UpdateRequests.

Lemma upd_mark_unknown_spec assets st a :
  let st' := UpdatePrices.mark_unknown assets st in
  UpdatePrices.prices st' = UpdatePrices.prices st
  ∧ UpdatePrices.method st' !! a
    = if bool_decide (a ∈ assets) && negb (has (UpdatePrices.prices st) a)
      then Some UpdatePrices.unknown
      else UpdatePrices.method st !! a.
Proof.
  unfold UpdatePrices.mark_unknown. revert st.
  induction assets as [ | x assets IH]; intros st; simpl; [done | ].
  set (st1 := if has (UpdatePrices.prices st) x then st else _).
  destruct (IH st1) as [IH1 IH2].
  assert (UpdatePrices.prices st1 = UpdatePrices.prices st) as Hp1.
  { unfold st1. by destruct (has _ x). }
  split; [by rewrite IH1 | ]. rewrite IH2, Hp1.
  destruct (decide (a = x)) as [<- | Hne].
  - rewrite (bool_decide_eq_true_2 (a ∈ a :: assets)) by left. simpl.
    unfold st1. destruct (has (UpdatePrices.prices st) a) eqn:Hh; simpl.
    + by rewrite andb_false_r.
    + rewrite lookup_insert_eq. by destruct (bool_decide (a ∈ assets)).
  - rewrite (bool_decide_cons_ne a x assets Hne).
    destruct (bool_decide (a ∈ assets) && negb (has (UpdatePrices.prices st) a));
      [done | ].
    unfold st1. destruct (has _ x); simpl; [done | by rewrite lookup_insert_ne].
Qed.

(** X14. How [fb_update_prices.js] resolves an asset.  A positive finite
    override is the price, for any key of the override table.  Otherwise
    an asset outside the inventory gets nothing; an inventory asset with
    a usable basis entry gets the basis price; and any other inventory
    asset either stays without price, with the method "unknown", or is
    mapped to the price service and gets a positive finite price, which
    an answer to one of the script's requests carries under the asset's
    identifier.  The price file written is the table of resolved prices.

    Two names are left out, as the hypotheses say.  For an asset named
    like a member every object inherits, the script's test
    [prices[a] != null] holds without a price, so such an asset is never
    resolved; and an assignment to [__proto__] does not make a property,
    so an override under that key is lost. *)
Theorem upd_run_methods t httpGetJson assets st file :
  Forall (λ a, Js.inherited a = false) assets →
  UpdatePrices.overrides t !! "__proto__" = None →
  UpdatePrices.run t httpGetJson assets = UpdatePrices.Returned st file →
  file = UpdatePrices.prices st
  ∧ ∀ a,
      if from_option UpdatePrices.valid_price false (UpdatePrices.overrides t !! a)
      then UpdatePrices.prices st !! a = UpdatePrices.overrides t !! a
           ∧ UpdatePrices.method st !! a = Some UpdatePrices.override_usd
      else if bool_decide (a ∈ assets)
      then if basis_applies (UpdatePrices.basis t !! a)
           then UpdatePrices.prices st !! a
                = UpdatePrices.b_priceUsd <$> UpdatePrices.basis t !! a
                ∧ UpdatePrices.method st !! a = Some UpdatePrices.basis_symbol
           else (UpdatePrices.prices st !! a = None
                 ∧ UpdatePrices.method st !! a = Some UpdatePrices.unknown)
                ∨ (∃ v, UpdatePrices.prices st !! a = Some v
                        ∧ UpdatePrices.valid_price v = true
                        ∧ answered_price t httpGetJson
                            (update_requests t assets) a v
                        ∧ UpdatePrices.method st !! a
                          = Some UpdatePrices.coingecko_simple_price
                        ∧ UpdatePrices.is_truthy (UpdatePrices.assetToCg t !! a)
                          = true)
      else UpdatePrices.prices st !! a = None
           ∧ UpdatePrices.method st !! a = None.
Proof.
  intros _ _. unfold UpdatePrices.run.
  set (st0 := UpdatePrices.apply_overrides t).
  set (st1 := UpdatePrices.apply_basis t assets st0).
  set (need := UpdatePrices.needCg t assets st1).
  destruct (UpdatePrices.fetch_all _ _ _ _ _) as [st2 | ] eqn:Hf; [ | done].
  intros [= <- <-]. split; [done | ]. intros a.
  apply (upd_fetch_all_extension t httpGetJson (update_requests t assets))
    in Hf; [ | done].
  specialize (Hf a).
  destruct (upd_mark_unknown_spec assets st2 a) as [Hp3 Hm3].
  simpl in Hp3, Hm3. rewrite Hp3, Hm3. clear Hp3 Hm3.
  pose proof (upd_apply_basis_spec t assets st0 a) as Hb.
  simpl in Hb. fold st1 in Hb.
  unfold st0 in Hb at 1.
  rewrite upd_apply_overrides_lookup in Hb.
  assert (UpdatePrices.method st0 !! a
          = match UpdatePrices.overrides t !! a with
            | Some v => if UpdatePrices.valid_price v
                        then Some UpdatePrices.override_usd else None
            | None => None
            end) as Hm0 by apply upd_apply_overrides_method.
  assert (a ∈ need → a ∈ assets
          ∧ UpdatePrices.is_truthy (UpdatePrices.assetToCg t !! a) = true)
    as Hneed.
  { unfold need, UpdatePrices.needCg. intros H.
    apply list_elem_of_In, filter_In in H as [H1 H2].
    apply list_elem_of_In in H1.
    apply andb_true_iff in H2 as [_ H2]. done. }
  unfold has.
  destruct (UpdatePrices.overrides t !! a) as [v | ] eqn:Ho; simpl.
  - destruct (UpdatePrices.valid_price v) eqn:Hv.
    + destruct Hb as [Hp1 Hm1]. rewrite Hp1 in Hf. destruct Hf as [Hp2 Hm2].
      rewrite Hp2. simpl. rewrite andb_false_r.
      split; [done | congruence].
    + clear Ho Hv v. revert Hb Hf Hm0 Hneed. generalize (UpdatePrices.method st0 !! a).
      intros m0 Hb Hf -> Hneed.
      destruct (bool_decide (a ∈ assets)) eqn:Hin; simpl in *.
      * destruct (basis_applies (UpdatePrices.basis t !! a)) eqn:Hba.
        -- destruct Hb as [Hp1 Hm1].
           destruct (UpdatePrices.basis t !! a) as [b | ]; [ | done].
           simpl in Hp1. rewrite Hp1 in Hf. destruct Hf as [Hp2 Hm2].
           rewrite Hp2. simpl. split; [done | congruence].
        -- destruct Hb as [Hp1 Hm1]. rewrite Hp1 in Hf.
           destruct Hf as [[Hp2 Hm2] | (Hn & w & Hp2 & Hw & Hans & Hm2)].
           ++ rewrite Hp2. simpl. by left.
           ++ rewrite Hp2. simpl. right. exists w.
              split; [done | ]. split; [done | ]. split; [done | ].
              split; [done | ]. by apply Hneed.
      * destruct Hb as [Hp1 Hm1]. rewrite Hp1 in Hf.
        destruct Hf as [[Hp2 Hm2] | (Hn & _)].
        -- split; [done | congruence].
        -- apply Hneed in Hn as [Hn _]. apply bool_decide_eq_false in Hin. done.
  - revert Hb Hf Hm0 Hneed. generalize (UpdatePrices.method st0 !! a).
    intros m0 Hb Hf -> Hneed.
    destruct (bool_decide (a ∈ assets)) eqn:Hin; simpl in *.
    + destruct (basis_applies (UpdatePrices.basis t !! a)) eqn:Hba.
      * destruct Hb as [Hp1 Hm1].
        destruct (UpdatePrices.basis t !! a) as [b | ]; [ | done].
        simpl in Hp1. rewrite Hp1 in Hf. destruct Hf as [Hp2 Hm2].
        rewrite Hp2. simpl. split; [done | congruence].
      * destruct Hb as [Hp1 Hm1]. rewrite Hp1 in Hf.
        destruct Hf as [[Hp2 Hm2] | (Hn & w & Hp2 & Hw & Hans & Hm2)].
        -- rewrite Hp2. simpl. by left.
        -- rewrite Hp2. simpl. right. exists w.
           split; [done | ]. split; [done | ]. split; [done | ].
           split; [done | ]. by apply Hneed.
    + destruct Hb as [Hp1 Hm1]. rewrite Hp1 in Hf.
      destruct Hf as [[Hp2 Hm2] | (Hn & _)].
      * split; [done | congruence].
      * apply Hneed in Hn as [Hn _]. apply bool_decide_eq_false in Hin. done.
Qed.

(** An instance on sample data. *)
Lemma upd_run_methods_witness :
  match UpdatePrices.run Samples.upd_tables Samples.upd_service
          Samples.upd_assets with
  | UpdatePrices.Returned st file =>
      file = UpdatePrices.prices st
      ∧ UpdatePrices.prices st !! "ETH" = Some 3200%float
      ∧ UpdatePrices.method st !! "ETH" = Some UpdatePrices.override_usd
  | UpdatePrices.Thrown => False
  end.
Proof.
  assert (Forall (λ a, Js.inherited a = false) Samples.upd_assets) as Hnames
    by (repeat constructor).
  assert (UpdatePrices.overrides Samples.upd_tables !! "__proto__" = None)
    as Hproto by (vm_compute; reflexivity).
  destruct (UpdatePrices.run Samples.upd_tables Samples.upd_service
              Samples.upd_assets) as [st file | ] eqn:Hrun;
    [ | vm_compute in Hrun; discriminate].
  destruct (upd_run_methods _ _ _ _ _ Hnames Hproto Hrun) as [Hfile Hall].
  split; [done | ]. exact (Hall "ETH").
Defined.

(** ** The rows of the receivership report *)

Lemma report_perRow_fold gas prices acc xs :
  foldl (ReceivershipReport.perRow_step gas prices) acc xs
  = acc ++ (ReceivershipReport.classify gas prices
            <$> filter (λ x, sourceVaultId (ReceivershipReport.r_row x)
                             ∉ ReceivershipReport.SKIP_VAULTS) xs).
Proof.
  revert acc. induction xs as [ | x xs IH]; intros acc; simpl.
  - by rewrite app_nil_r.
  - rewrite filter_cons. unfold ReceivershipReport.perRow_step at 2.
    destruct (decide (sourceVaultId (ReceivershipReport.r_row x)
                      ∉ ReceivershipReport.SKIP_VAULTS)) as [Hs | Hs].
    + rewrite bool_decide_eq_false_2 by done.
      rewrite IH, fmap_cons, <- app_assoc. done.
    + rewrite bool_decide_eq_true_2 by (by apply dec_stable).
      by rewrite IH.
Qed.

(** X15. The receivership report has one line for each plan row that is
    not completed and whose source is not a skipped vault, in plan
    order, and no other line.  On such a line, a row whose asset has no
    finite price is never "not worth"; and for a row that needs no gas
    no gas cost is estimated, the status is never "needs gas", and it is
    "not worth" exactly when the value is below the minimum. *)
Theorem report_lines gas prices completed plan :
  ReceivershipReport.perRow gas prices completed plan
  = (λ r, ReceivershipReport.classify gas prices
            (ReceivershipReport.mkRemaining (rowIdOf r) r))
    <$> filter (λ r, (rowIdOf r ∉ completed)
                     ∧ (sourceVaultId r ∉ ReceivershipReport.SKIP_VAULTS)) plan
  ∧ ∀ y, y ∈ ReceivershipReport.perRow gas prices completed plan →
      let r := ReceivershipReport.r_row (ReceivershipReport.row y) in
      (ReceivershipReport.priceOf prices (assetId r) = None →
       ReceivershipReport.status y
       = if gas_blocked r then ReceivershipReport.NEEDS_GAS
         else ReceivershipReport.READY_NOW)
      ∧ (requiresGas r = false →
         ReceivershipReport.estGasUsd y = None
         ∧ ReceivershipReport.status y
           = if ReceivershipReport.belowMin y then ReceivershipReport.NOT_WORTH
             else ReceivershipReport.READY_NOW).
Proof.
  assert (ReceivershipReport.perRow gas prices completed plan
          = (λ r, ReceivershipReport.classify gas prices
                    (ReceivershipReport.mkRemaining (rowIdOf r) r))
            <$> filter (λ r, (rowIdOf r ∉ completed)
                             ∧ (sourceVaultId r ∉ ReceivershipReport.SKIP_VAULTS))
                       plan) as Heq.
  { unfold ReceivershipReport.perRow, ReceivershipReport.remaining.
    rewrite report_perRow_fold, report_remaining_acc. simpl.
    induction plan as [ | r plan IH]; [done | ].
    rewrite !filter_cons.
    destruct (decide (rowIdOf r ∉ completed)) as [Hc | Hc].
    - rewrite fmap_cons, filter_cons. simpl.
      destruct (decide (sourceVaultId r ∉ ReceivershipReport.SKIP_VAULTS))
        as [Hs | Hs].
      + rewrite decide_True by done. rewrite !fmap_cons. by rewrite IH.
      + rewrite decide_False by (intros [_ H]; done). done.
    - rewrite decide_False by (intros [H _]; done). done. }
  split; [done | ].
  intros y Hy. rewrite Heq in Hy.
  apply list_elem_of_fmap in Hy as (r & -> & _). simpl.
  unfold ReceivershipReport.classify, ReceivershipReport.estimate_gas, gas_blocked.
  simpl. split.
  - intros ->. simpl. done.
  - intros ->. simpl. split; [done | ].
    by destruct (ReceivershipReport.priceOf prices (assetId r));
      simpl; rewrite ?orb_false_r.
Qed.

(** An instance on sample data. *)
Lemma report_lines_witness :
  ReceivershipReport.status
    (ReceivershipReport.classify Examples.gas_policy Examples.snapshot_prices
       (ReceivershipReport.mkRemaining (rowIdOf Examples.xyz_row)
          Examples.xyz_row))
  = ReceivershipReport.READY_NOW.
Proof.
  apply (proj1 (proj2 (report_lines Examples.gas_policy Examples.snapshot_prices
                         Examples.completed Examples.plan)
                  (ReceivershipReport.classify Examples.gas_policy
                     Examples.snapshot_prices
                     (ReceivershipReport.mkRemaining (rowIdOf Examples.xyz_row)
                        Examples.xyz_row))
                  ltac:(apply list_elem_of_In; vm_compute; tauto))).
  vm_compute. reflexivity.
Defined.

(** ** The batch loop of [tools/fb_execute_move_plan.js] *)


















(** ** From the move plan written to the rows executed *)

Lemma has_break_app s t :
  Ledger.has_break (s +:+ t) = Ledger.has_break s || Ledger.has_break t.
Proof.
  induction s as [ | c s IH]; [done | ].
  rewrite str_app_cons. simpl. rewrite IH. by rewrite !orb_assoc.
Qed.

Lemma has_break_double_quotes s :
  Ledger.has_break (Csv.double_quotes s) = Ledger.has_break s.
Proof.
  induction s as [ | c s IH]; [done | ]. simpl.
  destruct (Ascii.eqb c Csv.dquote) eqn:Hc; simpl; rewrite IH; [ | done].
  apply Ascii.eqb_eq in Hc as ->. done.
Qed.

Lemma has_break_esc s : Ledger.has_break (Csv.esc s) = Ledger.has_break s.
Proof.
  unfold Csv.esc. destruct (Csv.needs_quotes s); [ | done].
  simpl. rewrite has_break_app, has_break_double_quotes. simpl.
  by rewrite orb_false_r.
Qed.

Lemma has_break_join fields :
  Forall (λ f, Ledger.has_break f = false) fields →
  Ledger.has_break (Csv.join fields) = false.
Proof.
  induction fields as [ | f fields IH]; intros Hall; [done | ].
  apply Forall_cons in Hall as [Hf Hall].
  destruct fields as [ | g fields]; [done | ].
  rewrite csv_join_cons, has_break_app, Hf. simpl. by apply IH.
Qed.

Lemma has_break_write_line fields :
  Forall (λ f, Ledger.has_break f = false) fields →
  Ledger.has_break (Csv.write_line fields) = false.
Proof.
  intros Hall. unfold Csv.write_line. apply has_break_join.
  induction Hall as [ | f fields Hf Hall IH]; simpl; constructor; [ | done].
  by rewrite has_break_esc.
Qed.

(** A piece without line breaks is one line. *)
Lemma ledger_split_last s cur :
  Ledger.has_break s = false →
  Ledger.split_from s cur false = [cur +:+ s].
Proof.
  revert cur. induction s as [ | c s IH]; intros cur Hs.
  - by rewrite str_app_nil_r.
  - simpl in Hs. apply orb_false_iff in Hs as [Hc Hs].
    apply orb_false_iff in Hc as [Hlf Hcr].
    simpl. rewrite Hlf, Hcr. rewrite IH by done. by rewrite str_app_assoc.
Qed.

(** Lines without line breaks, joined and split again. *)
Lemma ledger_split_join_lines lines :
  lines ≠ [] →
  Forall (λ l, Ledger.has_break l = false) lines →
  Ledger.split_lines (MovePlan.join_lines lines) = lines.
Proof.
  unfold Ledger.split_lines.
  induction lines as [ | l lines IH]; intros Hne Hall; [done | ].
  apply Forall_cons in Hall as [Hl Hall].
  destruct lines as [ | l' lines].
  - simpl. rewrite ledger_split_last by done. by rewrite str_app_nil_l.
  - change (MovePlan.join_lines (l :: l' :: lines))
      with (l +:+ String Ledger.LF (MovePlan.join_lines (l' :: lines))).
    rewrite ledger_split_line by done. rewrite str_app_nil_l.
    by rewrite IH.
Qed.

(** A line of two or more cells is not empty. *)
Lemma csv_join_nonempty f g fields :
  Ledger.nonempty (Csv.join (f :: g :: fields)) = true.
Proof. rewrite csv_join_cons. by destruct f. Qed.

(** X19. The executor reads the move plan as the planner wrote it: from
    the file [writeCsv] produces for any rows, [rows_of] recovers, row by
    row and in order, the vault, asset, amount and destination written,
    whatever commas and quotes the cells hold, provided no cell holds a
    line break. *)
Theorem plan_is_read_as_written (rows : list (gmap string string)) :
  Forall (λ r, Forall (λ h, Ledger.has_break (MovePlan.cell r h) = false)
                      MovePlan.header) rows →
  MoveExecutor.rows_of (MovePlan.writeCsv MovePlan.header rows)
  = Some (List.map
            (λ r, MoveExecutor.mkRow
                    (Some (MovePlan.cell r "vaultId"))
                    (Some (MovePlan.cell r "assetId"))
                    (Some (MovePlan.cell r "amount"))
                    (Some (MovePlan.cell r "destinationVaultId")))
            rows).
Proof.
  intros Hrows. unfold MoveExecutor.rows_of, MovePlan.writeCsv.
  set (lines := List.map (λ r, Csv.write_line (List.map (MovePlan.cell r)
                                                 MovePlan.header)) rows).
  assert (Forall (λ l, Ledger.has_break l = false ∧ Ledger.nonempty l = true)
                 lines) as Hlines.
  { unfold lines. clear lines.
    induction Hrows as [ | r rows Hr Hrows IH]; simpl; constructor; [ | done].
    split; [ | apply csv_join_nonempty].
    apply has_break_write_line.
    change (Forall (λ f, Ledger.has_break f = false)
              (MovePlan.cell r <$> MovePlan.header)).
    by apply Forall_fmap. }
  rewrite ledger_split_join_lines; [ | done | ].
  - assert (List.filter Ledger.nonempty lines = lines) as Hfilter.
    { clear -Hlines. induction Hlines as [ | l lines [_ Hl] _ IH]; [done | ].
      simpl. by rewrite Hl, IH. }
    cbn [List.filter]. rewrite Hfilter.
    change (Ledger.nonempty (Csv.join MovePlan.header)) with true.
    cbv iota.
    assert (Csv.csvParseLine (Csv.join MovePlan.header) = MovePlan.header)
      as -> by (vm_compute; reflexivity).
    change (MoveExecutor.idx MovePlan.header "vaultId") with (Some 0%nat).
    change (MoveExecutor.idx MovePlan.header "assetId") with (Some 3%nat).
    change (MoveExecutor.idx MovePlan.header "amount") with (Some 4%nat).
    change (MoveExecutor.idx MovePlan.header "destinationVaultId")
      with (Some 6%nat).
    cbv iota. f_equal. unfold lines. rewrite List.map_map.
    apply List.map_ext. intros r.
    unfold Csv.csvParseLine, Csv.write_line.
    rewrite csv_parse_fields by done. reflexivity.
  - constructor.
    + by vm_compute.
    + eapply Forall_impl; [exact Hlines | ]. by intros l [H _].
Qed.

(** An instance on sample data. *)
Lemma plan_is_read_as_written_witness :
  MoveExecutor.rows_of (MovePlan.writeCsv MovePlan.header Samples.written_rows)
  = Some [ MoveExecutor.mkRow (Some "94001") (Some "ETH") (Some "0.5")
             (Some "94828");
           MoveExecutor.mkRow (Some "94002") (Some "USDC") (Some "12")
             (Some "94828") ].
Proof.
  apply (plan_is_read_as_written Samples.written_rows).
  repeat first [apply Forall_nil_2 | apply Forall_cons_2
               | (vm_compute; reflexivity)].
Defined.
